(** * Task Progress Tracker: a shallow embedding of [script.js]

    The development follows the source file.  The program is a single script
    that keeps a global array [tasks] of plain objects, mirrors it to
    [localStorage] under the key ['tasks'], and reacts to user gestures.

    Modelling choices, all visible in the definitions below:
    - a JavaScript string is a [string]: a sequence of code units below 256;
    - a JavaScript number is an integer ([Z]); [NaN], which only [parseInt]
      produces here, is [None] in an [option Z].  The integers of magnitude up
      to 2^53 - 1 are the numbers that the script holds exactly; a statement
      that depends on the value of a number assumes that it is one of them
      ([safe_integer], [exact_field], [exact_value]);
    - a task is what it is in the source, a plain object: a property list
      ([obj]) in insertion order; reading an absent property gives [None]
      ([undefined]);
    - [JSON.stringify] and [JSON.parse] are written out on these values;
      [JSON.parse] refuses, besides what is not JSON, the two forms that have
      no value in the model: a number with a fraction or an exponent, and a
      [\u] escape from 0100 up;
    - the DOM, the dialogs and the clock are inputs of each operation: the text
      of a form field, the answer to [confirm], the value of [Date.now()] and
      of [toISOString()] are arguments;
    - [localStorage] holds at most the one key ['tasks']: [option string];
      [setItem] is taken to succeed (the quota error that [saveTasks] catches
      leaves the snapshot as it was);
    - the array is modelled twice.  First it holds its records by value,
      which is what the script does as long as no object sits at two positions
      of the array.  Then ([Shared]) it holds references into a store of
      objects, as in the source, where a write through the reference that
      [find] returned shows at every position that holds the object.  The two
      are related at the end of the file. *)

From Stdlib Require Import ZArith List Bool String Ascii Lia Sorted Permutation.
Import ListNotations.
Open Scope string_scope.
Open Scope Z_scope.

(** ** Characters and strings *)

Definition code (c : ascii) : Z := Z.of_N (N_of_ascii c).

Definition dquote : ascii := "034"%char.
Definition backslash : ascii := "\"%char.
Definition newline : ascii := "010"%char.

(** [WhiteSpace] and [LineTerminator] of ECMAScript, restricted to the code
    units below 256: TAB, LF, VT, FF, CR, SP and NBSP. *)
Definition is_space (c : ascii) : bool :=
  let n := code c in
  ((9 <=? n) && (n <=? 13)) || (n =? 32) || (n =? 160).

Definition is_empty (s : string) : bool :=
  match s with EmptyString => true | String _ _ => false end.

Fixpoint trimStart (s : string) : string :=
  match s with
  | EmptyString => EmptyString
  | String c r => if is_space c then trimStart r else s
  end.

Fixpoint trimEnd (s : string) : string :=
  match s with
  | EmptyString => EmptyString
  | String c r =>
      match trimEnd r with
      | EmptyString => if is_space c then EmptyString else String c EmptyString
      | r' => String c r'
      end
  end.

(** [String.prototype.trim] *)
Definition trim (s : string) : string := trimEnd (trimStart s).

(** Value of a digit in the given radix: [0-9], [a-z], [A-Z]. *)
Definition digit_val (radix : Z) (c : ascii) : option Z :=
  let n := code c in
  let v :=
    if (48 <=? n) && (n <=? 57) then Some (n - 48)
    else if (97 <=? n) && (n <=? 122) then Some (n - 87)
    else if (65 <=? n) && (n <=? 90) then Some (n - 55)
    else None in
  match v with
  | Some d => if d <? radix then Some d else None
  | None => None
  end.

(** Reads the longest prefix of digits, accumulating its value; returns the
    value and what follows the digits. *)
Fixpoint read_digits (radix : Z) (acc : Z) (s : string) : Z * string :=
  match s with
  | EmptyString => (acc, EmptyString)
  | String c r =>
      match digit_val radix c with
      | Some d => read_digits radix (acc * radix + d) r
      | None => (acc, s)
      end
  end.

Definition starts_with_digit (radix : Z) (s : string) : bool :=
  match s with
  | String c _ => match digit_val radix c with Some _ => true | None => false end
  | EmptyString => false
  end.

(** An optional sign in front. *)
Definition read_sign (s : string) : Z * string :=
  match s with
  | String c r =>
      if (c =? "-")%char then (-1, r)
      else if (c =? "+")%char then (1, r)
      else (1, s)
  | EmptyString => (1, s)
  end.

(** A [0x] or [0X] prefix selects radix 16. *)
Definition read_radix (s : string) : Z * string :=
  match s with
  | String c1 (String c2 r) =>
      if (c1 =? "0")%char && ((c2 =? "x")%char || (c2 =? "X")%char)
      then (16, r) else (10, s)
  | _ => (10, s)
  end.

(** [parseInt(string)] with no radix argument: leading white space is skipped,
    a sign is read, a [0x]/[0X] prefix selects radix 16, and the longest prefix
    of digits gives the value; no digit at all gives [NaN] ([None]).  The
    value is the integer that the digits denote, which is the number that
    JavaScript returns as long as it is a safe integer ([exact_field] below). *)
Definition parseInt (s : string) : option Z :=
  let (sign, s2) := read_sign (trimStart s) in
  let (radix, s3) := read_radix s2 in
  if starts_with_digit radix s3
  then Some (sign * fst (read_digits radix 0 s3))
  else None.

Definition digit_char (d : Z) : ascii := ascii_of_N (Z.to_N (48 + d)).

(** Decimal digits of a non-negative integer, most significant first, put in
    front of [acc]. *)
Fixpoint digits_acc (fuel : nat) (n : Z) (acc : string) : string :=
  let acc' := String (digit_char (n mod 10)) acc in
  match fuel with
  | O => acc'
  | S fuel' => if n <? 10 then acc' else digits_acc fuel' (n / 10) acc'
  end.

(** [Number::toString] on an integer: the decimal digits, which is what
    JavaScript prints for a safe integer ([safe_integer] below). *)
Definition string_of_Z (z : Z) : string :=
  match z with
  | Z0 => "0"
  | Zpos p => digits_acc (Pos.size_nat p) z EmptyString
  | Zneg p => String "-" (digits_acc (Pos.size_nat p) (Zpos p) EmptyString)
  end.

(** ** Values

    What [JSON.parse] can build and what the script stores: no [undefined], no
    functions.  An object is its list of own properties in insertion order. *)

Unset Elimination Schemes.

Inductive value : Type :=
| VNull
| VBool (b : bool)
| VNum (n : Z)
| VStr (s : string)
| VArr (items : list value)
| VObj (props : list (string * value)).

Set Elimination Schemes.

(** Induction on values, through the lists they contain. *)

Section ValueInduction.

Variable P : value -> Prop.
Hypothesis P_null : P VNull.
Hypothesis P_bool : forall b, P (VBool b).
Hypothesis P_num : forall n, P (VNum n).
Hypothesis P_str : forall s, P (VStr s).
Hypothesis P_arr : forall items, Forall P items -> P (VArr items).
Hypothesis P_obj : forall props, Forall (fun kv => P (snd kv)) props -> P (VObj props).

Fixpoint value_nested_ind (v : value) : P v :=
  match v with
  | VNull => P_null
  | VBool b => P_bool b
  | VNum n => P_num n
  | VStr s => P_str s
  | VArr items =>
      P_arr items
        ((fix each (l : list value) : Forall P l :=
            match l with
            | [] => Forall_nil P
            | x :: r => Forall_cons x (value_nested_ind x) (each r)
            end) items)
  | VObj props =>
      P_obj props
        ((fix each (l : list (string * value)) : Forall (fun kv => P (snd kv)) l :=
            match l with
            | [] => Forall_nil _
            | kv :: r => Forall_cons kv (value_nested_ind (snd kv)) (each r)
            end) props)
  end.

End ValueInduction.

Definition obj : Type := list (string * value).

(** [o.k]: [None] is [undefined]. *)
Fixpoint getProp (k : string) (o : obj) : option value :=
  match o with
  | [] => None
  | (k', v) :: r => if (k' =? k)%string then Some v else getProp k r
  end.

(** [o.k = v]: an existing property keeps its place, a new one goes last. *)
Fixpoint setProp (k : string) (v : value) (o : obj) : obj :=
  match o with
  | [] => [(k, v)]
  | (k', v') :: r =>
      if (k' =? k)%string then (k, v) :: r else (k', v') :: setProp k v r
  end.

(** [ToBoolean] *)
Definition truthy (x : option value) : bool :=
  match x with
  | None => false
  | Some VNull => false
  | Some (VBool b) => b
  | Some (VNum n) => negb (n =? 0)
  | Some (VStr s) => negb (is_empty s)
  | Some (VArr _) => true
  | Some (VObj _) => true
  end.

(** [typeof x === 'number'] *)
Definition is_number (x : option value) : bool :=
  match x with
  | Some (VNum _) => true
  | _ => false
  end.

(** [x === n] for a number [n]. *)
Definition strict_eq_num (x : option value) (n : Z) : bool :=
  match x with
  | Some (VNum m) => m =? n
  | _ => false
  end.

(** ** JSON.stringify *)

Definition hex_digit (n : Z) : ascii :=
  ascii_of_N (Z.to_N (if n <? 10 then 48 + n else 87 + n)).

(** One code unit inside [QuoteJSONString]. *)
Definition escape_char (c : ascii) : string :=
  let n := code c in
  if n =? 8 then String backslash "b"
  else if n =? 9 then String backslash "t"
  else if n =? 10 then String backslash "n"
  else if n =? 12 then String backslash "f"
  else if n =? 13 then String backslash "r"
  else if n =? 34 then String backslash (String dquote EmptyString)
  else if n =? 92 then String backslash (String backslash EmptyString)
  else if n <? 32 then
    String backslash
      (String "u" (String "0" (String "0"
         (String (hex_digit (n / 16)) (String (hex_digit (n mod 16)) EmptyString)))))
  else String c EmptyString.

Fixpoint escape_chars (s : string) : string :=
  match s with
  | EmptyString => EmptyString
  | String c r => escape_char c ++ escape_chars r
  end.

Definition quoteJSONString (s : string) : string :=
  String dquote (escape_chars s ++ String dquote EmptyString).

Fixpoint spaces (n : nat) : string :=
  match n with
  | O => EmptyString
  | S k => String " " (spaces k)
  end.

(** Line feed and indentation, or nothing when there is no gap. *)
Definition line_break (gap indent : nat) : string :=
  match gap with
  | O => EmptyString
  | S _ => String newline (spaces indent)
  end.

Definition colon (gap : nat) : string :=
  match gap with
  | O => ":"
  | S _ => ": "
  end.

(** [SerializeJSONProperty] with a gap of [gap] spaces at indentation
    [indent]; [gap = 0] is the compact form. *)
Fixpoint serialize (gap indent : nat) (v : value) : string :=
  match v with
  | VNull => "null"
  | VBool true => "true"
  | VBool false => "false"
  | VNum n => string_of_Z n
  | VStr s => quoteJSONString s
  | VArr [] => "[]"
  | VArr items =>
      "[" ++ line_break gap (indent + gap)
      ++ concat ("," ++ line_break gap (indent + gap))
           (map (serialize gap (indent + gap)) items)
      ++ line_break gap indent ++ "]"
  | VObj [] => "{}"
  | VObj props =>
      "{" ++ line_break gap (indent + gap)
      ++ concat ("," ++ line_break gap (indent + gap))
           (map (fun kv => quoteJSONString (fst kv) ++ colon gap
                           ++ serialize gap (indent + gap) (snd kv)) props)
      ++ line_break gap indent ++ "}"
  end.

(** [JSON.stringify(v)] and [JSON.stringify(v, null, n)] for [n] up to 10. *)
Definition JSON_stringify (gap : nat) (v : value) : string := serialize gap 0 v.

(** ** JSON.parse *)

Definition is_json_ws (c : ascii) : bool :=
  let n := code c in (n =? 32) || (n =? 9) || (n =? 10) || (n =? 13).

Fixpoint skip_ws (s : string) : string :=
  match s with
  | EmptyString => EmptyString
  | String c r => if is_json_ws c then skip_ws r else s
  end.

Fixpoint strip_prefix (p s : string) : option string :=
  match p, s with
  | EmptyString, _ => Some s
  | String a p', String b s' => if (a =? b)%char then strip_prefix p' s' else None
  | String _ _, EmptyString => None
  end.

(** The character a one-letter escape stands for. *)
Definition unescape (e : ascii) : option ascii :=
  if (e =? dquote)%char then Some dquote
  else if (e =? backslash)%char then Some backslash
  else if (e =? "/")%char then Some "/"%char
  else if (e =? "b")%char then Some "008"%char
  else if (e =? "f")%char then Some "012"%char
  else if (e =? "n")%char then Some "010"%char
  else if (e =? "r")%char then Some "013"%char
  else if (e =? "t")%char then Some "009"%char
  else None.

(** Four hex digits of a [\u] escape; code units from 256 up have no
    counterpart in [string] and are refused. *)
Definition unescape_hex (h1 h2 h3 h4 : ascii) : option ascii :=
  match digit_val 16 h1, digit_val 16 h2, digit_val 16 h3, digit_val 16 h4 with
  | Some a, Some b, Some c, Some d =>
      if (a =? 0) && (b =? 0) then Some (ascii_of_N (Z.to_N (c * 16 + d))) else None
  | _, _, _, _ => None
  end.

(** The characters of a string literal after its opening quote, up to and
    including the closing quote. *)
Fixpoint parse_chars (s : string) : option (string * string) :=
  match s with
  | EmptyString => None
  | String c r =>
      if (c =? dquote)%char then Some (EmptyString, r)
      else if (c =? backslash)%char then
        match r with
        | EmptyString => None
        | String e r' =>
            if (e =? "u")%char then
              match r' with
              | String h1 (String h2 (String h3 (String h4 r''))) =>
                  match unescape_hex h1 h2 h3 h4, parse_chars r'' with
                  | Some ch, Some (str, rest) => Some (String ch str, rest)
                  | _, _ => None
                  end
              | _ => None
              end
            else
              match unescape e, parse_chars r' with
              | Some ch, Some (str, rest) => Some (String ch str, rest)
              | _, _ => None
              end
        end
      else if code c <? 32 then None
      else
        match parse_chars r with
        | Some (str, rest) => Some (String c str, rest)
        | None => None
        end
  end.

(** A number literal.  Only integer literals have a value in the model: a
    fraction or an exponent is refused. *)
Definition parse_number (s : string) : option (value * string) :=
  let '(sign, s1) :=
    match s with
    | String c r => if (c =? "-")%char then (-1, r) else (1, s)
    | EmptyString => (1, s)
    end in
  if starts_with_digit 10 s1 then
    let '(n, rest) :=
      match s1 with
      | String c r => if (c =? "0")%char then (0, r) else read_digits 10 0 s1
      | EmptyString => (0, s1)
      end in
    match rest with
    | String c _ =>
        if (c =? ".")%char || (c =? "e")%char || (c =? "E")%char then None
        else Some (VNum (sign * n), rest)
    | EmptyString => Some (VNum (sign * n), rest)
    end
  else None.

(** The elements of an array after the first has been found to exist, up to
    and including the closing bracket. *)
Fixpoint parse_elements (pv : string -> option (value * string)) (fuel : nat)
    (s : string) : option (list value * string) :=
  match fuel with
  | O => None
  | S fuel' =>
      match pv s with
      | None => None
      | Some (v, r) =>
          match skip_ws r with
          | EmptyString => None
          | String c r' =>
              if (c =? ",")%char then
                match parse_elements pv fuel' r' with
                | Some (vs, r'') => Some (v :: vs, r'')
                | None => None
                end
              else if (c =? "]")%char then Some ([v], r')
              else None
          end
      end
  end.

(** The members of an object, up to and including the closing brace. *)
Fixpoint parse_members (pv : string -> option (value * string)) (fuel : nat)
    (s : string) : option (list (string * value) * string) :=
  match fuel with
  | O => None
  | S fuel' =>
      match skip_ws s with
      | EmptyString => None
      | String q r0 =>
          if (q =? dquote)%char then
            match parse_chars r0 with
            | None => None
            | Some (k, r1) =>
                match skip_ws r1 with
                | EmptyString => None
                | String c r2 =>
                    if (c =? ":")%char then
                      match pv r2 with
                      | None => None
                      | Some (v, r3) =>
                          match skip_ws r3 with
                          | EmptyString => None
                          | String c' r4 =>
                              if (c' =? ",")%char then
                                match parse_members pv fuel' r4 with
                                | Some (ms, r5) => Some ((k, v) :: ms, r5)
                                | None => None
                                end
                              else if (c' =? "}")%char then Some ([(k, v)], r4)
                              else None
                          end
                      end
                    else None
                end
            end
          else None
      end
  end.

(** Properties are created in source order; a repeated key overwrites. *)
Definition build_object (members : list (string * value)) : obj :=
  fold_left (fun o kv => setProp (fst kv) (snd kv) o) members [].

Fixpoint parse_value (fuel : nat) (s : string) : option (value * string) :=
  match fuel with
  | O => None
  | S fuel' =>
      match skip_ws s with
      | EmptyString => None
      | String c r =>
          if (c =? "[")%char then
            match skip_ws r with
            | EmptyString => None
            | String c2 r2 =>
                if (c2 =? "]")%char then Some (VArr [], r2)
                else
                  match parse_elements (parse_value fuel') fuel' r with
                  | Some (vs, r') => Some (VArr vs, r')
                  | None => None
                  end
            end
          else if (c =? "{")%char then
            match skip_ws r with
            | EmptyString => None
            | String c2 r2 =>
                if (c2 =? "}")%char then Some (VObj [], r2)
                else
                  match parse_members (parse_value fuel') fuel' r with
                  | Some (ms, r') => Some (VObj (build_object ms), r')
                  | None => None
                  end
            end
          else if (c =? dquote)%char then
            match parse_chars r with
            | Some (str, r') => Some (VStr str, r')
            | None => None
            end
          else if (c =? "n")%char then
            match strip_prefix "ull" r with
            | Some r' => Some (VNull, r')
            | None => None
            end
          else if (c =? "t")%char then
            match strip_prefix "rue" r with
            | Some r' => Some (VBool true, r')
            | None => None
            end
          else if (c =? "f")%char then
            match strip_prefix "alse" r with
            | Some r' => Some (VBool false, r')
            | None => None
            end
          else parse_number (String c r)
      end
  end.

(** [JSON.parse(text)]: [None] when it throws [SyntaxError] (and on the two
    forms that have no value in the model, see [parse_number] and
    [unescape_hex]).  Every nested call consumes a character first, so the
    length of the text is fuel enough ([JSON_parse_fuel] below). *)
Definition JSON_parse (text : string) : option value :=
  match parse_value (S (length text)) text with
  | Some (v, rest) => if is_empty (skip_ws rest) then Some v else None
  | None => None
  end.

(** ** The script's state *)

Record state : Type := mkState {
  tasks : list obj;                     (* let tasks *)
  currentEditingTaskId : option Z;      (* let currentEditingTaskId = null *)
  storage : option string               (* localStorage.getItem('tasks') *)
}.

Definition set_tasks (ts : list obj) (st : state) : state :=
  {| tasks := ts;
     currentEditingTaskId := currentEditingTaskId st;
     storage := storage st |}.

(** [saveTasks]: [localStorage.setItem('tasks', JSON.stringify(tasks))], the
    write succeeding. *)
Definition saveTasks (st : state) : state :=
  {| tasks := tasks st;
     currentEditingTaskId := currentEditingTaskId st;
     storage := Some (JSON_stringify 0 (VArr (map VObj (tasks st)))) |}.

(** [t => t.id === taskId] *)
Definition has_id (taskId : Z) (t : obj) : bool :=
  strict_eq_num (getProp "id" t) taskId.

(** [tasks.find(t => t.id === taskId)] *)
Definition find_task (taskId : Z) (ts : list obj) : option obj :=
  find (has_id taskId) ts.

(** The array after the object that [find] returned has been assigned to:
    the first record with the id becomes [task']. *)
Fixpoint assign_found (taskId : Z) (task' : obj) (ts : list obj) : list obj :=
  match ts with
  | [] => []
  | t :: r =>
      if has_id taskId t then task' :: r else t :: assign_found taskId task' r
  end.

(** [tasks.splice(tasks.findIndex(t => t.id === taskId), 1)] when the index
    is not -1. *)
Fixpoint splice_found (taskId : Z) (ts : list obj) : list obj :=
  match ts with
  | [] => []
  | t :: r => if has_id taskId t then r else t :: splice_found taskId r
  end.

(** *** openEditTaskModal *)
Definition openEditTaskModal (taskId : Z) (st : state) : state :=
  match find_task taskId (tasks st) with
  | Some _ =>
      {| tasks := tasks st;
         currentEditingTaskId := Some taskId;
         storage := storage st |}
  | None => st
  end.

(** *** updateTask

    The three arguments are the values of the form fields [editTaskName],
    [editTaskCurrent] and [editTaskTarget]; [iso] is
    [new Date().toISOString()]. *)
Definition updateTask (nameField currentField targetField iso : string)
    (st : state) : state :=
  match currentEditingTaskId st with
  | None => st
  | Some editing =>
      match find_task editing (tasks st) with
      | None => st
      | Some task =>
          let newName := trim nameField in
          match parseInt currentField, parseInt targetField with
          | Some newCurrent, Some newTarget =>
              if is_empty newName || (newTarget <? 1) || (newCurrent <? 0)
                 || (newCurrent >? newTarget)
              then st
              else
                let task1 := setProp "name" (VStr newName) task in
                let task2 := setProp "current" (VNum newCurrent) task1 in
                let task3 := setProp "target" (VNum newTarget) task2 in
                let task4 := setProp "lastModified" (VStr iso) task3 in
                saveTasks (set_tasks (assign_found editing task4 (tasks st)) st)
          | _, _ => st
          end
      end
  end.

(** *** addTask

    [nameField] and [targetField] are the values of the form fields; [now] is
    [Date.now()], [createdIso] and [modifiedIso] the two [toISOString()]
    results.  [new_task] is the validation and the object literal: [None] when
    the alert is shown. *)
Definition new_task (nameField targetField : string) (now : Z)
    (createdIso modifiedIso : string) : option obj :=
  let taskName := trim nameField in
  match parseInt targetField with
  | None => None
  | Some taskTarget =>
      if is_empty taskName || (taskTarget =? 0) || (taskTarget <? 1) then None
      else
        Some [("id", VNum now);
              ("name", VStr taskName);
              ("target", VNum taskTarget);
              ("current", VNum 0);
              ("createdAt", VStr createdIso);
              ("lastModified", VStr modifiedIso)]
  end.

Definition addTask (nameField targetField : string) (now : Z)
    (createdIso modifiedIso : string) (st : state) : state :=
  match new_task nameField targetField now createdIso modifiedIso with
  | None => st
  | Some newTask => saveTasks (set_tasks (tasks st ++ [newTask]) st)
  end.

(** *** updateProgress

    [None] stands for the runs the model does not cover: the record found
    holds something else than a number in [current] or [target], where
    JavaScript would go through its string and number coercions. *)
Definition updateProgress (taskId change : Z) (iso : string) (st : state)
    : option state :=
  match find_task taskId (tasks st) with
  | None => Some st
  | Some task =>
      match getProp "current" task, getProp "target" task with
      | Some (VNum current), Some (VNum target) =>
          let newValue := current + change in
          let task1 :=
            setProp "current" (VNum (Z.max 0 (Z.min newValue target))) task in
          let task2 := setProp "lastModified" (VStr iso) task1 in
          Some (saveTasks (set_tasks (assign_found taskId task2 (tasks st)) st))
      | _, _ => None
      end
  end.

(** *** deleteTask *)
Definition deleteTask (taskId : Z) (confirmed : bool) (st : state) : state :=
  if confirmed then
    match find_task taskId (tasks st) with
    | Some _ => saveTasks (set_tasks (splice_found taskId (tasks st)) st)
    | None => st
    end
  else st.

(** *** The [onEnd] handler of the sortable container *)

(** [s.replace(pat, '')] for a string pattern: the first occurrence goes. *)
Fixpoint remove_first (pat s : string) : string :=
  match strip_prefix pat s with
  | Some r => r
  | None =>
      match s with
      | EmptyString => EmptyString
      | String c r => String c (remove_first pat r)
      end
  end.

(** [parseInt(card.id.replace('task-', ''))] *)
Definition card_task_id (cardId : string) : option Z :=
  parseInt (remove_first "task-" cardId).

(** The id that [renderTasks] gives the card of a task whose id is the
    number [taskId], a safe integer: ["task-"] and its decimal digits. *)
Definition card_id (taskId : Z) : string := "task-" ++ string_of_Z taskId.

(** [cardIds] are the ids of the [.task-card] elements in document order. *)
Definition onEnd (cardIds : list string) (st : state) : state :=
  let reorderedTasks :=
    flat_map (fun cardId =>
                match card_task_id cardId with
                | Some taskId =>
                    match find_task taskId (tasks st) with
                    | Some task => [task]
                    | None => []
                    end
                | None => []          (* t.id === NaN is never true *)
                end) cardIds in
  saveTasks (set_tasks reorderedTasks st).

(** The spec's [reorder(newOrderedIdList)]: the drop handler run on the cards
    of these ids. *)
Definition reorder (ids : list Z) (st : state) : state :=
  onEnd (map card_id ids) st.

(** *** exportData: the content of the downloaded file *)
Definition exportData (st : state) : string :=
  JSON_stringify 2 (VArr (map VObj (tasks st))).

(** *** handleFileImport *)

(** What the user is told. *)
Inductive notice : Type :=
| Imported (n : nat)      (* Successfully imported n tasks! *)
| Declined                (* the confirm dialog was answered no *)
| InvalidFormat           (* Invalid data format. *)
| NoTasksFound            (* No valid tasks found in the import file. *)
| ReadError.              (* Error reading import file. *)

(** The callback of [every]; [None] is the [TypeError] of reading a property
    of [null]. *)
Definition task_check (task : value) : option bool :=
  match task with
  | VNull => None
  | VObj o =>
      Some (truthy (getProp "id" o) && truthy (getProp "name" o)
            && is_number (getProp "target" o) && is_number (getProp "current" o))
  | _ => Some false
  end.

(** [importedTasks.every(...)]: stops at the first [false]. *)
Fixpoint every_task_check (l : list value) : option bool :=
  match l with
  | [] => Some true
  | t :: r =>
      match task_check t with
      | None => None
      | Some false => Some false
      | Some true => every_task_check r
      end
  end.

(** The records of an array, as the script's state holds them. *)
Definition objects_of (l : list value) : list obj :=
  flat_map (fun v => match v with VObj o => [o] | _ => [] end) l.

(** The body of [reader.onload] once [JSON.parse] has returned. *)
Definition import_parsed (importedTasks : value) (confirmed : bool)
    (st : state) : state * notice :=
  match importedTasks with
  | VArr (t :: r) =>
      match every_task_check (t :: r) with
      | None => (st, ReadError)
      | Some true =>
          if confirmed
          then (saveTasks (set_tasks (objects_of (t :: r)) st),
                Imported (List.length (t :: r)))
          else (st, Declined)
      | Some false => (st, InvalidFormat)
      end
  | _ => (st, NoTasksFound)
  end.

(** [text] is the content of the chosen file. *)
Definition handleFileImport (text : string) (confirmed : bool) (st : state)
    : state * notice :=
  match JSON_parse text with
  | None => (st, ReadError)
  | Some importedTasks => import_parsed importedTasks confirmed st
  end.

(** *** clearAllData *)
Definition clearAllData (confirmed1 confirmed2 : bool) (st : state) : state :=
  if confirmed1 then
    if confirmed2 then saveTasks (set_tasks [] st) else st
  else st.

(** *** Start of the script

    Line 4 initialises [tasks]; the last line calls [loadTasks].  What is
    stored may be any JSON text, so [tasks] is a [value] here. *)

(** [JSON.parse(localStorage.getItem('tasks')) || []]; [None] when
    [JSON.parse] throws, which nothing catches at this point. *)
Definition initial_tasks (stored : option string) : option value :=
  let text := match stored with Some s => s | None => "null" end in
  match JSON_parse text with
  | None => None
  | Some v => Some (if truthy (Some v) then v else VArr [])
  end.

(** [loadTasks], on the current value of [tasks]. *)
Definition loadTasks (stored : option string) (current : value) : value :=
  match stored with
  | Some savedTasks =>
      if is_empty savedTasks then current
      else
        match JSON_parse savedTasks with
        | Some v => v
        | None => VArr []        (* the catch clause *)
        end
  | None => current
  end.

(** The script run from its first line to its last: [None] when it is
    aborted by an uncaught exception. *)
Definition script_start (stored : option string) : option value :=
  match initial_tasks stored with
  | None => None
  | Some v => Some (loadTasks stored v)
  end.

(** ** Sessions: gestures one after the other *)

Inductive gesture : Type :=
| GAdd (nameField targetField : string) (now : Z) (createdIso modifiedIso : string)
| GProgress (taskId change : Z) (iso : string)
| GOpenEdit (taskId : Z)
| GEdit (nameField currentField targetField iso : string)
| GDelete (taskId : Z) (confirmed : bool)
| GReorder (cardIds : list string)
| GImport (text : string) (confirmed : bool)
| GClear (confirmed1 confirmed2 : bool).

Definition step (g : gesture) (st : state) : option state :=
  match g with
  | GAdd n t now c m => Some (addTask n t now c m st)
  | GProgress i d iso => updateProgress i d iso st
  | GOpenEdit i => Some (openEditTaskModal i st)
  | GEdit n c t iso => Some (updateTask n c t iso st)
  | GDelete i ok => Some (deleteTask i ok st)
  | GReorder cards => Some (onEnd cards st)
  | GImport text ok => Some (fst (handleFileImport text ok st))
  | GClear ok1 ok2 => Some (clearAllData ok1 ok2 st)
  end.

Fixpoint run (gs : list gesture) (st : state) : option state :=
  match gs with
  | [] => Some st
  | g :: r =>
      match step g st with
      | Some st' => run r st'
      | None => None
      end
  end.

(** The record a gesture creates, if it creates one. *)
Definition created (g : gesture) : option obj :=
  match g with
  | GAdd n t now c m => new_task n t now c m
  | _ => None
  end.

(** The number in the [id] property. *)
Definition id_of (t : obj) : option Z :=
  match getProp "id" t with
  | Some (VNum n) => Some n
  | _ => None
  end.

Definition option_list {A : Type} (x : option A) : list A :=
  match x with
  | Some a => [a]
  | None => []
  end.

(** The ids issued by [addTask] during a session, oldest first. *)
Definition issued_ids (gs : list gesture) : list Z :=
  flat_map (fun g => match created g with
                     | Some t => option_list (id_of t)
                     | None => []
                     end) gs.

(** The readings of [Date.now()] that the creating gestures of a session
    made, oldest first. *)
Definition creation_clock (gs : list gesture) : list Z :=
  flat_map (fun g => match g with
                     | GAdd n t now c m =>
                         match created g with Some _ => [now] | None => [] end
                     | _ => []
                     end) gs.

(** Successive calls of [updateProgress]: (id, delta, timestamp). *)
Fixpoint updateProgress_all (calls : list (Z * Z * string)) (st : state)
    : option state :=
  match calls with
  | [] => Some st
  | (taskId, change, iso) :: r =>
      match updateProgress taskId change iso st with
      | Some st' => updateProgress_all r st'
      | None => None
      end
  end.

(** ** Vocabulary of the statements *)

(** [0 <= current <= target], both being numbers. *)
Definition in_range (t : obj) : bool :=
  match getProp "current" t, getProp "target" t with
  | Some (VNum c), Some (VNum g) => (0 <=? c) && (c <=? g)
  | _, _ => false
  end.

(** Both [current] and [target] hold a number. *)
Definition numeric (t : obj) : bool :=
  is_number (getProp "current" t) && is_number (getProp "target" t).

(** What one call does to the record it finds. *)
Definition progressed (change : Z) (iso : string) (task : obj) : option obj :=
  match getProp "current" task, getProp "target" task with
  | Some (VNum c), Some (VNum g) =>
      Some (setProp "lastModified" (VStr iso)
              (setProp "current" (VNum (Z.max 0 (Z.min (c + change) g))) task))
  | _, _ => None
  end.

(** The record after a successful edit. *)
Definition edited (newName : string) (newCurrent newTarget : Z) (iso : string)
    (task : obj) : obj :=
  setProp "lastModified" (VStr iso)
    (setProp "target" (VNum newTarget)
       (setProp "current" (VNum newCurrent)
          (setProp "name" (VStr newName) task))).

(** The conditions that [updateTask] tests before it writes, on the texts of
    the form fields: [isNaN] of what [parseInt] reads, and the comparisons of
    line 105. *)
Definition edit_rejected (nameField currentField targetField : string) : Prop :=
  trim nameField = EmptyString
  \/ parseInt currentField = None
  \/ parseInt targetField = None
  \/ (exists g, parseInt targetField = Some g /\ g < 1)
  \/ (exists c, parseInt currentField = Some c /\ c < 0)
  \/ (exists c g, parseInt currentField = Some c /\ parseInt targetField = Some g
                  /\ c > g).

(** The conditions that [addTask] tests: [!taskName || !taskTarget ||
    taskTarget < 1] on the trimmed name and on what [parseInt] reads. *)
Definition create_rejected (nameField targetField : string) : Prop :=
  trim nameField = EmptyString
  \/ parseInt targetField = None
  \/ (exists g, parseInt targetField = Some g /\ g < 1).

(** The test of [every] on a record. *)
Definition importable (o : obj) : bool :=
  truthy (getProp "id" o) && truthy (getProp "name" o)
  && is_number (getProp "target" o) && is_number (getProp "current" o).

(** A non-empty array of objects, each with a truthy [id], a truthy [name], a
    numeric [target] and a numeric [current]. *)
Definition acceptable (v : value) : Prop :=
  exists l,
    v = VArr l /\ l <> []
    /\ Forall (fun t => exists o, t = VObj o /\ importable o = true) l.

(** The numbers that the records of a sequence have as [id], in order. *)
Definition numeric_ids (ts : list obj) : list Z :=
  flat_map (fun t => option_list (id_of t)) ts.

(** No key twice. *)
Fixpoint distinct (keys : list string) : bool :=
  match keys with
  | [] => true
  | k :: r => negb (existsb (String.eqb k) r) && distinct r
  end.

(** No object, at any depth, has a key twice: what [JSON.parse] builds and
    what the script makes of it. *)
Fixpoint well_formed (v : value) : bool :=
  match v with
  | VArr items => forallb well_formed items
  | VObj props =>
      distinct (map fst props) && forallb (fun kv => well_formed (snd kv)) props
  | _ => true
  end.

(** Fuel that [parse_value] needs for the text of a value. *)
Fixpoint need (v : value) : nat :=
  match v with
  | VArr items => S (fold_right (fun x n => (need x + n)%nat) O items)
  | VObj props => S (fold_right (fun kv n => (need (snd kv) + n)%nat) O props)
  | _ => 1%nat
  end.

(** What may follow a number literal: not a digit, a point or an exponent. *)
Definition ends_number (rest : string) : bool :=
  match rest with
  | EmptyString => true
  | String c _ =>
      negb (starts_with_digit 10 rest)
      && negb ((c =? ".")%char || (c =? "e")%char || (c =? "E")%char)
  end.

(** A text that starts where a value, or a key, can start. *)
Definition opens (s : string) : bool :=
  match s with
  | EmptyString => false
  | String c _ =>
      negb (is_json_ws c) && negb (c =? "]")%char && negb (c =? "}")%char
      && negb (c =? ",")%char
  end.

(** The text that follows the first of the items of an array or object:
    each further item after a comma and a line break, then [final]. *)
Fixpoint rest_text (lb : string) (texts : list string) (final : string) : string :=
  match texts with
  | [] => final
  | t :: r => String "," (lb ++ t ++ rest_text lb r final)
  end.

(** The text of a member of an object. *)
Definition member_text (gap indent : nat) (kv : string * value) : string :=
  quoteJSONString (fst kv) ++ colon gap ++ serialize gap indent (snd kv).

(** A parser that consumes at least one character. *)
Definition consuming (pv : string -> option (value * string)) : Prop :=
  forall s v r, pv s = Some (v, r) -> (String.length r < String.length s)%nat.

(** ** Sample data *)

Definition sample_task : obj :=
  [("id", VNum 1730512345678); ("name", VStr "Read books"); ("target", VNum 10);
   ("current", VNum 3); ("createdAt", VStr "2024-11-02T01:52:25.678Z");
   ("lastModified", VStr "2024-11-02T01:52:25.678Z")].

(** A record whose [current] is above its [target]. *)
Definition over_target_task : obj :=
  [("id", VNum 1); ("name", VStr "A"); ("target", VNum 5); ("current", VNum 8)].

Definition empty_state : state :=
  {| tasks := []; currentEditingTaskId := None; storage := None |}.

(** A record that the import accepts and whose text reads back as it is. *)
Definition sound_task (t : obj) : bool := importable t && well_formed (VObj t).

(** The gestures of a session that read a clock read one that is not 0. *)
Definition clock_started (g : gesture) : bool :=
  match g with
  | GAdd _ _ now _ _ => negb (now =? 0)
  | _ => true
  end.

(** A second state, with one record. *)
Definition one_task_state : state :=
  {| tasks := [sample_task]; currentEditingTaskId := None; storage := None |}.

(** The one-record state with that record open in the edit dialog. *)
Definition editing_state : state := openEditTaskModal 1730512345678 one_task_state.

(** A state with two records. *)
Definition two_task_state : state :=
  {| tasks := [sample_task;
               [("id", VNum 1730512399999); ("name", VStr "Run"); ("target", VNum 5);
                ("current", VNum 5); ("createdAt", VStr "2024-11-02T01:53:19.999Z");
                ("lastModified", VStr "2024-11-02T01:53:19.999Z")]];
     currentEditingTaskId := None;
     storage := None |}.

(** A session: a creation, the deletion of what it created, a creation. *)
Definition sample_session : list gesture :=
  [GAdd "Read books" "10" 1730512345678 "2024-11-02T01:52:25.678Z" "2024-11-02T01:52:25.678Z";
   GDelete 1730512345678 true;
   GAdd "Run" "5" 1730512399999 "2024-11-02T01:53:19.999Z" "2024-11-02T01:53:19.999Z"].

(** Two records with one id, as a file to import may hold them. *)
Definition twin_a : obj :=
  [("id", VNum 1); ("name", VStr "A"); ("target", VNum 5); ("current", VNum 2)].

Definition twin_b : obj :=
  [("id", VNum 1); ("name", VStr "B"); ("target", VNum 9); ("current", VNum 4)].

(** A sequence in which two records have one id, and a third another. *)
Definition repeated_id_state : state :=
  {| tasks := [twin_a; twin_b; sample_task];
     currentEditingTaskId := None;
     storage := None |}.

(** Two creations at one reading of the clock. *)
Definition same_reading_session : list gesture :=
  [GAdd "Read books" "10" 1730512345678 "2024-11-02T01:52:25.678Z" "2024-11-02T01:52:25.678Z";
   GAdd "Run" "5" 1730512345678 "2024-11-02T01:52:25.678Z" "2024-11-02T01:52:25.678Z"].

(** A creation, the deletion of what it created, and a creation at the same
    reading of the clock. *)
Definition reuse_session : list gesture :=
  [GAdd "Read books" "10" 1730512345678 "2024-11-02T01:52:25.678Z" "2024-11-02T01:52:25.678Z";
   GDelete 1730512345678 true;
   GAdd "Run" "5" 1730512345678 "2024-11-02T01:52:25.678Z" "2024-11-02T01:52:25.678Z"].

(** * Further functions of the script *)

(** The callback of [setInterval] and the [beforeunload] handler:
    [if (tasks.length > 0) saveTasks()]. *)
Definition autoSave (st : state) : state :=
  match tasks st with
  | [] => st
  | _ :: _ => saveTasks st
  end.

(** ** escapeHtml

    The text becomes the data of a text node ([div.textContent = text]) and
    is serialised ([div.innerHTML]): in a text node the serialisation replaces
    [&], NBSP, [<] and [>]. *)
Definition escape_html_char (c : ascii) : string :=
  if (c =? "&")%char then "&amp;"
  else if code c =? 160 then "&nbsp;"
  else if (c =? "<")%char then "&lt;"
  else if (c =? ">")%char then "&gt;"
  else String c EmptyString.

Fixpoint escapeHtml (text : string) : string :=
  match text with
  | EmptyString => EmptyString
  | String c r => escape_html_char c ++ escapeHtml r
  end.

(** ** Vocabulary of the further statements *)

(** The stored snapshot is the text of the sequence. *)
Definition synced (st : state) : Prop :=
  storage st = Some (JSON_stringify 0 (VArr (map VObj (tasks st)))).

Definition no_import (g : gesture) : bool :=
  match g with
  | GImport _ _ => false
  | _ => true
  end.

Fixpoint contains (c : ascii) (s : string) : bool :=
  match s with
  | EmptyString => false
  | String a r => (a =? c)%char || contains c r
  end.

(** Reads the four entities of [escapeHtml] back. *)
Fixpoint unescapeHtml (s : string) : string :=
  match s with
  | EmptyString => EmptyString
  | String c r =>
      if (c =? "&")%char then
        match r with
        | String c1 (String c2 (String c3 r3)) =>
            if (c1 =? "l")%char && (c2 =? "t")%char && (c3 =? ";")%char
            then String "<" (unescapeHtml r3)
            else if (c1 =? "g")%char && (c2 =? "t")%char && (c3 =? ";")%char
            then String ">" (unescapeHtml r3)
            else
              match r3 with
              | String c4 r4 =>
                  if (c1 =? "a")%char && (c2 =? "m")%char && (c3 =? "p")%char
                     && (c4 =? ";")%char
                  then String "&" (unescapeHtml r4)
                  else
                    match r4 with
                    | String c5 r5 =>
                        if (c1 =? "n")%char && (c2 =? "b")%char && (c3 =? "s")%char
                           && (c4 =? "p")%char && (c5 =? ";")%char
                        then String "160" (unescapeHtml r5)
                        else String c (unescapeHtml r)
                    | EmptyString => String c (unescapeHtml r)
                    end
              | EmptyString => String c (unescapeHtml r)
              end
        | _ => String c (unescapeHtml r)
        end
      else String c (unescapeHtml r)
  end.

(** A text that neither starts nor ends with white space. *)
Definition starts_clean (s : string) : bool :=
  match s with
  | EmptyString => true
  | String c _ => negb (is_space c)
  end.

Fixpoint ends_clean (s : string) : bool :=
  match s with
  | EmptyString => true
  | String c EmptyString => negb (is_space c)
  | String _ r => ends_clean r
  end.

(** Calls of [updateProgress] on one id, one for each delta. *)
Definition same_id_calls (taskId : Z) (deltas : list Z) (iso : string)
    : list (Z * Z * string) :=
  map (fun d => (taskId, d, iso)) deltas.

(** A longer session without import. *)
Definition longer_session : list gesture :=
  sample_session
  ++ [GProgress 1730512399999 9 "t"; GOpenEdit 1730512399999;
      GEdit "Run far" "7" "8" "t"; GProgress 1730512399999 (-20) "t";
      GReorder ["task-1730512399999"]; GDelete 5 true].

(** * Where the integers of the model are the numbers of the script

    A JavaScript number is a binary64 value.  The integers of magnitude up to
    2^53 - 1 ([Number.MAX_SAFE_INTEGER]) are held exactly, are read by
    [parseInt] without rounding and print as their decimal digits: there the
    integers of the model and the numbers of the script are the same thing.
    A statement whose truth depends on the value of a number assumes that the
    number lies in this range. *)

Definition MAX_SAFE_INTEGER : Z := 9007199254740991.

(** [Number.isSafeInteger] *)
Definition safe_integer (n : Z) : bool :=
  (- MAX_SAFE_INTEGER <=? n) && (n <=? MAX_SAFE_INTEGER).

(** A form field whose leading integer, if it has one, is read exactly. *)
Definition exact_field (field : string) : bool :=
  match parseInt field with
  | Some n => safe_integer n
  | None => true
  end.

(** A key that is no array index.  An object lists its index keys first, in
    ascending order, and only then the other keys in the order of their
    creation; a property list in creation order is the object when no key is
    an index. *)
Definition plain_key (k : string) : bool := negb (starts_with_digit 10 k).

(** A value that the model holds as the script does: every number in it is a
    safe integer, and every object in it has its keys once each, none of them
    an index. *)
Fixpoint exact_value (v : value) : bool :=
  match v with
  | VNum n => safe_integer n
  | VArr items => forallb exact_value items
  | VObj props =>
      distinct (map fst props)
      && forallb (fun kv => plain_key (fst kv) && exact_value (snd kv)) props
  | _ => true
  end.

Definition exact_task (t : obj) : bool := exact_value (VObj t).

(** * The words of the specification

    "A valid integer" and "a positive integer", read on the text of a form
    field: an optional sign and decimal digits, nothing else, with the value
    that the digits denote. *)

Definition is_decimal_digit (c : ascii) : bool :=
  (48 <=? code c) && (code c <=? 57).

Fixpoint decimal_digits (s : string) : bool :=
  match s with
  | EmptyString => true
  | String c r => is_decimal_digit c && decimal_digits r
  end.

Fixpoint decimal_value (acc : Z) (digits : string) : Z :=
  match digits with
  | EmptyString => acc
  | String c r => decimal_value (acc * 10 + (code c - 48)) r
  end.

(** The sign, as 1 or -1, and what follows it. *)
Definition signed (s : string) : Z * string :=
  match s with
  | String c r =>
      if (c =? "-")%char then (-1, r)
      else if (c =? "+")%char then (1, r)
      else (1, s)
  | EmptyString => (1, s)
  end.

Definition integer_text (s : string) : bool :=
  negb (is_empty (snd (signed s))) && decimal_digits (snd (signed s)).

Definition integer_value (s : string) : Z :=
  fst (signed s) * decimal_value 0 (snd (signed s)).



(** The conditions under which the specification has [edit] fail. *)
Definition spec_edit_fails (name current target : string) : Prop :=
  trim name = EmptyString
  \/ integer_text current = false
  \/ integer_text target = false
  \/ integer_value target < 1
  \/ integer_value current < 0
  \/ integer_value current > integer_value target.

(** * The array as the script holds it

    [tasks] is an array of references to objects.  [find] returns one of
    them, and an assignment such as [task.current = ...] writes through it:
    every position of the array that holds the object shows the new value.
    Above, the array holds its records by value, which is the same as long as
    no object sits at two positions of the array.  Here the objects live in a
    store, by address, and the array holds addresses; the functions are those
    of the script again, and nothing else differs. *)

Module Shared.

Record store : Type := mkStore {
  heap : list obj;                      (* the objects created so far *)
  tasks : list nat;                     (* let tasks: the addresses it holds *)
  currentEditingTaskId : option Z;      (* let currentEditingTaskId = null *)
  storage : option string               (* localStorage.getItem('tasks') *)
}.

(** The object at an address. *)
Definition deref (h : list obj) (a : nat) : obj := nth a h [].

(** The array as its records. *)
Definition records (s : store) : list obj := map (deref (heap s)) (tasks s).

(** The state that the array, read by value, is. *)
Definition view (s : store) : state :=
  mkState (records s) (currentEditingTaskId s) (storage s).

Definition set_tasks (l : list nat) (s : store) : store :=
  {| heap := heap s;
     tasks := l;
     currentEditingTaskId := currentEditingTaskId s;
     storage := storage s |}.

Definition set_heap (h : list obj) (s : store) : store :=
  {| heap := h;
     tasks := tasks s;
     currentEditingTaskId := currentEditingTaskId s;
     storage := storage s |}.

(** [saveTasks] *)
Definition saveTasks (s : store) : store :=
  {| heap := heap s;
     tasks := tasks s;
     currentEditingTaskId := currentEditingTaskId s;
     storage := Some (JSON_stringify 0 (VArr (map VObj (records s)))) |}.

(** [tasks.find(t => t.id === taskId)]: the address of the object found. *)
Definition find_task (taskId : Z) (s : store) : option nat :=
  find (fun a => has_id taskId (deref (heap s) a)) (tasks s).

(** The store after assignments to properties of the object at [a] have made
    it [o]. *)
Fixpoint write (a : nat) (o : obj) (h : list obj) : list obj :=
  match h, a with
  | [], _ => []
  | _ :: r, O => o :: r
  | x :: r, S a' => x :: write a' o r
  end.

(** [openEditTaskModal] *)
Definition openEditTaskModal (taskId : Z) (s : store) : store :=
  match find_task taskId s with
  | Some _ =>
      {| heap := heap s;
         tasks := tasks s;
         currentEditingTaskId := Some taskId;
         storage := storage s |}
  | None => s
  end.

(** [updateTask] *)
Definition updateTask (nameField currentField targetField iso : string)
    (s : store) : store :=
  match currentEditingTaskId s with
  | None => s
  | Some editing =>
      match find_task editing s with
      | None => s
      | Some a =>
          let task := deref (heap s) a in
          let newName := trim nameField in
          match parseInt currentField, parseInt targetField with
          | Some newCurrent, Some newTarget =>
              if is_empty newName || (newTarget <? 1) || (newCurrent <? 0)
                 || (newCurrent >? newTarget)
              then s
              else
                let task1 := setProp "name" (VStr newName) task in
                let task2 := setProp "current" (VNum newCurrent) task1 in
                let task3 := setProp "target" (VNum newTarget) task2 in
                let task4 := setProp "lastModified" (VStr iso) task3 in
                saveTasks (set_heap (write a task4 (heap s)) s)
          | _, _ => s
          end
      end
  end.

(** [addTask]: the object literal is a new object, [push] puts its address
    last. *)
Definition addTask (nameField targetField : string) (now : Z)
    (createdIso modifiedIso : string) (s : store) : store :=
  match new_task nameField targetField now createdIso modifiedIso with
  | None => s
  | Some newTask =>
      saveTasks
        {| heap := heap s ++ [newTask];
           tasks := tasks s ++ [List.length (heap s)];
           currentEditingTaskId := currentEditingTaskId s;
           storage := storage s |}
  end.

(** [updateProgress]; [None] as above, where [current] or [target] of the
    object found is no number. *)
Definition updateProgress (taskId change : Z) (iso : string) (s : store)
    : option store :=
  match find_task taskId s with
  | None => Some s
  | Some a =>
      let task := deref (heap s) a in
      match getProp "current" task, getProp "target" task with
      | Some (VNum current), Some (VNum target) =>
          let newValue := current + change in
          let task1 :=
            setProp "current" (VNum (Z.max 0 (Z.min newValue target))) task in
          let task2 := setProp "lastModified" (VStr iso) task1 in
          Some (saveTasks (set_heap (write a task2 (heap s)) s))
      | _, _ => None
      end
  end.

(** [tasks.splice(tasks.findIndex(t => t.id === taskId), 1)] *)
Fixpoint splice_found (taskId : Z) (h : list obj) (l : list nat) : list nat :=
  match l with
  | [] => []
  | a :: r =>
      if has_id taskId (deref h a) then r else a :: splice_found taskId h r
  end.

(** [deleteTask] *)
Definition deleteTask (taskId : Z) (confirmed : bool) (s : store) : store :=
  if confirmed then
    match find_task taskId s with
    | Some _ => saveTasks (set_tasks (splice_found taskId (heap s) (tasks s)) s)
    | None => s
    end
  else s.

(** The [onEnd] handler: [reorderedTasks] receives, for each card, the
    object that [find] returns. *)
Definition onEnd (cardIds : list string) (s : store) : store :=
  let reorderedTasks :=
    flat_map (fun cardId =>
                match card_task_id cardId with
                | Some taskId => option_list (find_task taskId s)
                | None => []
                end) cardIds in
  saveTasks (set_tasks reorderedTasks s).

(** The body of [reader.onload] once [JSON.parse] has returned: the objects
    of the parsed array are new objects. *)
Definition import_parsed (importedTasks : value) (confirmed : bool)
    (s : store) : store * notice :=
  match importedTasks with
  | VArr (t :: r) =>
      match every_task_check (t :: r) with
      | None => (s, ReadError)
      | Some true =>
          if confirmed
          then (saveTasks
                  {| heap := heap s ++ objects_of (t :: r);
                     tasks := seq (List.length (heap s))
                                (List.length (objects_of (t :: r)));
                     currentEditingTaskId := currentEditingTaskId s;
                     storage := storage s |},
                Imported (List.length (t :: r)))
          else (s, Declined)
      | Some false => (s, InvalidFormat)
      end
  | _ => (s, NoTasksFound)
  end.

(** [handleFileImport] *)
Definition handleFileImport (text : string) (confirmed : bool) (s : store)
    : store * notice :=
  match JSON_parse text with
  | None => (s, ReadError)
  | Some importedTasks => import_parsed importedTasks confirmed s
  end.

(** [clearAllData] *)
Definition clearAllData (confirmed1 confirmed2 : bool) (s : store) : store :=
  if confirmed1 then
    if confirmed2 then saveTasks (set_tasks [] s) else s
  else s.

Definition step (g : gesture) (s : store) : option store :=
  match g with
  | GAdd n t now c m => Some (addTask n t now c m s)
  | GProgress i d iso => updateProgress i d iso s
  | GOpenEdit i => Some (openEditTaskModal i s)
  | GEdit n c t iso => Some (updateTask n c t iso s)
  | GDelete i ok => Some (deleteTask i ok s)
  | GReorder cards => Some (onEnd cards s)
  | GImport text ok => Some (fst (handleFileImport text ok s))
  | GClear ok1 ok2 => Some (clearAllData ok1 ok2 s)
  end.

Fixpoint run (gs : list gesture) (s : store) : option store :=
  match gs with
  | [] => Some s
  | g :: r =>
      match step g s with
      | Some s' => run r s'
      | None => None
      end
  end.

(** The store when the script starts with nothing stored. *)
Definition empty : store :=
  {| heap := []; tasks := []; currentEditingTaskId := None; storage := None |}.

(** Every address of the array is that of an object. *)
Definition allocated (s : store) : Prop :=
  Forall (fun a => (a < List.length (heap s))%nat) (tasks s).

(** No object sits at two positions of the array. *)
Definition unshared (s : store) : Prop := NoDup (tasks s).

End Shared.

(** The two records of [two_task_state] as two objects of a store. *)
Definition two_task_store : Shared.store :=
  {| Shared.heap := tasks two_task_state;
     Shared.tasks := [0; 1]%nat;
     Shared.currentEditingTaskId := None;
     Shared.storage := None |}.

(** That store with its second record open in the edit dialog. *)
Definition editing_store : Shared.store :=
  Shared.openEditTaskModal 1730512399999 two_task_store.

(** The import of the two, then a drop: both cards carry the id 1, and for
    both [find] returns the first object. *)
Definition twin_session : list gesture :=
  [GImport (JSON_stringify 2 (VArr [VObj twin_a; VObj twin_b])) true;
   GReorder ["task-1"; "task-1"]].

(** The store that this session ends in: one object at both positions. *)
Definition twice_listed_store : Shared.store :=
  {| Shared.heap := [twin_a; twin_b];
     Shared.tasks := [0; 0]%nat;
     Shared.currentEditingTaskId := None;
     Shared.storage := Some (JSON_stringify 0 (VArr [VObj twin_a; VObj twin_a])) |}.

(** The ids that the cards of a drop carry. *)
Definition card_ids (cardIds : list string) : list Z :=
  flat_map (fun cardId => option_list (card_task_id cardId)) cardIds.

(** A drop whose cards repeat no id. *)
Definition distinct_cards (g : gesture) : Prop :=
  match g with
  | GReorder cardIds => NoDup (card_ids cardIds)
  | _ => True
  end.

(** * Properties

    ** The built-in functions on examples *)

Example trim_ex : trim "  Read books  " = "Read books".
Proof. reflexivity. Qed.

Example parseInt_ex1 : parseInt " 12abc" = Some 12.
Proof. reflexivity. Qed.

Example parseInt_ex2 : parseInt "abc" = None.
Proof. reflexivity. Qed.

Example parseInt_ex3 : parseInt "-0x1F" = Some (-31).
Proof. reflexivity. Qed.

Example string_of_Z_ex : string_of_Z 1730512345678 = "1730512345678" /\ string_of_Z (-120) = "-120".
Proof. split; reflexivity. Qed.

(** ** Reading and writing properties *)

Open Scope list_scope.

Section Properties.

Lemma getProp_setProp_same (k : string) (v : value) (o : obj) :
  getProp k (setProp k v o) = Some v.
Proof.
  induction o as [|[k' v'] r IH]; simpl.
  - now rewrite String.eqb_refl.
  - destruct (k' =? k)%string eqn:E; simpl.
    + now rewrite String.eqb_refl.
    + now rewrite E.
Qed.

Lemma getProp_setProp_other (k k0 : string) (v : value) (o : obj) :
  k0 <> k -> getProp k0 (setProp k v o) = getProp k0 o.
Proof.
  intros Hne. induction o as [|[k' v'] r IH]; simpl.
  - destruct (k =? k0)%string eqn:E; [|reflexivity].
    apply String.eqb_eq in E. congruence.
  - destruct (k' =? k)%string eqn:E; simpl.
    + apply String.eqb_eq in E. subst k'.
      destruct (k =? k0)%string eqn:E'; [|reflexivity].
      apply String.eqb_eq in E'. congruence.
    + destruct (k' =? k0)%string; [reflexivity|exact IH].
Qed.

End Properties.

(** ** Finding, assigning to and removing the first record with an id *)

Section FirstMatch.

Variable taskId : Z.

Lemma find_task_none (ts : list obj) :
  find_task taskId ts = None <-> (forall t, In t ts -> has_id taskId t = false).
Proof.
  unfold find_task. split.
  - intros H t Ht. exact (find_none _ _ H t Ht).
  - induction ts as [|t r IH]; simpl; intros H; [reflexivity|].
    rewrite (H t (or_introl eq_refl)). apply IH. intros; apply H; now right.
Qed.

(** [find] returns the first record with the id, and tells where it is. *)
Lemma find_task_split (ts : list obj) (task : obj) :
  find_task taskId ts = Some task ->
  exists pre post,
    ts = pre ++ task :: post
    /\ (forall t, In t pre -> has_id taskId t = false)
    /\ has_id taskId task = true.
Proof.
  unfold find_task. induction ts as [|t r IH]; simpl; [discriminate|].
  destruct (has_id taskId t) eqn:E.
  - intros [= <-]. exists [], r. repeat split; auto. intros ? [].
  - intros H. destruct (IH H) as (pre & post & -> & Hpre & Ht).
    exists (t :: pre), post. repeat split; auto.
    intros t' [<-|Hin]; auto.
Qed.

Lemma find_task_at (pre post : list obj) (task : obj) :
  (forall t, In t pre -> has_id taskId t = false) ->
  has_id taskId task = true ->
  find_task taskId (pre ++ task :: post) = Some task.
Proof.
  unfold find_task. intros Hpre Ht. induction pre as [|t r IH]; simpl.
  - now rewrite Ht.
  - rewrite (Hpre t (or_introl eq_refl)). apply IH. intros; apply Hpre; now right.
Qed.

Lemma assign_found_at (pre post : list obj) (task task' : obj) :
  (forall t, In t pre -> has_id taskId t = false) ->
  has_id taskId task = true ->
  assign_found taskId task' (pre ++ task :: post) = pre ++ task' :: post.
Proof.
  intros Hpre Ht. induction pre as [|t r IH]; simpl.
  - now rewrite Ht.
  - rewrite (Hpre t (or_introl eq_refl)). f_equal. apply IH.
    intros; apply Hpre; now right.
Qed.

End FirstMatch.

(** The test of [find] on a record is a test on the number in its [id]. *)
Lemma has_id_id_of (i : Z) (t : obj) : has_id i t = true <-> id_of t = Some i.
Proof.
  unfold has_id, id_of, strict_eq_num.
  destruct (getProp "id" t) as [[| |n| | |]|]; try (split; discriminate).
  rewrite Z.eqb_eq. split; congruence.
Qed.

Lemma has_id_false (i : Z) (t : obj) : has_id i t = false <-> id_of t <> Some i.
Proof.
  rewrite <- has_id_id_of. destruct (has_id i t); split; congruence.
Qed.

(** ** updateProgress *)

Lemma in_range_numeric (t : obj) : in_range t = true -> numeric t = true.
Proof.
  unfold in_range, numeric.
  destruct (getProp "current" t) as [[]|], (getProp "target" t) as [[]|];
    simpl; congruence.
Qed.

Lemma updateProgress_found (taskId change : Z) (iso : string) (st : state)
    (pre post : list obj) (task : obj) :
  tasks st = pre ++ task :: post ->
  (forall t, In t pre -> has_id taskId t = false) ->
  has_id taskId task = true ->
  updateProgress taskId change iso st =
  match progressed change iso task with
  | Some task' => Some (saveTasks (set_tasks (pre ++ task' :: post) st))
  | None => None
  end.
Proof.
  intros Hts Hpre Ht. unfold updateProgress, progressed.
  rewrite Hts, (find_task_at taskId pre post task Hpre Ht).
  destruct (getProp "current" task) as [[]|]; try reflexivity.
  destruct (getProp "target" task) as [[]|]; try reflexivity.
  now rewrite (assign_found_at taskId pre post task _ Hpre Ht).
Qed.

Lemma progressed_frame (change : Z) (iso : string) (task task' : obj) (k : string) :
  progressed change iso task = Some task' ->
  k <> "current" -> k <> "lastModified" ->
  getProp k task' = getProp k task.
Proof.
  unfold progressed.
  destruct (getProp "current" task) as [[]|]; try discriminate.
  destruct (getProp "target" task) as [[]|]; try discriminate.
  intros [= <-] H1 H2.
  rewrite !getProp_setProp_other; auto.
Qed.

Lemma progressed_has_id (change : Z) (iso : string) (task task' : obj) (i : Z) :
  progressed change iso task = Some task' -> has_id i task' = has_id i task.
Proof.
  intros H. unfold has_id.
  rewrite (progressed_frame change iso task task' "id" H); [reflexivity|discriminate|discriminate].
Qed.

Lemma progressed_current (change : Z) (iso : string) (task : obj) (c g : Z) :
  getProp "current" task = Some (VNum c) ->
  getProp "target" task = Some (VNum g) ->
  exists task',
    progressed change iso task = Some task'
    /\ getProp "current" task' = Some (VNum (Z.max 0 (Z.min (c + change) g)))
    /\ getProp "target" task' = Some (VNum g).
Proof.
  intros Hc Hg. unfold progressed. rewrite Hc, Hg.
  eexists. split; [reflexivity|]. split.
  - rewrite getProp_setProp_other by discriminate. apply getProp_setProp_same.
  - rewrite !getProp_setProp_other by discriminate. exact Hg.
Qed.

Lemma progressed_in_range (change : Z) (iso : string) (task : obj) :
  in_range task = true ->
  exists task', progressed change iso task = Some task' /\ in_range task' = true.
Proof.
  intros H. unfold in_range in H.
  destruct (getProp "current" task) as [[| |c| | |]|] eqn:Hc; try discriminate.
  destruct (getProp "target" task) as [[| |g| | |]|] eqn:Hg; try discriminate.
  destruct (progressed_current change iso task c g Hc Hg) as (task' & Hp & Hc' & Hg').
  exists task'. split; [exact Hp|].
  unfold in_range. rewrite Hc', Hg'.
  apply andb_true_iff in H as [H0 H1].
  apply Z.leb_le in H0, H1. apply andb_true_iff. split; apply Z.leb_le; lia.
Qed.

Lemma updateProgress_in_range (taskId change : Z) (iso : string) (st : state) :
  forallb in_range (tasks st) = true ->
  exists st',
    updateProgress taskId change iso st = Some st'
    /\ forallb in_range (tasks st') = true.
Proof.
  intros Hinv.
  destruct (find_task taskId (tasks st)) as [task|] eqn:Hf.
  - destruct (find_task_split taskId _ _ Hf) as (pre & post & Hts & Hpre & Ht).
    rewrite (updateProgress_found taskId change iso st pre post task Hts Hpre Ht).
    rewrite Hts, forallb_app in Hinv. simpl in Hinv.
    apply andb_true_iff in Hinv as [Hp Hinv].
    apply andb_true_iff in Hinv as [Htask Hpost].
    destruct (progressed_in_range change iso task Htask) as (task' & -> & Hr).
    eexists. split; [reflexivity|]. simpl.
    rewrite forallb_app. simpl. now rewrite Hp, Hr, Hpost.
  - exists st. unfold updateProgress. now rewrite Hf.
Qed.


Lemma progressed_numeric (change : Z) (iso : string) (task : obj) :
  numeric task = true -> exists task', progressed change iso task = Some task'.
Proof.
  unfold numeric, progressed.
  destruct (getProp "current" task) as [[]|]; simpl; try discriminate.
  destruct (getProp "target" task) as [[]|]; simpl; try discriminate.
  eauto.
Qed.

(** ** The store of objects *)

Section Store.

Lemma find_split {A : Type} (p : A -> bool) (l : list A) (a : A) :
  find p l = Some a ->
  exists pre post,
    l = pre ++ a :: post /\ (forall x, In x pre -> p x = false) /\ p a = true.
Proof.
  induction l as [|x r IH]; simpl; [discriminate|].
  destruct (p x) eqn:E.
  - intros [= <-]. exists [], r. repeat split; auto. intros ? [].
  - intros H. destruct (IH H) as (pre & post & -> & Hpre & Ha).
    exists (x :: pre), post. repeat split; auto.
    intros y [<-|Hy]; auto.
Qed.

Lemma has_id_allocated (taskId : Z) (h : list obj) (a : nat) :
  has_id taskId (Shared.deref h a) = true -> (a < List.length h)%nat.
Proof.
  unfold Shared.deref. intros H.
  destruct (Nat.lt_ge_cases a (List.length h)) as [Hlt|Hge]; [exact Hlt|].
  rewrite (nth_overflow h [] Hge) in H. discriminate H.
Qed.

Lemma length_write (a : nat) (o : obj) (h : list obj) :
  List.length (Shared.write a o h) = List.length h.
Proof.
  revert a. induction h as [|x r IH]; intros [|a]; simpl; auto.
Qed.

Lemma deref_write_same (a : nat) (o : obj) (h : list obj) :
  (a < List.length h)%nat -> Shared.deref (Shared.write a o h) a = o.
Proof.
  unfold Shared.deref. revert a. induction h as [|x r IH]; intros [|a] H; simpl in *;
    try lia; [reflexivity|]. apply IH. lia.
Qed.

Lemma deref_write_other (a b : nat) (o : obj) (h : list obj) :
  b <> a -> Shared.deref (Shared.write a o h) b = Shared.deref h b.
Proof.
  unfold Shared.deref. revert a b.
  induction h as [|x r IH]; intros [|a] [|b] H; simpl; try reflexivity;
    try congruence.
  apply IH. congruence.
Qed.

Lemma map_deref_write (a : nat) (o : obj) (h : list obj) (l : list nat) :
  ~ In a l -> map (Shared.deref (Shared.write a o h)) l = map (Shared.deref h) l.
Proof.
  intros Hn. apply map_ext_in. intros b Hb. apply deref_write_other.
  intros ->. contradiction.
Qed.

(** [find] returns the first address whose object has the id. *)
Lemma find_address_split (taskId : Z) (s : Shared.store) (a : nat) :
  Shared.find_task taskId s = Some a ->
  exists pre post,
    Shared.tasks s = pre ++ a :: post
    /\ (forall b, In b pre -> has_id taskId (Shared.deref (Shared.heap s) b) = false)
    /\ has_id taskId (Shared.deref (Shared.heap s) a) = true
    /\ ~ In a pre
    /\ (a < List.length (Shared.heap s))%nat.
Proof.
  unfold Shared.find_task. intros H.
  destruct (find_split _ _ _ H) as (pre & post & Hts & Hpre & Ha).
  exists pre, post. repeat split; auto.
  - intros Hin. rewrite (Hpre a Hin) in Ha. discriminate.
  - exact (has_id_allocated taskId _ _ Ha).
Qed.

Lemma find_address_at (taskId : Z) (s : Shared.store) (pre post : list nat) (a : nat) :
  Shared.tasks s = pre ++ a :: post ->
  (forall b, In b pre -> id_of (Shared.deref (Shared.heap s) b) <> Some taskId) ->
  id_of (Shared.deref (Shared.heap s) a) = Some taskId ->
  Shared.find_task taskId s = Some a.
Proof.
  unfold Shared.find_task. intros -> Hpre Ha.
  induction pre as [|b r IH]; simpl.
  - apply has_id_id_of in Ha. now rewrite Ha.
  - assert (Hb : has_id taskId (Shared.deref (Shared.heap s) b) = false)
      by (apply has_id_false; apply Hpre; now left).
    rewrite Hb. apply IH. intros; apply Hpre; now right.
Qed.

Lemma find_address_none (taskId : Z) (s : Shared.store) :
  Shared.find_task taskId s = None ->
  forall b, In b (Shared.tasks s) ->
            id_of (Shared.deref (Shared.heap s) b) <> Some taskId.
Proof.
  unfold Shared.find_task. intros H b Hb. apply has_id_false.
  exact (find_none _ _ H b Hb).
Qed.

(** The records after a write through the address found: every position
    that holds the address shows the object written. *)
Lemma records_write (a : nat) (o : obj) (s : Shared.store) :
  (a < List.length (Shared.heap s))%nat ->
  Shared.records (Shared.saveTasks (Shared.set_heap (Shared.write a o (Shared.heap s)) s))
  = map (fun b => if Nat.eqb b a then o else Shared.deref (Shared.heap s) b)
        (Shared.tasks s).
Proof.
  intros Ha. unfold Shared.records. simpl. apply map_ext. intros b.
  destruct (Nat.eqb b a) eqn:E.
  - apply Nat.eqb_eq in E. subst b. now apply deref_write_same.
  - apply Nat.eqb_neq in E. now apply deref_write_other.
Qed.

Lemma map_eqb_absent (a : nat) (o : obj) (h : list obj) (l : list nat) :
  ~ In a l ->
  map (fun b => if Nat.eqb b a then o else Shared.deref h b) l
  = map (Shared.deref h) l.
Proof.
  intros Hn. apply map_ext_in. intros b Hb.
  destruct (Nat.eqb b a) eqn:E; [|reflexivity].
  apply Nat.eqb_eq in E. subst b. contradiction.
Qed.

End Store.

(** C10, as stated, fails where one object sits at two positions of the
    array, as it does after the import of two records with one id and a drop:
    both cards carry the id, for both [find] returns the first object, and the
    array holds it twice.  [updateProgress] then writes to that one object, and
    two records of the sequence show the new [current]. *)
Lemma a_record_listed_twice_changes_twice :
  Shared.run twin_session Shared.empty = Some twice_listed_store
  /\ Shared.tasks twice_listed_store = [0; 0]%nat
  /\ map (getProp "current") (Shared.records twice_listed_store)
     = [Some (VNum 2); Some (VNum 2)]
  /\ option_map (fun s => map (getProp "current") (Shared.records s))
       (Shared.updateProgress 1 1 "t" twice_listed_store)
     = Some [Some (VNum 3); Some (VNum 3)]
  /\ option_map (fun s => map (getProp "lastModified") (Shared.records s))
       (Shared.updateProgress 1 1 "t" twice_listed_store)
     = Some [Some (VStr "t"); Some (VStr "t")].
Proof. repeat split. Qed.

(** C10, amended: [updateProgress] changes at most one object, the first one
    of the array whose [id] is the number given, and of that object only
    [current] and [lastModified]: its other properties, every other object,
    and the array itself, with its length and its order, stay.  Read by value,
    the array shows the change at the positions that hold this object: at
    exactly one position when the object sits nowhere else in the array.  (On
    records whose [current] and [target] are numbers the call is covered by
    the model.) *)
Theorem updateProgress_changes_one_record :
  forall (taskId change : Z) (iso : string) (s : Shared.store),
    (forallb numeric (Shared.records s) = true ->
     exists s', Shared.updateProgress taskId change iso s = Some s')
    /\ forall s',
      Shared.updateProgress taskId change iso s = Some s' ->
      Shared.tasks s' = Shared.tasks s
      /\ Shared.currentEditingTaskId s' = Shared.currentEditingTaskId s
      /\ (((forall b, In b (Shared.tasks s) ->
              id_of (Shared.deref (Shared.heap s) b) <> Some taskId)
           /\ s' = s)
          \/ exists pre a post,
              Shared.tasks s = pre ++ a :: post
              /\ (forall b, In b pre ->
                    id_of (Shared.deref (Shared.heap s) b) <> Some taskId)
              /\ id_of (Shared.deref (Shared.heap s) a) = Some taskId
              /\ (forall b, b <> a ->
                    Shared.deref (Shared.heap s') b = Shared.deref (Shared.heap s) b)
              /\ (forall k, k <> "current" -> k <> "lastModified" ->
                    getProp k (Shared.deref (Shared.heap s') a)
                    = getProp k (Shared.deref (Shared.heap s) a))
              /\ (~ In a post ->
                    Shared.records s'
                    = map (Shared.deref (Shared.heap s)) pre
                      ++ Shared.deref (Shared.heap s') a
                      :: map (Shared.deref (Shared.heap s)) post)).
Proof.
  intros taskId change iso s. split.
  - intros Hnum. unfold Shared.updateProgress.
    destruct (Shared.find_task taskId s) as [a|] eqn:Hf; [|eauto].
    destruct (find_address_split taskId s a Hf) as (pre & post & Hts & _).
    assert (Hin : In (Shared.deref (Shared.heap s) a) (Shared.records s)).
    { unfold Shared.records. apply in_map. rewrite Hts.
      apply in_or_app. right. now left. }
    rewrite forallb_forall in Hnum. specialize (Hnum _ Hin).
    unfold numeric in Hnum.
    destruct (getProp "current" (Shared.deref (Shared.heap s) a)) as [[]|];
      simpl in Hnum; try discriminate.
    destruct (getProp "target" (Shared.deref (Shared.heap s) a)) as [[]|];
      simpl in Hnum; try discriminate.
    eauto.
  - intros s' Hup. unfold Shared.updateProgress in Hup.
    destruct (Shared.find_task taskId s) as [a|] eqn:Hf.
    + destruct (find_address_split taskId s a Hf)
        as (pre & post & Hts & Hpre & Ha & Hnpre & Halloc).
      set (task := Shared.deref (Shared.heap s) a) in *.
      destruct (progressed change iso task) as [task'|] eqn:Hp.
      * unfold progressed in Hp.
        destruct (getProp "current" task) as [[| |c| | |]|]; try discriminate.
        destruct (getProp "target" task) as [[| |g| | |]|]; try discriminate.
        injection Hp as Hp. rewrite Hp in Hup. injection Hup as <-.
        split; [reflexivity|]. split; [reflexivity|]. right.
        exists pre, a, post. simpl.
        assert (Hsame : Shared.deref (Shared.write a task' (Shared.heap s)) a = task')
          by now apply deref_write_same.
        split; [exact Hts|]. split.
        { intros b Hb. apply has_id_false. now apply Hpre. }
        split; [now apply has_id_id_of|]. split.
        { intros b Hb. now apply deref_write_other. }
        split.
        { intros k H1 H2. rewrite Hsame, <- Hp.
          now rewrite !getProp_setProp_other by auto. }
        intros Hnpost.
        rewrite (records_write a task' s Halloc), Hts, map_app. simpl.
        rewrite Nat.eqb_refl, Hsame.
        now rewrite (map_eqb_absent a task' _ pre Hnpre),
                    (map_eqb_absent a task' _ post Hnpost).
      * unfold progressed in Hp.
        destruct (getProp "current" task) as [[| |c| | |]|]; try discriminate;
          try (destruct (getProp "target" task) as [[| |g| | |]|]; discriminate).
    + injection Hup as <-. split; [reflexivity|]. split; [reflexivity|]. left.
      split; [|reflexivity]. now apply find_address_none.
Qed.

(** C8: for an id that no record of the sequence has, [updateProgress] and
    [deleteTask] raise nothing and leave the whole state, the sequence
    included, as it is. *)
Theorem absent_id_is_noop :
  forall (taskId change : Z) (iso : string) (confirmed : bool) (st : state),
    (forall t, In t (tasks st) -> has_id taskId t = false) ->
    updateProgress taskId change iso st = Some st
    /\ deleteTask taskId confirmed st = st.
Proof.
  intros taskId change iso confirmed st Habs.
  apply find_task_none in Habs.
  unfold updateProgress, deleteTask. rewrite Habs.
  split; [reflexivity|]. now destruct confirmed.
Qed.

(** ** updateTask *)

Lemma updateTask_rejected (nameField currentField targetField iso : string) (st : state) :
  edit_rejected nameField currentField targetField ->
  updateTask nameField currentField targetField iso st = st.
Proof.
  intros Hrej. unfold edit_rejected in Hrej. unfold updateTask.
  destruct (currentEditingTaskId st) as [editing|]; [|reflexivity].
  destruct (find_task editing (tasks st)) as [task|]; [|reflexivity].
  destruct (parseInt currentField) as [c|] eqn:Hc;
    destruct (parseInt targetField) as [g|] eqn:Hg; try reflexivity.
  destruct Hrej as [H|[H|[H|[(g' & H & Hlt)|[(c' & H & Hlt)|(c' & g' & H & H' & Hlt)]]]]];
    try discriminate.
  - rewrite H. reflexivity.
  - injection H as <-. apply Z.ltb_lt in Hlt. rewrite Hlt.
    now rewrite orb_true_r.
  - injection H as <-. apply Z.ltb_lt in Hlt. rewrite Hlt.
    now rewrite !orb_true_r.
  - injection H as <-. injection H' as <-.
    assert (Hgt : (c >? g) = true) by (apply Z.gtb_lt; lia).
    rewrite Hgt. now rewrite !orb_true_r.
Qed.

Lemma updateTask_accepted (nameField currentField targetField iso : string)
    (st : state) (editing c g : Z) (pre post : list obj) (task : obj) :
  currentEditingTaskId st = Some editing ->
  tasks st = pre ++ task :: post ->
  (forall t, In t pre -> has_id editing t = false) ->
  has_id editing task = true ->
  trim nameField <> EmptyString ->
  parseInt currentField = Some c ->
  parseInt targetField = Some g ->
  1 <= g -> 0 <= c <= g ->
  updateTask nameField currentField targetField iso st =
  saveTasks (set_tasks (pre ++ edited (trim nameField) c g iso task :: post) st).
Proof.
  intros He Hts Hpre Ht Hn Hc Hg Hg1 Hcg. unfold updateTask.
  rewrite He, Hts, (find_task_at editing pre post task Hpre Ht), Hc, Hg.
  destruct (trim nameField) as [|a r] eqn:En; [congruence|]. simpl is_empty.
  assert (E1 : (g <? 1) = false) by (apply Z.ltb_ge; lia).
  assert (E2 : (c <? 0) = false) by (apply Z.ltb_ge; lia).
  assert (E3 : (c >? g) = false) by (rewrite Z.gtb_ltb; apply Z.ltb_ge; lia).
  rewrite E1, E2, E3. simpl.
  now rewrite (assign_found_at editing pre post task _ Hpre Ht).
Qed.

Lemma edit_accepted_fields (nameField currentField targetField : string) :
  ~ edit_rejected nameField currentField targetField ->
  exists c g,
    parseInt currentField = Some c /\ parseInt targetField = Some g
    /\ trim nameField <> EmptyString /\ 1 <= g /\ 0 <= c <= g.
Proof.
  unfold edit_rejected. intros Hok.
  destruct (parseInt currentField) as [c|]; [|tauto].
  destruct (parseInt targetField) as [g|]; [|tauto].
  exists c, g. repeat split; auto.
  - destruct (Z_lt_dec g 1); [|lia]. exfalso. apply Hok. eauto 10.
  - destruct (Z_lt_dec c 0); [|lia]. exfalso. apply Hok. eauto 10.
  - destruct (Z_gt_dec c g); [|lia]. exfalso. apply Hok.
    do 5 right. eauto.
Qed.

Lemma edited_props (newName : string) (c g : Z) (iso : string) (task : obj) :
  getProp "name" (edited newName c g iso task) = Some (VStr newName)
  /\ getProp "current" (edited newName c g iso task) = Some (VNum c)
  /\ getProp "target" (edited newName c g iso task) = Some (VNum g)
  /\ getProp "lastModified" (edited newName c g iso task) = Some (VStr iso)
  /\ (forall k, k <> "name" -> k <> "current" -> k <> "target" ->
                k <> "lastModified" ->
                getProp k (edited newName c g iso task) = getProp k task).
Proof.
  unfold edited. repeat split.
  - rewrite !getProp_setProp_other by discriminate. apply getProp_setProp_same.
  - rewrite !getProp_setProp_other by discriminate. apply getProp_setProp_same.
  - rewrite !getProp_setProp_other by discriminate. apply getProp_setProp_same.
  - apply getProp_setProp_same.
  - intros k H1 H2 H3 H4. rewrite !getProp_setProp_other; auto.
Qed.

(** *** The fields that are integers in decimal *)

Section IntegerTexts.

Lemma decimal_digit_no_space (c : ascii) :
  is_decimal_digit c = true -> is_space c = false.
Proof.
  destruct c as [[] [] [] [] [] [] [] []]; try discriminate; reflexivity.
Qed.

Lemma decimal_digit_val (c : ascii) :
  is_decimal_digit c = true -> digit_val 10 c = Some (code c - 48).
Proof.
  destruct c as [[] [] [] [] [] [] [] []]; try discriminate; reflexivity.
Qed.

Lemma decimal_digit_no_letter (c : ascii) :
  is_decimal_digit c = true ->
  (c =? "x")%char = false /\ (c =? "X")%char = false
  /\ (c =? "-")%char = false /\ (c =? "+")%char = false.
Proof.
  destruct c as [[] [] [] [] [] [] [] []]; try discriminate; repeat split.
Qed.

Lemma read_decimal_digits (digits : string) :
  decimal_digits digits = true ->
  forall acc, read_digits 10 acc digits = (decimal_value acc digits, EmptyString).
Proof.
  induction digits as [|c r IH]; intros H acc; [reflexivity|].
  simpl in H. apply andb_true_iff in H as [Hc Hr].
  simpl. rewrite (decimal_digit_val c Hc). apply IH, Hr.
Qed.

Lemma read_radix_decimal (digits : string) :
  decimal_digits digits = true -> read_radix digits = (10, digits).
Proof.
  destruct digits as [|c1 [|c2 r]]; try reflexivity.
  simpl. intros H.
  apply andb_true_iff in H as [_ H]. apply andb_true_iff in H as [H2 _].
  destruct (decimal_digit_no_letter c2 H2) as (E1 & E2 & _).
  rewrite E1, E2. now rewrite andb_false_r.
Qed.

(** A field that is an integer in decimal is read as that integer. *)
Lemma parseInt_integer_text (field : string) :
  integer_text field = true -> parseInt field = Some (integer_value field).
Proof.
  unfold integer_text, integer_value, parseInt. intros H.
  apply andb_true_iff in H as [Hne Hd].
  assert (Htrim : trimStart field = field).
  { destruct field as [|c r]; [reflexivity|]. simpl.
    unfold signed in Hne, Hd.
    destruct (c =? "-")%char eqn:E1.
    - apply Ascii.eqb_eq in E1. now subst c.
    - destruct (c =? "+")%char eqn:E2.
      + apply Ascii.eqb_eq in E2. now subst c.
      + simpl in Hd. apply andb_true_iff in Hd as [Hc _].
        now rewrite (decimal_digit_no_space c Hc). }
  rewrite Htrim.
  change (read_sign field) with (signed field).
  destruct (signed field) as [sign digits]. simpl in *.
  rewrite (read_radix_decimal digits Hd).
  destruct digits as [|c r]; [discriminate|].
  pose proof Hd as Hd'. simpl in Hd'. apply andb_true_iff in Hd' as [Hc _].
  unfold starts_with_digit. rewrite (decimal_digit_val c Hc).
  now rewrite (read_decimal_digits _ Hd 0).
Qed.

(** On two fields that are integers in decimal, the conditions of the
    specification are those that [updateTask] tests. *)
Lemma spec_edit_fails_on_integers (nameField currentField targetField : string) :
  integer_text currentField = true ->
  integer_text targetField = true ->
  (spec_edit_fails nameField currentField targetField
   <-> edit_rejected nameField currentField targetField).
Proof.
  intros Hc Hg. unfold spec_edit_fails, edit_rejected.
  rewrite (parseInt_integer_text _ Hc), (parseInt_integer_text _ Hg), Hc, Hg.
  split.
  - intros [H|[H|[H|[H|[H|H]]]]]; try discriminate; eauto 12.
  - intros [H|[H|[H|[(g & [= <-] & H)|[(c & [= <-] & H)|(c & g & [= <-] & [= <-] & H)]]]]];
      try discriminate; auto 10.
Qed.

End IntegerTexts.

(** *** updateTask on the store *)

Section StoreEdit.

Lemma store_updateTask_rejected (nameField currentField targetField iso : string)
    (s : Shared.store) :
  edit_rejected nameField currentField targetField ->
  Shared.updateTask nameField currentField targetField iso s = s.
Proof.
  intros Hrej. unfold edit_rejected in Hrej. unfold Shared.updateTask.
  destruct (Shared.currentEditingTaskId s) as [editing|]; [|reflexivity].
  destruct (Shared.find_task editing s) as [a|]; [|reflexivity].
  destruct (parseInt currentField) as [c|] eqn:Hc;
    destruct (parseInt targetField) as [g|] eqn:Hg; try reflexivity.
  destruct Hrej as [H|[H|[H|[(g' & H & Hlt)|[(c' & H & Hlt)|(c' & g' & H & H' & Hlt)]]]]];
    try discriminate.
  - rewrite H. reflexivity.
  - injection H as <-. apply Z.ltb_lt in Hlt. rewrite Hlt.
    now rewrite orb_true_r.
  - injection H as <-. apply Z.ltb_lt in Hlt. rewrite Hlt.
    now rewrite !orb_true_r.
  - injection H as <-. injection H' as <-.
    assert (Hgt : (c >? g) = true) by (apply Z.gtb_lt; lia).
    rewrite Hgt. now rewrite !orb_true_r.
Qed.

Lemma store_updateTask_accepted (nameField currentField targetField iso : string)
    (s : Shared.store) (editing c g : Z) (a : nat) :
  Shared.currentEditingTaskId s = Some editing ->
  Shared.find_task editing s = Some a ->
  trim nameField <> EmptyString ->
  parseInt currentField = Some c ->
  parseInt targetField = Some g ->
  1 <= g -> 0 <= c <= g ->
  Shared.updateTask nameField currentField targetField iso s =
  Shared.saveTasks
    (Shared.set_heap
       (Shared.write a (edited (trim nameField) c g iso (Shared.deref (Shared.heap s) a))
          (Shared.heap s)) s).
Proof.
  intros He Hf Hn Hc Hg Hg1 Hcg. unfold Shared.updateTask.
  rewrite He, Hf, Hc, Hg.
  destruct (trim nameField) as [|x r] eqn:En; [congruence|]. simpl is_empty.
  assert (E1 : (g <? 1) = false) by (apply Z.ltb_ge; lia).
  assert (E2 : (c <? 0) = false) by (apply Z.ltb_ge; lia).
  assert (E3 : (c >? g) = false) by (rewrite Z.gtb_ltb; apply Z.ltb_ge; lia).
  rewrite E1, E2, E3. reflexivity.
Qed.

End StoreEdit.

(** C2, as stated, fails on a field such as [2.5]: it is no valid integer,
    and the specification has the edit fail and change nothing; [updateTask]
    reads the integer 2 at its start and writes the three values. *)
Lemma edit_with_a_fraction_is_accepted :
  integer_text "2.5" = false
  /\ spec_edit_fails "Run" "2.5" "5"
  /\ map (getProp "current") (Shared.records editing_store)
     = [Some (VNum 3); Some (VNum 5)]
  /\ map (getProp "current")
       (Shared.records (Shared.updateTask "Run" "2.5" "5" "t" editing_store))
     = [Some (VNum 3); Some (VNum 2)]
  /\ Shared.updateTask "Run" "2.5" "5" "t" editing_store <> editing_store.
Proof.
  split; [reflexivity|]. split; [right; left; reflexivity|].
  split; [reflexivity|]. split; [reflexivity|]. discriminate.
Qed.

(** C2, amended: [updateTask] validates what [parseInt] reads before it
    writes.  With [current] and [target] the integers that [parseInt] reads at
    the start of the two fields: when the trimmed name is empty, or a field
    starts with no integer, or target < 1, or current < 0, or current >
    target, the whole state is what it was.  Otherwise, on the object being
    edited, the first of the array whose [id] is the number being edited,
    name, current and target become the trimmed name and the two integers and
    [lastModified] the new date; its other properties, every other object and
    the array stay.  On fields that are integers in decimal
    these conditions are those of the specification; a field that goes on after
    its integer is read as the integer.  (The integers read are safe
    integers.) *)
Theorem updateTask_validates_what_parseInt_reads :
  forall (nameField currentField targetField iso : string) (s : Shared.store),
    exact_field currentField = true ->
    exact_field targetField = true ->
    (edit_rejected nameField currentField targetField ->
     Shared.updateTask nameField currentField targetField iso s = s)
    /\ (forall (editing : Z) (pre post : list nat) (a : nat),
        ~ edit_rejected nameField currentField targetField ->
        Shared.currentEditingTaskId s = Some editing ->
        Shared.tasks s = pre ++ a :: post ->
        (forall b, In b pre ->
           id_of (Shared.deref (Shared.heap s) b) <> Some editing) ->
        id_of (Shared.deref (Shared.heap s) a) = Some editing ->
        exists c g s',
          parseInt currentField = Some c /\ parseInt targetField = Some g
          /\ 1 <= g /\ 0 <= c <= g
          /\ Shared.updateTask nameField currentField targetField iso s = s'
          /\ Shared.tasks s' = Shared.tasks s
          /\ Shared.currentEditingTaskId s' = Some editing
          /\ (forall b, b <> a ->
                Shared.deref (Shared.heap s') b = Shared.deref (Shared.heap s) b)
          /\ getProp "name" (Shared.deref (Shared.heap s') a)
             = Some (VStr (trim nameField))
          /\ getProp "current" (Shared.deref (Shared.heap s') a) = Some (VNum c)
          /\ getProp "target" (Shared.deref (Shared.heap s') a) = Some (VNum g)
          /\ getProp "lastModified" (Shared.deref (Shared.heap s') a)
             = Some (VStr iso)
          /\ (forall k, k <> "name" -> k <> "current" -> k <> "target" ->
                        k <> "lastModified" ->
                        getProp k (Shared.deref (Shared.heap s') a)
                        = getProp k (Shared.deref (Shared.heap s) a)))
    /\ (integer_text currentField = true ->
        integer_text targetField = true ->
        parseInt currentField = Some (integer_value currentField)
        /\ parseInt targetField = Some (integer_value targetField)
        /\ (spec_edit_fails nameField currentField targetField
            <-> edit_rejected nameField currentField targetField)).
Proof.
  intros nameField currentField targetField iso s _ _. split; [|split].
  - apply store_updateTask_rejected.
  - intros editing pre post a Hok He Hts Hpre Ha.
    pose proof (find_address_at editing s pre post a Hts Hpre Ha) as Hf.
    destruct (edit_accepted_fields _ _ _ Hok) as (c & g & Hc & Hg & Hn & Hg1 & Hcg).
    destruct (find_address_split editing s a Hf) as (_ & _ & _ & _ & _ & _ & Halloc).
    exists c, g. eexists. split; [exact Hc|]. split; [exact Hg|].
    split; [exact Hg1|]. split; [exact Hcg|].
    split; [exact (store_updateTask_accepted nameField currentField targetField iso s
                     editing c g a He Hf Hn Hc Hg Hg1 Hcg)|].
    cbn [Shared.saveTasks Shared.set_heap Shared.tasks Shared.heap
         Shared.currentEditingTaskId].
    rewrite (deref_write_same a _ (Shared.heap s) Halloc).
    destruct (edited_props (trim nameField) c g iso (Shared.deref (Shared.heap s) a))
      as (P1 & P2 & P3 & P4 & P5).
    repeat split; auto.
    intros b Hb. now apply deref_write_other.
  - intros Hc Hg. split; [now apply parseInt_integer_text|].
    split; [now apply parseInt_integer_text|].
    now apply spec_edit_fails_on_integers.
Qed.

(** ** addTask *)

Lemma new_task_rejected (nameField targetField : string) (now : Z)
    (createdIso modifiedIso : string) :
  create_rejected nameField targetField <->
  new_task nameField targetField now createdIso modifiedIso = None.
Proof.
  unfold create_rejected, new_task.
  destruct (parseInt targetField) as [g|].
  - destruct (trim nameField) as [|a r]; simpl.
    + tauto.
    + destruct (g =? 0) eqn:E0; simpl.
      * apply Z.eqb_eq in E0. split; [reflexivity|]. intros _.
        right; right. exists g. split; [reflexivity|lia].
      * destruct (g <? 1) eqn:E1.
        -- apply Z.ltb_lt in E1. split; [reflexivity|]. intros _.
           right; right. eauto.
        -- apply Z.ltb_ge in E1. split; [|discriminate].
           intros [H|[H|(g' & H & Hlt)]]; try discriminate.
           injection H as <-. lia.
  - tauto.
Qed.

Lemma new_task_accepted (nameField targetField : string) (now : Z)
    (createdIso modifiedIso : string) (newTask : obj) :
  new_task nameField targetField now createdIso modifiedIso = Some newTask ->
  exists g,
    parseInt targetField = Some g /\ 1 <= g
    /\ newTask = [("id", VNum now); ("name", VStr (trim nameField));
                  ("target", VNum g); ("current", VNum 0);
                  ("createdAt", VStr createdIso);
                  ("lastModified", VStr modifiedIso)].
Proof.
  unfold new_task. destruct (parseInt targetField) as [g|]; [|discriminate].
  destruct (is_empty (trim nameField)); simpl; [discriminate|].
  destruct (g =? 0); simpl; [discriminate|].
  destruct (g <? 1) eqn:E1; [discriminate|].
  apply Z.ltb_ge in E1. intros [= <-]. exists g. auto.
Qed.



(** ** handleFileImport *)

Lemma every_task_check_true (l : list value) :
  every_task_check l = Some true <->
  Forall (fun t => exists o, t = VObj o /\ importable o = true) l.
Proof.
  induction l as [|t r IH]; simpl.
  - split; auto.
  - split.
    + intros H. destruct t as [| | | | |o]; simpl in H; try discriminate.
      fold (importable o) in H.
      destruct (importable o) eqn:E; [|discriminate].
      constructor; [eauto|]. now apply IH.
    + intros H. inversion H as [|? ? (o & -> & Ho) Hr]; subst. simpl.
      fold (importable o). rewrite Ho. now apply IH.
Qed.

Lemma objects_of_records (l : list value) :
  Forall (fun t => exists o, t = VObj o /\ importable o = true) l ->
  map VObj (objects_of l) = l.
Proof.
  induction 1 as [|t r (o & -> & _) _ IH]; [reflexivity|].
  unfold objects_of in *. simpl. now rewrite IH.
Qed.

Lemma objects_of_map (ts : list obj) : objects_of (map VObj ts) = ts.
Proof.
  induction ts as [|t r IH]; [reflexivity|].
  unfold objects_of in *. simpl. now rewrite IH.
Qed.

Lemma import_parsed_acceptable (l : list value) (confirmed : bool) (st : state) :
  acceptable (VArr l) ->
  import_parsed (VArr l) confirmed st =
  if confirmed
  then (saveTasks (set_tasks (objects_of l) st), Imported (List.length l))
  else (st, Declined).
Proof.
  intros (l' & [= <-] & Hne & Hall).
  destruct l as [|t r]; [congruence|].
  unfold import_parsed.
  apply every_task_check_true in Hall. now rewrite Hall.
Qed.

Lemma import_parsed_unacceptable (v : value) (confirmed : bool) (st : state) :
  ~ acceptable v ->
  fst (import_parsed v confirmed st) = st
  /\ (snd (import_parsed v confirmed st) = InvalidFormat
      \/ snd (import_parsed v confirmed st) = NoTasksFound
      \/ snd (import_parsed v confirmed st) = ReadError).
Proof.
  intros Hno. destruct v as [| | | |l|]; simpl; auto.
  destruct l as [|t r]; simpl; auto.
  change (match task_check t with
          | Some true => every_task_check r
          | Some false => Some false
          | None => None
          end) with (every_task_check (t :: r)).
  destruct (every_task_check (t :: r)) as [[]|] eqn:E; simpl; auto.
  exfalso. apply Hno. exists (t :: r). split; [reflexivity|].
  split; [discriminate|]. now apply every_task_check_true.
Qed.

(** C4: the import accepts what was parsed exactly when it is a non-empty
    array of objects that each have a truthy [id], a truthy [name], a numeric
    [target] and a numeric [current].  Anything else, one failing record
    included, leaves the state as it is; a text that does not parse does too.
    An accepted and confirmed list becomes the sequence as it stands, with no
    check of [current <= target]: a record with [current] 8 and [target] 5 is
    accepted. *)
Theorem import_is_all_or_nothing :
  forall (v : value) (confirmed : bool) (st : state),
    (acceptable v <-> exists n, snd (import_parsed v true st) = Imported n)
    /\ (~ acceptable v ->
        fst (import_parsed v confirmed st) = st
        /\ forall n, snd (import_parsed v confirmed st) <> Imported n)
    /\ (forall l, v = VArr l -> acceptable v ->
        map VObj (tasks (fst (import_parsed v true st))) = l
        /\ snd (import_parsed v true st) = Imported (List.length l)
        /\ import_parsed v false st = (st, Declined))
    /\ (forall text, JSON_parse text = None ->
        handleFileImport text confirmed st = (st, ReadError))
    /\ (forall text, JSON_parse text = Some v ->
        handleFileImport text confirmed st = import_parsed v confirmed st)
    /\ (acceptable (VArr [VObj over_target_task])
        /\ getProp "current" over_target_task = Some (VNum 8)
        /\ getProp "target" over_target_task = Some (VNum 5)).
Proof.
  intros v confirmed st.
  assert (Hdec : acceptable v \/ ~ acceptable v).
  { destruct v as [| | | |l|];
      try (right; intros (l' & H & _); discriminate).
    destruct l as [|t r].
    - right. intros (l' & [= <-] & H & _). congruence.
    - destruct (every_task_check (t :: r)) as [[]|] eqn:E.
      + left. exists (t :: r). split; [reflexivity|]. split; [discriminate|].
        now apply every_task_check_true.
      + right. intros (l' & [= <-] & _ & H).
        apply every_task_check_true in H. congruence.
      + right. intros (l' & [= <-] & _ & H).
        apply every_task_check_true in H. congruence. }
  repeat split.
  - intros Hacc. pose proof Hacc as (l & -> & _).
    rewrite (import_parsed_acceptable l true st Hacc). simpl. eauto.
  - intros (n & Hn). destruct Hdec as [H|H]; [exact H|].
    destruct (import_parsed_unacceptable v true st H) as (_ & [E|[E|E]]);
      rewrite E in Hn; discriminate.
  - now apply import_parsed_unacceptable.
  - intros n Hn.
    destruct (import_parsed_unacceptable v confirmed st H) as (_ & [E|[E|E]]);
      rewrite E in Hn; discriminate.
  - subst v. rewrite (import_parsed_acceptable l true st H0). simpl.
    destruct H0 as (l' & [= <-] & _ & Hall). now apply objects_of_records.
  - subst v. now rewrite (import_parsed_acceptable l true st H0).
  - subst v. now rewrite (import_parsed_acceptable l false st H0).
  - intros text Hp. unfold handleFileImport. now rewrite Hp.
  - intros text Hp. unfold handleFileImport. now rewrite Hp.
  - exists [VObj over_target_task]. split; [reflexivity|]. split; [discriminate|].
    repeat constructor. exists over_target_task. split; reflexivity.
Qed.

(** ** Numbers as text *)

Section Digits.

Lemma digit_cases (d : Z) :
  0 <= d <= 9 ->
  d = 0 \/ d = 1 \/ d = 2 \/ d = 3 \/ d = 4 \/ d = 5 \/ d = 6 \/ d = 7 \/ d = 8 \/ d = 9.
Proof. lia. Qed.

Ltac each_digit d H :=
  destruct (digit_cases d H) as [->|[->|[->|[->|[->|[->|[->|[->|[->| ->]]]]]]]]].

Lemma digit_val_digit_char (d : Z) :
  0 <= d <= 9 -> digit_val 10 (digit_char d) = Some d.
Proof. intros H. each_digit d H; reflexivity. Qed.

Lemma digit_char_plain (d : Z) :
  0 <= d <= 9 ->
  is_space (digit_char d) = false
  /\ (digit_char d =? "-")%char = false
  /\ (digit_char d =? "+")%char = false
  /\ is_json_ws (digit_char d) = false.
Proof. intros H. each_digit d H; repeat split; reflexivity. Qed.

Lemma digit_char_nonzero (d : Z) :
  1 <= d <= 9 -> (digit_char d =? "0")%char = false.
Proof.
  intros H. assert (H' : 0 <= d <= 9) by lia.
  each_digit d H'; try reflexivity; lia.
Qed.

Lemma digits_acc_app (fuel : nat) (n : Z) (acc rest : string) :
  (digits_acc fuel n acc ++ rest)%string = digits_acc fuel n (acc ++ rest)%string.
Proof.
  revert n acc. induction fuel as [|f IH]; intros n acc; simpl; [reflexivity|].
  destruct (n <? 10); [reflexivity|]. now rewrite IH.
Qed.

(** Reading back the digits that were written. *)
Lemma read_digits_acc (fuel : nat) :
  forall (n a : Z) (acc : string),
    0 <= n < 10 ^ (Z.of_nat fuel + 1) ->
    exists k, 0 <= k
      /\ read_digits 10 a (digits_acc fuel n acc) = read_digits 10 (a * 10 ^ k + n) acc.
Proof.
  assert (Hlast : forall n a acc, 0 <= n < 10 ->
             read_digits 10 a (String (digit_char (n mod 10)) acc)
             = read_digits 10 (a * 10 + n) acc).
  { intros n a acc Hn. rewrite Z.mod_small by lia. simpl read_digits.
    now rewrite digit_val_digit_char by lia. }
  induction fuel as [|f IH]; intros n a acc Hn.
  - exists 1. split; [lia|]. rewrite Z.pow_1_r. simpl digits_acc.
    apply Hlast. simpl in Hn. lia.
  - simpl digits_acc. destruct (n <? 10) eqn:E.
    + apply Z.ltb_lt in E. exists 1. split; [lia|]. rewrite Z.pow_1_r.
      apply Hlast. lia.
    + apply Z.ltb_ge in E.
      assert (Hq : 0 <= n / 10 < 10 ^ (Z.of_nat f + 1)).
      { split; [apply Z.div_pos; lia|].
        apply Z.div_lt_upper_bound; [lia|].
        replace (Z.of_nat (S f) + 1) with (Z.succ (Z.of_nat f + 1)) in Hn by lia.
        rewrite Z.pow_succ_r in Hn by lia. lia. }
      destruct (IH (n / 10) a (String (digit_char (n mod 10)) acc) Hq) as (k & Hk & ->).
      exists (k + 1). split; [lia|]. simpl read_digits.
      rewrite digit_val_digit_char by (pose proof (Z.mod_pos_bound n 10); lia).
      f_equal. rewrite Z.pow_add_r, Z.pow_1_r by lia.
      pose proof (Z.div_mod n 10). lia.
Qed.

(** The first digit written for a positive number is not a zero. *)
Lemma digits_acc_head (fuel : nat) :
  forall (n : Z) (acc : string),
    1 <= n < 10 ^ (Z.of_nat fuel + 1) ->
    exists d r, 1 <= d <= 9 /\ digits_acc fuel n acc = String (digit_char d) r.
Proof.
  induction fuel as [|f IH]; intros n acc Hn.
  - simpl in *. exists n, acc. rewrite Z.mod_small by lia. split; [lia|reflexivity].
  - simpl digits_acc. destruct (n <? 10) eqn:E.
    + apply Z.ltb_lt in E. exists n, acc. rewrite Z.mod_small by lia.
      split; [lia|reflexivity].
    + apply Z.ltb_ge in E. apply IH. split.
      * apply Z.div_le_lower_bound; lia.
      * apply Z.div_lt_upper_bound; [lia|].
        replace (Z.of_nat (S f) + 1) with (Z.succ (Z.of_nat f + 1)) in Hn by lia.
        rewrite Z.pow_succ_r in Hn by lia. lia.
Qed.

Lemma size_nat_bound (p : positive) :
  Zpos p < 10 ^ (Z.of_nat (Pos.size_nat p) + 1).
Proof.
  assert (H2 : Zpos p < 2 ^ Z.of_nat (Pos.size_nat p)).
  { induction p as [p IH|p IH|]; simpl Pos.size_nat.
    - rewrite Nat2Z.inj_succ, Z.pow_succ_r by lia. lia.
    - rewrite Nat2Z.inj_succ, Z.pow_succ_r by lia. lia.
    - simpl. lia. }
  assert (H10 : 2 ^ Z.of_nat (Pos.size_nat p) <= 10 ^ Z.of_nat (Pos.size_nat p))
    by (apply Z.pow_le_mono_l; lia).
  rewrite Z.pow_add_r, Z.pow_1_r by lia.
  assert (0 < 10 ^ Z.of_nat (Pos.size_nat p)) by (apply Z.pow_pos_nonneg; lia).
  lia.
Qed.

(** The text of a positive number, followed by [rest]: it starts with a
    digit from 1 to 9 and reads back as the number. *)
Lemma positive_text (p : positive) (rest : string) :
  exists d r,
    1 <= d <= 9
    /\ (digits_acc (Pos.size_nat p) (Zpos p) EmptyString ++ rest)%string
       = String (digit_char d) r
    /\ read_digits 10 0 (String (digit_char d) r) = read_digits 10 (Zpos p) rest.
Proof.
  pose proof (size_nat_bound p) as Hb.
  rewrite digits_acc_app. simpl append.
  destruct (digits_acc_head (Pos.size_nat p) (Zpos p) rest) as (d & r & Hd & E); [lia|].
  exists d, r. split; [exact Hd|]. split; [exact E|].
  rewrite <- E.
  destruct (read_digits_acc (Pos.size_nat p) (Zpos p) 0 rest) as (k & _ & ->); [lia|].
  f_equal.
Qed.

Lemma read_digits_stop (radix n : Z) (rest : string) :
  starts_with_digit radix rest = false -> read_digits radix n rest = (n, rest).
Proof.
  destruct rest as [|c r]; simpl; [reflexivity|].
  destruct (digit_val radix c); [discriminate|reflexivity].
Qed.

Lemma starts_with_digit_char (d : Z) (r : string) :
  0 <= d <= 9 -> starts_with_digit 10 (String (digit_char d) r) = true.
Proof. intros H. simpl. now rewrite digit_val_digit_char. Qed.

Lemma append_empty_r (s : string) : (s ++ EmptyString)%string = s.
Proof. induction s; simpl; congruence. Qed.

Lemma read_radix_digit (d : Z) (r : string) :
  1 <= d <= 9 ->
  read_radix (String (digit_char d) r) = (10, String (digit_char d) r).
Proof.
  intros Hd. unfold read_radix. destruct r; [reflexivity|].
  now rewrite (digit_char_nonzero d Hd).
Qed.

Lemma read_sign_digit (d : Z) (r : string) :
  0 <= d <= 9 ->
  read_sign (String (digit_char d) r) = (1, String (digit_char d) r).
Proof.
  intros Hd. unfold read_sign.
  destruct (digit_char_plain d Hd) as (_ & M & P & _). now rewrite M, P.
Qed.

Lemma trimStart_digit (d : Z) (r : string) :
  0 <= d <= 9 ->
  trimStart (String (digit_char d) r) = String (digit_char d) r.
Proof.
  intros Hd. simpl. destruct (digit_char_plain d Hd) as (W & _). now rewrite W.
Qed.

Lemma parseInt_unsigned (d : Z) (r : string) :
  1 <= d <= 9 ->
  parseInt (String (digit_char d) r)
  = Some (1 * fst (read_digits 10 0 (String (digit_char d) r))).
Proof.
  intros Hd. unfold parseInt.
  rewrite trimStart_digit, read_sign_digit, (read_radix_digit d r Hd) by lia.
  now rewrite starts_with_digit_char by lia.
Qed.

Lemma parseInt_negative (d : Z) (r : string) :
  1 <= d <= 9 ->
  parseInt (String "-" (String (digit_char d) r))
  = Some (-1 * fst (read_digits 10 0 (String (digit_char d) r))).
Proof.
  intros Hd. unfold parseInt.
  change (trimStart (String "-" (String (digit_char d) r)))
    with (String "-" (String (digit_char d) r)).
  change (read_sign (String "-" (String (digit_char d) r)))
    with (-1, String (digit_char d) r).
  cbv beta iota. rewrite (read_radix_digit d r Hd).
  now rewrite starts_with_digit_char by lia.
Qed.

(** [parseInt] reads back what [Number::toString] wrote. *)
Lemma parseInt_string_of_Z (z : Z) : parseInt (string_of_Z z) = Some z.
Proof.
  destruct z as [|p|p]; [reflexivity| |];
    unfold string_of_Z;
    destruct (positive_text p EmptyString) as (d & r & Hd & E & Hr);
    rewrite append_empty_r in E; rewrite E.
  - now rewrite (parseInt_unsigned d r Hd), Hr.
  - now rewrite (parseInt_negative d r Hd), Hr.
Qed.

End Digits.

(** ** Reordering *)

Lemma card_task_id_card_id (taskId : Z) : card_task_id (card_id taskId) = Some taskId.
Proof.
  unfold card_task_id, card_id.
  change (remove_first "task-" ("task-" ++ string_of_Z taskId)%string)
    with (string_of_Z taskId).
  apply parseInt_string_of_Z.
Qed.


Lemma has_id_in_numeric_ids (i : Z) (t : obj) (ts : list obj) :
  In t ts -> has_id i t = true -> In i (numeric_ids ts).
Proof.
  intros Hin Hid. apply has_id_id_of in Hid. unfold numeric_ids.
  apply in_flat_map. exists t. split; [exact Hin|]. rewrite Hid. now left.
Qed.

(** With unique ids, the first record with an id is the only one. *)
Lemma filter_has_id_unique (i : Z) (ts : list obj) :
  NoDup (numeric_ids ts) ->
  filter (has_id i) ts = option_list (find_task i ts).
Proof.
  unfold find_task. induction ts as [|t r IH]; intros Hnd; [reflexivity|].
  simpl. destruct (has_id i t) eqn:E.
  - simpl. f_equal.
    assert (Hi : id_of t = Some i) by now apply has_id_id_of.
    unfold numeric_ids in Hnd. simpl in Hnd. rewrite Hi in Hnd. simpl in Hnd.
    inversion Hnd as [|? ? Hnotin _]; subst.
    clear -Hnotin. induction r as [|t' r IH]; [reflexivity|].
    simpl. destruct (has_id i t') eqn:E'.
    + exfalso. apply Hnotin.
      apply (has_id_in_numeric_ids i t' (t' :: r)); [now left|exact E'].
    + apply IH. intros Hin. apply Hnotin.
      unfold numeric_ids in *. simpl. apply in_or_app. now right.
  - apply IH. unfold numeric_ids in *. simpl in Hnd.
    destruct (id_of t); simpl in Hnd; [now inversion Hnd|exact Hnd].
Qed.

Lemma reorder_tasks (ids : list Z) (st : state) :
  tasks (reorder ids st)
  = flat_map (fun i => option_list (find_task i (tasks st))) ids.
Proof.
  unfold reorder, onEnd. simpl. induction ids as [|i r IH]; [reflexivity|].
  simpl. rewrite card_task_id_card_id, IH. reflexivity.
Qed.

Lemma numeric_ids_in (i : Z) (ts : list obj) :
  In i (numeric_ids ts) -> exists t, In t ts /\ id_of t = Some i.
Proof.
  unfold numeric_ids. intros H. apply in_flat_map in H as (t & Hin & Hi).
  exists t. split; [exact Hin|]. destruct (id_of t) as [j|]; [|contradiction].
  destruct Hi as [->|[]]. reflexivity.
Qed.


Lemma find_task_id_of (i : Z) (ts : list obj) (t : obj) :
  find_task i ts = Some t -> In t ts /\ id_of t = Some i.
Proof.
  intros H. apply find_some in H as [Hin Hid]. split; [exact Hin|].
  now apply has_id_id_of.
Qed.

(** An id is that of some record exactly when [find] finds one. *)
Lemma present_find_task (i : Z) (ts : list obj) :
  existsb (Z.eqb i) (numeric_ids ts) = true <-> exists t, find_task i ts = Some t.
Proof.
  split.
  - intros H. apply existsb_exists in H as (j & Hj & E).
    apply Z.eqb_eq in E. subst j.
    destruct (numeric_ids_in i ts Hj) as (t & Hin & Hid).
    destruct (find_task i ts) as [t'|] eqn:Hf; [eauto|].
    rewrite find_task_none in Hf. apply has_id_id_of in Hid.
    rewrite (Hf t Hin) in Hid. discriminate.
  - intros (t & Hf). apply find_task_id_of in Hf as [Hin Hid].
    apply existsb_exists. exists i. split; [|apply Z.eqb_refl].
    apply (has_id_in_numeric_ids i t ts Hin). now apply has_id_id_of.
Qed.

(** C6, as stated, fails on a sequence in which two records have one id: for
    each id of the list, [find] returns the first record that has it, so the
    second record with a listed id is not in the result, and over the cards of
    all three records the first one comes twice. *)
Lemma a_repeated_id_keeps_the_first_record_only :
  In twin_b (tasks repeated_id_state)
  /\ id_of twin_b = Some 1
  /\ tasks (reorder [1] repeated_id_state) = [twin_a]
  /\ ~ In twin_b (tasks (reorder [1] repeated_id_state))
  /\ numeric_ids (tasks repeated_id_state) = [1; 1; 1730512345678]
  /\ tasks (reorder [1; 1; 1730512345678] repeated_id_state)
     = [twin_a; twin_a; sample_task].
Proof.
  split; [right; left; reflexivity|]. split; [reflexivity|].
  split; [reflexivity|]. split.
  - intros [H|[]]. discriminate H.
  - split; reflexivity.
Qed.

(** C6, amended: [reorder] gives, for each id of the list in turn, the first
    record of the sequence that has it: the ids of the result are the ids of
    the list that some record has, in the order of the list, and each of its
    records is the first record with its id; an id that no record has
    contributes nothing and raises nothing.  On a sequence without duplicate
    ids a record is in the result exactly when its id is in the list, so the
    records whose id the list omits are dropped.  (The ids of the list are safe
    integers, as the readings of [Date.now()] are: the card of such an id
    carries its decimal digits.) *)
Theorem reorder_keeps_listed_records :
  forall (ids : list Z) (st : state),
    Forall (fun i => safe_integer i = true) ids ->
    map id_of (tasks (reorder ids st))
    = map Some (filter (fun i => existsb (Z.eqb i) (numeric_ids (tasks st))) ids)
    /\ (forall t, In t (tasks (reorder ids st)) ->
        exists i pre post,
          In i ids /\ tasks st = pre ++ t :: post /\ id_of t = Some i
          /\ forall u, In u pre -> id_of u <> Some i)
    /\ (NoDup (numeric_ids (tasks st)) ->
        forall t, In t (tasks (reorder ids st)) <->
                  In t (tasks st) /\ exists i, In i ids /\ id_of t = Some i)
    /\ (forall ids1 ids2 i,
        ids = ids1 ++ i :: ids2 ->
        ~ In i (numeric_ids (tasks st)) ->
        tasks (reorder ids st) = tasks (reorder (ids1 ++ ids2) st)).
Proof.
  intros ids st _.
  assert (Hin : forall t, In t (tasks (reorder ids st)) ->
                 exists i pre post,
                   In i ids /\ tasks st = pre ++ t :: post /\ id_of t = Some i
                   /\ forall u, In u pre -> id_of u <> Some i).
  { intros t Ht. rewrite reorder_tasks in Ht.
    apply in_flat_map in Ht as (i & Hi & Ht).
    destruct (find_task i (tasks st)) as [t'|] eqn:Hf; [|contradiction].
    destruct Ht as [<-|[]].
    destruct (find_task_split i _ _ Hf) as (pre & post & Hts & Hpre & Hid).
    exists i, pre, post. split; [exact Hi|]. split; [exact Hts|].
    split; [now apply has_id_id_of|].
    intros u Hu. apply has_id_false. now apply Hpre. }
  split; [|split; [|split]].
  - rewrite reorder_tasks. clear Hin.
    induction ids as [|i r IH]; [reflexivity|]. simpl.
    rewrite map_app, IH. clear IH.
    destruct (find_task i (tasks st)) as [t|] eqn:Hf.
    + assert (Hp : existsb (Z.eqb i) (numeric_ids (tasks st)) = true)
        by (apply present_find_task; eauto).
      rewrite Hp. simpl. apply find_task_id_of in Hf as [_ ->]. reflexivity.
    + destruct (existsb (Z.eqb i) (numeric_ids (tasks st))) eqn:Hp; [|reflexivity].
      apply present_find_task in Hp as (t & Ht). congruence.
  - exact Hin.
  - intros Hnd t. split.
    + intros Ht. destruct (Hin t Ht) as (i & pre & post & Hi & Hts & Hid & _).
      split; [|eauto]. rewrite Hts. apply in_or_app. right. now left.
    + intros (Ht & i & Hi & Hid). rewrite reorder_tasks.
      apply in_flat_map. exists i. split; [exact Hi|].
      rewrite <- (filter_has_id_unique i (tasks st) Hnd).
      apply filter_In. split; [exact Ht|]. now apply has_id_id_of.
  - intros ids1 ids2 i -> Habs. rewrite !reorder_tasks, !flat_map_app. simpl.
    assert (Hf : find_task i (tasks st) = None).
    { apply find_task_none. intros t Ht.
      destruct (has_id i t) eqn:E; [|reflexivity].
      exfalso. apply Habs. exact (has_id_in_numeric_ids i t _ Ht E). }
    now rewrite Hf.
Qed.
(** ** Ids issued during a session *)

Lemma created_inv (g : gesture) (t : obj) :
  created g = Some t ->
  exists n tf now c m,
    g = GAdd n tf now c m /\ id_of t = Some now
    /\ new_task n tf now c m = Some t.
Proof.
  destruct g as [n tf now c m| | | | | | |]; simpl; try discriminate.
  intros H. exists n, tf, now, c, m. split; [reflexivity|]. split; [|exact H].
  destruct (new_task_accepted _ _ _ _ _ _ H) as (g & _ & _ & ->). reflexivity.
Qed.

(** The ids issued are the clock readings of the creations. *)
Lemma issued_ids_clock (gs : list gesture) : issued_ids gs = creation_clock gs.
Proof.
  unfold issued_ids, creation_clock.
  induction gs as [|g r IH]; [reflexivity|]. simpl. rewrite IH. f_equal.
  destruct (created g) as [t|] eqn:E.
  - destruct (created_inv g t E) as (n & tf & now & c & m & -> & Hid & _).
    now rewrite Hid.
  - now destruct g.
Qed.

Lemma issued_ids_app (gs1 gs2 : list gesture) :
  issued_ids (gs1 ++ gs2) = issued_ids gs1 ++ issued_ids gs2.
Proof. unfold issued_ids. apply flat_map_app. Qed.

Lemma sorted_before (l1 l2 : list Z) (x : Z) :
  StronglySorted Z.lt (l1 ++ x :: l2) -> forall y, In y l1 -> y < x.
Proof.
  induction l1 as [|a r IH]; simpl; intros Hs y Hy; [contradiction|].
  inversion Hs as [|? ? Hr Hall]; subst. destruct Hy as [<-|Hy].
  - rewrite Forall_forall in Hall. apply Hall. apply in_or_app. right. now left.
  - now apply IH.
Qed.

Lemma addTask_created (n tf : string) (now : Z) (c m : string) (t : obj) (st : state) :
  new_task n tf now c m = Some t ->
  tasks (addTask n tf now c m st) = tasks st ++ [t].
Proof. intros H. unfold addTask. now rewrite H. Qed.

(** C7, as stated, fails when the clock reads the same at two creations (its
    unit is the millisecond, and nothing in [addTask] waits for the next one or
    looks at the ids in use).  Both records get the same id; and after a
    creation and the deletion of its record, a creation at the same reading
    issues the deleted id again. *)
Lemma a_creation_at_the_same_reading_repeats_the_id :
  issued_ids same_reading_session = [1730512345678; 1730512345678]
  /\ ~ StronglySorted Z.lt (issued_ids same_reading_session)
  /\ option_map (fun st => map id_of (tasks st)) (run same_reading_session empty_state)
     = Some [Some 1730512345678; Some 1730512345678]
  /\ issued_ids reuse_session = [1730512345678; 1730512345678]
  /\ option_map (fun st => map id_of (tasks st)) (run reuse_session empty_state)
     = Some [Some 1730512345678]
  /\ option_map (fun st => map (getProp "name") (tasks st)) (run reuse_session empty_state)
     = Some [Some (VStr "Run")].
Proof.
  split; [reflexivity|]. split.
  - intros H. change (issued_ids same_reading_session)
      with [1730512345678; 1730512345678] in H.
    inversion H as [|? ? _ Hall]; subst.
    inversion Hall as [|? ? Hlt _]; subst. lia.
  - repeat split.
Qed.

(** C7, amended: the id that [addTask] issues is the reading of [Date.now()]
    at the creation, whatever the state, and it is the id that the appended
    record carries.  So the ids issued in a session are the clock readings of
    its creations, and they strictly increase exactly when these readings do.
    When they do, every id issued is greater than every id issued before,
    whatever happens in between, and a creation that follows a deletion does
    not reuse the id of a deleted record that was issued in the session. *)
Theorem issued_ids_are_the_clock_readings :
  forall gs : list gesture,
    issued_ids gs = creation_clock gs
    /\ (forall n tf now c m t,
          created (GAdd n tf now c m) = Some t ->
          id_of t = Some now
          /\ forall st, tasks (addTask n tf now c m st) = tasks st ++ [t])
    /\ (StronglySorted Z.lt (issued_ids gs) <-> StronglySorted Z.lt (creation_clock gs))
    /\ (StronglySorted Z.lt (creation_clock gs) ->
        (forall pre g post t i,
            gs = pre ++ g :: post -> created g = Some t -> In i (issued_ids pre) ->
            exists now, id_of t = Some now /\ i < now)
        /\ (forall pre taskId confirmed g post t,
            gs = pre ++ GDelete taskId confirmed :: g :: post ->
            created g = Some t -> In taskId (issued_ids pre) ->
            has_id taskId t = false)).
Proof.
  intros gs. split; [apply issued_ids_clock|]. split; [|split].
  - intros n tf now c m t Hc.
    destruct (created_inv _ t Hc) as (n' & tf' & now' & c' & m' & [= <- <- <- <- <-] & Hid & Hnew).
    split; [exact Hid|]. intros st. now apply addTask_created.
  - now rewrite issued_ids_clock.
  - intros Hclock. rewrite <- issued_ids_clock in Hclock.
    assert (Hlater : forall pre g post t i,
               gs = pre ++ g :: post -> created g = Some t -> In i (issued_ids pre) ->
               exists now, id_of t = Some now /\ i < now).
    { intros pre g post t i -> Hc Hi.
      destruct (created_inv g t Hc) as (n & tf & now & c & m & -> & Hid & Hnew).
      exists now. split; [exact Hid|].
      rewrite issued_ids_app in Hclock.
      change (issued_ids (GAdd n tf now c m :: post))
        with ((match created (GAdd n tf now c m) with
               | Some t => option_list (id_of t)
               | None => []
               end) ++ issued_ids post) in Hclock.
      rewrite Hc, Hid in Hclock. simpl in Hclock.
      exact (sorted_before _ _ _ Hclock i Hi). }
    split; [exact Hlater|].
    intros pre taskId confirmed g post t -> Hc Hi.
    destruct (Hlater (pre ++ [GDelete taskId confirmed]) g post t taskId) as (now & Hid & Hlt).
    + now rewrite <- app_assoc.
    + exact Hc.
    + rewrite issued_ids_app. apply in_or_app. now left.
    + destruct (has_id taskId t) eqn:E; [|reflexivity].
      apply has_id_id_of in E. rewrite E in Hid. injection Hid as ->. lia.
Qed.
(** ** Start of the script *)

Lemma loadTasks_recovers (savedTasks : string) (current : value) :
  is_empty savedTasks = false ->
  JSON_parse savedTasks = None ->
  loadTasks (Some savedTasks) current = VArr [].
Proof. intros Hne Hp. unfold loadTasks. now rewrite Hne, Hp. Qed.

Lemma script_start_aborts (savedTasks : string) :
  JSON_parse savedTasks = None -> script_start (Some savedTasks) = None.
Proof. intros Hp. unfold script_start, initial_tasks. now rewrite Hp. Qed.

(** C9: with nothing stored, the script starts with an empty sequence; and
    [loadTasks] itself turns a stored text that does not parse into the empty
    sequence.  But a stored text that does not parse never reaches
    [loadTasks]: the initialiser of [tasks] on line 4 parses the same text
    outside any [try], and the script is aborted there. *)
Theorem unparsable_snapshot_aborts_the_script :
  script_start None = Some (VArr [])
  /\ JSON_parse "{" = None
  /\ (forall current, loadTasks (Some "{") current = VArr [])
  /\ initial_tasks (Some "{") = None
  /\ script_start (Some "{") = None.
Proof.
  split; [reflexivity|]. split; [reflexivity|].
  split; [intros current; reflexivity|].
  split; [reflexivity|].
  exact (script_start_aborts "{" eq_refl).
Qed.

(** ** JSON text round trip

    *** Strings *)

Section JsonStrings.

Lemma append_assoc (a b c : string) : ((a ++ b) ++ c = a ++ (b ++ c))%string.
Proof. induction a; simpl; congruence. Qed.

Lemma length_append (a b : string) :
  String.length (a ++ b) = (String.length a + String.length b)%nat.
Proof. induction a; simpl; congruence. Qed.

(** One escaped character reads back as the character. *)
Lemma parse_chars_escape_char (c : ascii) (body : string) :
  parse_chars (escape_char c ++ body)
  = match parse_chars body with
    | Some (str, rest) => Some (String c str, rest)
    | None => None
    end.
Proof.
  destruct c as [b0 b1 b2 b3 b4 b5 b6 b7].
  destruct b0, b1, b2, b3, b4, b5, b6, b7; reflexivity.
Qed.

Lemma parse_chars_escape_chars (s rest : string) :
  parse_chars (escape_chars s ++ String dquote rest) = Some (s, rest).
Proof.
  induction s as [|c r IH]; [reflexivity|].
  simpl escape_chars. rewrite append_assoc, parse_chars_escape_char, IH.
  reflexivity.
Qed.

Lemma quoteJSONString_app (s rest : string) :
  (quoteJSONString s ++ rest)%string
  = String dquote (escape_chars s ++ String dquote rest).
Proof. unfold quoteJSONString. simpl. now rewrite append_assoc. Qed.

End JsonStrings.

(** *** Numbers *)

Section JsonNumbers.

Lemma parse_number_string_of_Z (z : Z) (rest : string) :
  ends_number rest = true ->
  parse_number (string_of_Z z ++ rest) = Some (VNum z, rest).
Proof.
  intros Hend.
  assert (Hstop : starts_with_digit 10 rest = false).
  { destruct rest as [|c r]; [reflexivity|]. unfold ends_number in Hend.
    apply andb_true_iff in Hend as [H _]. now apply negb_true_iff in H. }
  assert (Hfin : forall n, match rest with
                 | EmptyString => Some (VNum n, rest)
                 | String c _ =>
                     if ((c =? ".")%char || (c =? "e")%char || (c =? "E")%char)%bool
                     then None else Some (VNum n, rest)
                 end = Some (VNum n, rest)).
  { intros n. destruct rest as [|c r]; [reflexivity|]. unfold ends_number in Hend.
    apply andb_true_iff in Hend as [_ H]. apply negb_true_iff in H. now rewrite H. }
  destruct z as [|p|p].
  - unfold parse_number. simpl. apply Hfin.
  - unfold string_of_Z.
    destruct (positive_text p rest) as (d & r & Hd & -> & Hr).
    unfold parse_number.
    destruct (digit_char_plain d ltac:(lia)) as (_ & M & _). rewrite M.
    rewrite starts_with_digit_char by lia.
    rewrite (digit_char_nonzero d Hd), Hr, (read_digits_stop 10 (Zpos p) rest Hstop).
    apply Hfin.
  - unfold string_of_Z.
    change (String "-" (digits_acc (Pos.size_nat p) (Z.pos p) EmptyString) ++ rest)%string
      with (String "-" (digits_acc (Pos.size_nat p) (Z.pos p) EmptyString ++ rest)%string).
    destruct (positive_text p rest) as (d & r & Hd & -> & Hr).
    unfold parse_number. rewrite Ascii.eqb_refl.
    rewrite starts_with_digit_char by lia.
    rewrite (digit_char_nonzero d Hd), Hr, (read_digits_stop 10 (Zpos p) rest Hstop).
    apply Hfin.
Qed.

(** Where the text of a number starts, [parse_value] reads a number. *)
Lemma parse_value_number (z : Z) (fuel : nat) (rest : string) :
  parse_value (S fuel) (string_of_Z z ++ rest)
  = parse_number (string_of_Z z ++ rest).
Proof.
  destruct z as [|p|p]; [reflexivity| |reflexivity].
  unfold string_of_Z.
  destruct (positive_text p rest) as (d & r & Hd & -> & _).
  assert (H : 0 <= d <= 9) by lia.
  destruct (digit_cases d H) as [->|[->|[->|[->|[->|[->|[->|[->|[->| ->]]]]]]]]];
    reflexivity.
Qed.

Lemma string_of_Z_length (z : Z) : (1 <= String.length (string_of_Z z))%nat.
Proof.
  destruct z as [|p|p]; simpl; try lia.
  - destruct (positive_text p EmptyString) as (d & r & _ & E & _).
    rewrite append_empty_r in E. rewrite E. simpl. lia.
Qed.

End JsonNumbers.

(** *** White space and the shape of the text *)

Section JsonLayout.

Lemma skip_ws_idem (s : string) : skip_ws (skip_ws s) = skip_ws s.
Proof.
  induction s as [|c r IH]; [reflexivity|]. simpl.
  destruct (is_json_ws c) eqn:E; [exact IH|]. simpl. now rewrite E.
Qed.

Lemma skip_ws_spaces (k : nat) (s : string) : skip_ws (spaces k ++ s) = skip_ws s.
Proof. induction k as [|k IH]; [reflexivity|exact IH]. Qed.

Lemma skip_ws_line_break (gap k : nat) (s : string) :
  skip_ws (line_break gap k ++ s) = skip_ws s.
Proof. destruct gap; [reflexivity|]. simpl. apply skip_ws_spaces. Qed.

Lemma skip_ws_colon (gap : nat) (s : string) :
  skip_ws (colon gap ++ s) = String ":" (match gap with O => s | S _ => String " " s end).
Proof. destruct gap; reflexivity. Qed.

(** [parse_value] looks at its text past the leading white space only. *)
Lemma parse_value_skip_ws (fuel : nat) (s : string) :
  parse_value fuel s = parse_value fuel (skip_ws s).
Proof. destruct fuel; [reflexivity|]. simpl. now rewrite skip_ws_idem. Qed.

Lemma skip_ws_opens (s : string) : opens s = true -> skip_ws s = s.
Proof.
  destruct s as [|c r]; [discriminate|]. simpl.
  destruct (is_json_ws c); [discriminate|reflexivity].
Qed.

Lemma opens_digit (d : Z) (r : string) :
  0 <= d <= 9 -> opens (String (digit_char d) r) = true.
Proof.
  intros H.
  destruct (digit_cases d H) as [->|[->|[->|[->|[->|[->|[->|[->|[->| ->]]]]]]]]];
    reflexivity.
Qed.

Lemma opens_serialize (gap indent : nat) (v : value) (rest : string) :
  opens (serialize gap indent v ++ rest) = true.
Proof.
  destruct v as [|[]|z|s|[|x xs]|[|kv r]]; try reflexivity.
  simpl serialize. destruct z as [|p|p]; try reflexivity.
  unfold string_of_Z. destruct (positive_text p rest) as (d & r & Hd & -> & _).
  apply opens_digit. lia.
Qed.

(** What closes a value ends a number too. *)
Lemma ends_number_comma (s : string) : ends_number (String "," s) = true.
Proof. reflexivity. Qed.

Lemma ends_number_close (gap k : nat) (c : ascii) (s : string) :
  (c = "]" \/ c = "}")%char ->
  ends_number (line_break gap k ++ String c s) = true.
Proof. intros [->| ->]; destruct gap; reflexivity. Qed.

Lemma skip_ws_comma (s : string) : skip_ws (String "," s) = String "," s.
Proof. reflexivity. Qed.

Lemma skip_ws_close (gap k : nat) (c : ascii) (s : string) :
  (c = "]" \/ c = "}")%char ->
  skip_ws (line_break gap k ++ String c s) = String c s.
Proof. intros [->| ->]; rewrite skip_ws_line_break; reflexivity. Qed.

(** The equations of [parse_value] on the three opening characters. *)
Lemma parse_value_array (fuel : nat) (r : string) :
  parse_value (S fuel) (String "[" r)
  = match skip_ws r with
    | EmptyString => None
    | String c2 r2 =>
        if (c2 =? "]")%char then Some (VArr [], r2)
        else
          match parse_elements (parse_value fuel) fuel r with
          | Some (vs, r') => Some (VArr vs, r')
          | None => None
          end
    end.
Proof. reflexivity. Qed.

Lemma parse_value_object (fuel : nat) (r : string) :
  parse_value (S fuel) (String "{" r)
  = match skip_ws r with
    | EmptyString => None
    | String c2 r2 =>
        if (c2 =? "}")%char then Some (VObj [], r2)
        else
          match parse_members (parse_value fuel) fuel r with
          | Some (ms, r') => Some (VObj (build_object ms), r')
          | None => None
          end
    end.
Proof. reflexivity. Qed.

Lemma parse_value_string (fuel : nat) (r : string) :
  parse_value (S fuel) (String dquote r)
  = match parse_chars r with
    | Some (str, r') => Some (VStr str, r')
    | None => None
    end.
Proof. reflexivity. Qed.

End JsonLayout.

(** *** Arrays and objects *)

Section JsonContainers.

Lemma concat_rest_text (lb t : string) (ts : list string) (final : string) :
  (concat (String "," lb) (t :: ts) ++ final)%string = (t ++ rest_text lb ts final)%string.
Proof.
  revert t. induction ts as [|u r IH]; intros t; [reflexivity|].
  change (concat (String "," lb) (t :: u :: r))
    with (t ++ String "," lb ++ concat (String "," lb) (u :: r))%string.
  rewrite append_assoc. f_equal. simpl. f_equal.
  rewrite append_assoc. f_equal. apply IH.
Qed.

Lemma serialize_array_text (gap indent : nat) (x : value) (xs : list value) (rest : string) :
  (serialize gap indent (VArr (x :: xs)) ++ rest)%string
  = String "["
      (line_break gap (indent + gap)
       ++ serialize gap (indent + gap) x
       ++ rest_text (line_break gap (indent + gap))
            (map (serialize gap (indent + gap)) xs)
            (line_break gap indent ++ String "]" rest)).
Proof.
  change (serialize gap indent (VArr (x :: xs)))
    with ("[" ++ line_break gap (indent + gap)
          ++ concat (String "," (line_break gap (indent + gap)))
               (map (serialize gap (indent + gap)) (x :: xs))
          ++ line_break gap indent ++ "]")%string.
  rewrite !append_assoc. change ("[" ++ ?a)%string with (String "[" a).
  f_equal. f_equal.
  apply (concat_rest_text (line_break gap (indent + gap))
           (serialize gap (indent + gap) x)
           (map (serialize gap (indent + gap)) xs)
           (line_break gap indent ++ String "]" rest)).
Qed.

Lemma serialize_object_text (gap indent : nat) (kv : string * value)
    (props : list (string * value)) (rest : string) :
  (serialize gap indent (VObj (kv :: props)) ++ rest)%string
  = String "{"
      (line_break gap (indent + gap)
       ++ member_text gap (indent + gap) kv
       ++ rest_text (line_break gap (indent + gap))
            (map (member_text gap (indent + gap)) props)
            (line_break gap indent ++ String "}" rest)).
Proof.
  change (serialize gap indent (VObj (kv :: props)))
    with ("{" ++ line_break gap (indent + gap)
          ++ concat (String "," (line_break gap (indent + gap)))
               (map (member_text gap (indent + gap)) (kv :: props))
          ++ line_break gap indent ++ "}")%string.
  rewrite !append_assoc. change ("{" ++ ?a)%string with (String "{" a).
  f_equal. f_equal.
  apply (concat_rest_text (line_break gap (indent + gap))
           (member_text gap (indent + gap) kv)
           (map (member_text gap (indent + gap)) props)
           (line_break gap indent ++ String "}" rest)).
Qed.

Variables gap k indent : nat.
Variable pv : string -> option (value * string).
Hypothesis pv_skip_ws : forall s, pv s = pv (skip_ws s).

Lemma parse_elements_eq (f : nat) (s : string) :
  parse_elements pv (S f) s
  = match pv s with
    | None => None
    | Some (v, r) =>
        match skip_ws r with
        | EmptyString => None
        | String c r' =>
            if (c =? ",")%char then
              match parse_elements pv f r' with
              | Some (vs, r'') => Some (v :: vs, r'')
              | None => None
              end
            else if (c =? "]")%char then Some ([v], r')
            else None
        end
    end.
Proof. reflexivity. Qed.

Lemma parse_members_eq (f : nat) (s : string) :
  parse_members pv (S f) s
  = match skip_ws s with
    | EmptyString => None
    | String q r0 =>
        if (q =? dquote)%char then
          match parse_chars r0 with
          | None => None
          | Some (key, r1) =>
              match skip_ws r1 with
              | EmptyString => None
              | String c r2 =>
                  if (c =? ":")%char then
                    match pv r2 with
                    | None => None
                    | Some (v, r3) =>
                        match skip_ws r3 with
                        | EmptyString => None
                        | String c' r4 =>
                            if (c' =? ",")%char then
                              match parse_members pv f r4 with
                              | Some (ms, r5) => Some ((key, v) :: ms, r5)
                              | None => None
                              end
                            else if (c' =? "}")%char then Some ([(key, v)], r4)
                            else None
                        end
                    end
                  else None
              end
          end
        else None
    end.
Proof. reflexivity. Qed.

Lemma pv_line_break (s : string) : pv (line_break gap k ++ s) = pv s.
Proof. rewrite pv_skip_ws, skip_ws_line_break, <- pv_skip_ws. reflexivity. Qed.

(** The items of an array read back, given that each item does. *)
Lemma parse_elements_text (xs : list value) :
  forall (x : value) (fuel : nat) (rest : string),
    (List.length (x :: xs) <= fuel)%nat ->
    Forall (fun y => forall rest', ends_number rest' = true ->
                       pv (serialize gap k y ++ rest') = Some (y, rest')) (x :: xs) ->
    parse_elements pv fuel
      (line_break gap k ++ serialize gap k x
       ++ rest_text (line_break gap k) (map (serialize gap k) xs)
            (line_break gap indent ++ String "]" rest))
    = Some (x :: xs, rest).
Proof.
  induction xs as [|y ys IH]; intros x fuel rest Hfuel Hall;
    destruct fuel as [|f]; simpl in Hfuel; try lia;
    inversion Hall as [|? ? Hx Hrest]; subst;
    rewrite parse_elements_eq, pv_line_break.
  - cbn [map rest_text]. rewrite Hx by (apply ends_number_close; auto).
    rewrite skip_ws_close by auto. reflexivity.
  - cbn [map rest_text]. rewrite Hx by apply ends_number_comma.
    rewrite skip_ws_comma. cbv beta iota. rewrite Ascii.eqb_refl.
    rewrite IH; [reflexivity|simpl; lia|exact Hrest].
Qed.

(** The members of an object read back, given that each value does. *)
Lemma parse_members_text (props : list (string * value)) :
  forall (kv : string * value) (fuel : nat) (rest : string),
    (List.length (kv :: props) <= fuel)%nat ->
    Forall (fun m => forall rest', ends_number rest' = true ->
                       pv (serialize gap k (snd m) ++ rest') = Some (snd m, rest'))
           (kv :: props) ->
    parse_members pv fuel
      (line_break gap k ++ member_text gap k kv
       ++ rest_text (line_break gap k) (map (member_text gap k) props)
            (line_break gap indent ++ String "}" rest))
    = Some (kv :: props, rest).
Proof.
  assert (Hkey : forall key v tail,
             skip_ws (line_break gap k ++ member_text gap k (key, v) ++ tail)
             = String dquote
                 (escape_chars key
                  ++ String dquote (colon gap ++ serialize gap k v ++ tail))).
  { intros key v tail. rewrite skip_ws_line_break. unfold member_text. simpl fst. simpl snd.
    rewrite !append_assoc, quoteJSONString_app. reflexivity. }
  assert (Hval : forall v tail,
             pv match gap with
                | O => (serialize gap k v ++ tail)%string
                | S _ => String " " (serialize gap k v ++ tail)
                end = pv (serialize gap k v ++ tail)).
  { intros v tail. destruct gap; [reflexivity|].
    rewrite pv_skip_ws. simpl skip_ws. now rewrite <- pv_skip_ws. }
  induction props as [|m ms IH]; intros [key v] fuel rest Hfuel Hall;
    destruct fuel as [|f]; simpl in Hfuel; try lia;
    inversion Hall as [|? ? Hx Hrest]; subst; simpl in Hx;
    rewrite parse_members_eq, Hkey, Ascii.eqb_refl,
      parse_chars_escape_chars, skip_ws_colon, Ascii.eqb_refl, Hval.
  - cbn [map rest_text]. rewrite Hx by (apply ends_number_close; auto).
    rewrite skip_ws_close by auto. reflexivity.
  - cbn [map rest_text]. rewrite Hx by apply ends_number_comma.
    rewrite skip_ws_comma. cbv beta iota. rewrite Ascii.eqb_refl.
    destruct m as [key' v'].
    rewrite IH; [reflexivity|simpl; lia|exact Hrest].
Qed.

End JsonContainers.

(** *** Objects with distinct keys are rebuilt as they were *)

Section BuildObject.

Lemma distinct_NoDup (keys : list string) : distinct keys = true -> NoDup keys.
Proof.
  induction keys as [|key r IH]; simpl; intros H; constructor;
    apply andb_true_iff in H as [Hk Hr].
  - intros Hin. apply negb_true_iff in Hk.
    assert (existsb (String.eqb key) r = true); [|congruence].
    apply existsb_exists. exists key. split; [exact Hin|apply String.eqb_refl].
  - now apply IH.
Qed.

Lemma setProp_fresh (key : string) (v : value) (o : obj) :
  ~ In key (map fst o) -> setProp key v o = o ++ [(key, v)].
Proof.
  induction o as [|[k' v'] r IH]; simpl; intros Hfresh; [reflexivity|].
  destruct (k' =? key)%string eqn:E.
  - apply String.eqb_eq in E. tauto.
  - f_equal. apply IH. tauto.
Qed.

Lemma fold_setProp_distinct (props : list (string * value)) :
  forall acc : obj,
    NoDup (map fst (acc ++ props)) ->
    fold_left (fun o kv => setProp (fst kv) (snd kv) o) props acc = acc ++ props.
Proof.
  induction props as [|[key v] r IH]; intros acc Hnd; simpl.
  - now rewrite app_nil_r.
  - rewrite setProp_fresh.
    + rewrite IH; rewrite <- app_assoc; [reflexivity|exact Hnd].
    + rewrite map_app in Hnd. simpl in Hnd.
      apply NoDup_remove_2 in Hnd. intros Hin. apply Hnd.
      apply in_or_app. now left.
Qed.

Lemma build_object_distinct (props : list (string * value)) :
  distinct (map fst props) = true -> build_object props = props.
Proof.
  intros H. unfold build_object.
  now rewrite (fold_setProp_distinct props []) by (apply distinct_NoDup, H).
Qed.

End BuildObject.

(** *** Values *)

Section JsonValues.

Lemma need_positive (v : value) : (1 <= need v)%nat.
Proof. destruct v; simpl; lia. Qed.

Lemma need_items (items : list value) :
  (List.length items <= fold_right (fun x n => need x + n) 0 items)%nat
  /\ forall y, In y items ->
               (need y <= fold_right (fun x n => need x + n) 0 items)%nat.
Proof.
  induction items as [|x r [IH1 IH2]]; simpl.
  - split; [lia|intros ? []].
  - pose proof (need_positive x). split; [lia|].
    intros y [<-|Hy]; [lia|]. specialize (IH2 y Hy). lia.
Qed.

Lemma need_props (props : list (string * value)) :
  (List.length props <= fold_right (fun kv n => need (snd kv) + n) 0 props)%nat
  /\ forall m, In m props ->
               (need (snd m) <= fold_right (fun kv n => need (snd kv) + n) 0 props)%nat.
Proof.
  induction props as [|x r [IH1 IH2]]; simpl.
  - split; [lia|intros ? []].
  - pose proof (need_positive (snd x)). split; [lia|].
    intros y [<-|Hy]; [lia|]. specialize (IH2 y Hy). lia.
Qed.

(** The text of a well-formed value, whatever the gap and the indentation,
    reads back as the value, given fuel for its size. *)
Lemma parse_value_serialize (v : value) :
  well_formed v = true ->
  forall (gap indent fuel : nat) (rest : string),
    (need v <= fuel)%nat ->
    ends_number rest = true ->
    parse_value fuel (serialize gap indent v ++ rest) = Some (v, rest).
Proof.
  induction v as [|b|n|s|items IH|props IH] using value_nested_ind;
    intros Hwf gap indent fuel rest Hfuel Hend;
    (destruct fuel as [|f]; [simpl in Hfuel; lia|]).
  - reflexivity.
  - destruct b; reflexivity.
  - simpl serialize. rewrite parse_value_number. now apply parse_number_string_of_Z.
  - simpl serialize. rewrite quoteJSONString_app, parse_value_string.
    now rewrite parse_chars_escape_chars.
  - destruct items as [|x xs]; [reflexivity|].
    cbn [need] in Hfuel. destruct (need_items (x :: xs)) as [Hlen Hneed].
    rewrite serialize_array_text, parse_value_array.
    rewrite (parse_elements_text gap (indent + gap) indent (parse_value f)
               (parse_value_skip_ws f) xs x f rest).
    + rewrite skip_ws_line_break, skip_ws_opens by apply opens_serialize.
      pose proof (opens_serialize gap (indent + gap) x
                    (rest_text (line_break gap (indent + gap))
                       (map (serialize gap (indent + gap)) xs)
                       (line_break gap indent ++ String "]" rest))) as Ho.
      destruct (serialize gap (indent + gap) x ++ _)%string as [|c2 r2];
        [discriminate|].
      simpl in Ho. destruct (c2 =? "]")%char; [|reflexivity].
      rewrite !andb_false_r in Ho. simpl in Ho. discriminate.
    + lia.
    + cbn [well_formed] in Hwf. rewrite forallb_forall in Hwf.
      rewrite Forall_forall in IH |- *. intros y Hy rest' Hend'.
      apply IH; auto. specialize (Hneed y Hy). lia.
  - destruct props as [|kv ms]; [reflexivity|].
    cbn [need] in Hfuel. destruct (need_props (kv :: ms)) as [Hlen Hneed].
    cbn [well_formed] in Hwf. apply andb_true_iff in Hwf as [Hkeys Hwf].
    rewrite serialize_object_text, parse_value_object.
    rewrite (parse_members_text gap (indent + gap) indent (parse_value f)
               (parse_value_skip_ws f) ms kv f rest).
    + rewrite (build_object_distinct _ Hkeys).
      rewrite skip_ws_line_break.
      unfold member_text. rewrite !append_assoc, quoteJSONString_app.
      reflexivity.
    + lia.
    + rewrite forallb_forall in Hwf.
      rewrite Forall_forall in IH |- *. intros m Hm rest' Hend'.
      apply IH; auto. specialize (Hneed m Hm). lia.
Qed.

End JsonValues.

(** *** The length of the text is fuel enough *)

Section JsonFuel.

Lemma rest_text_weight (A : Type) (weight : A -> nat) (text : A -> string)
    (lb final : string) (l : list A) :
  Forall (fun a => (weight a <= String.length (text a))%nat) l ->
  (fold_right (fun a n => weight a + n) 0 l
   <= String.length (rest_text lb (map text l) final))%nat.
Proof.
  induction 1 as [|a r Ha _ IH]; simpl; [lia|].
  rewrite !length_append. lia.
Qed.

Lemma need_le_length (v : value) :
  forall gap indent : nat, (need v <= String.length (serialize gap indent v))%nat.
Proof.
  induction v as [|b|n|s|items IH|props IH] using value_nested_ind;
    intros gap indent.
  - simpl. lia.
  - destruct b; simpl; lia.
  - apply string_of_Z_length.
  - simpl. lia.
  - destruct items as [|x xs]; [simpl; lia|].
    rewrite <- (append_empty_r (serialize gap indent (VArr (x :: xs)))).
    rewrite serialize_array_text. cbn [need fold_right String.length].
    rewrite !length_append.
    inversion IH as [|? ? Hx Hxs]; subst.
    specialize (Hx gap (indent + gap)%nat).
    pose proof (rest_text_weight value need (serialize gap (indent + gap))
                  (line_break gap (indent + gap))
                  (line_break gap indent ++ String "]" EmptyString) xs) as Hr.
    assert (Hall : Forall (fun a => (need a <= String.length (serialize gap (indent + gap) a))%nat) xs).
    { rewrite Forall_forall in Hxs |- *. intros y Hy. apply Hxs, Hy. }
    specialize (Hr Hall). lia.
  - destruct props as [|kv ms]; [simpl; lia|].
    rewrite <- (append_empty_r (serialize gap indent (VObj (kv :: ms)))).
    rewrite serialize_object_text. cbn [need fold_right String.length].
    rewrite !length_append.
    inversion IH as [|? ? Hx Hxs]; subst.
    assert (Hm : forall m : string * value,
               (forall g i, (need (snd m) <= String.length (serialize g i (snd m)))%nat) ->
               (need (snd m) <= String.length (member_text gap (indent + gap) m))%nat).
    { intros m H. unfold member_text. rewrite !length_append.
      specialize (H gap (indent + gap)%nat). lia. }
    pose proof (Hm kv Hx) as Hkv.
    pose proof (rest_text_weight (string * value) (fun m => need (snd m))
                  (member_text gap (indent + gap))
                  (line_break gap (indent + gap))
                  (line_break gap indent ++ String "}" EmptyString) ms) as Hr.
    assert (Hall : Forall (fun m => (need (snd m)
                                     <= String.length (member_text gap (indent + gap) m))%nat) ms).
    { rewrite Forall_forall in Hxs |- *. intros y Hy. apply Hm, Hxs, Hy. }
    specialize (Hr Hall). lia.
Qed.

(** [JSON.parse(JSON.stringify(v, null, gap))] is [v]. *)
Lemma JSON_parse_stringify (gap : nat) (v : value) :
  well_formed v = true -> JSON_parse (JSON_stringify gap v) = Some v.
Proof.
  intros Hwf. unfold JSON_parse, JSON_stringify.
  pose proof (need_le_length v gap 0) as Hlen.
  rewrite <- (append_empty_r (serialize gap 0 v)) at 2.
  rewrite (parse_value_serialize v Hwf gap 0 _ EmptyString); [reflexivity|lia|reflexivity].
Qed.

End JsonFuel.

(** ** Records stay importable and well formed *)

Section SoundRecords.

Lemma distinct_iff (keys : list string) : distinct keys = true <-> NoDup keys.
Proof.
  split; [apply distinct_NoDup|].
  induction 1 as [|key r Hnotin _ IH]; simpl; [reflexivity|].
  rewrite IH, andb_true_r. apply negb_true_iff.
  destruct (existsb (String.eqb key) r) eqn:E; [|reflexivity].
  apply existsb_exists in E as (k' & Hin & Heq).
  apply String.eqb_eq in Heq. subst k'. contradiction.
Qed.

Lemma setProp_keys (key : string) (v : value) (o : obj) (a : string) :
  In a (map fst (setProp key v o)) <-> In a (map fst o) \/ a = key.
Proof.
  induction o as [|[k' v'] r IH]; simpl.
  - intuition.
  - destruct (k' =? key)%string eqn:E; simpl.
    + apply String.eqb_eq in E. subst k'. intuition.
    + rewrite IH. intuition.
Qed.

Lemma setProp_distinct (key : string) (v : value) (o : obj) :
  distinct (map fst o) = true -> distinct (map fst (setProp key v o)) = true.
Proof.
  rewrite !distinct_iff. induction o as [|[k' v'] r IH]; simpl; intros Hnd.
  - repeat constructor. intros [].
  - inversion Hnd as [|? ? Hnotin Hr]; subst.
    destruct (k' =? key)%string eqn:E; simpl.
    + apply String.eqb_eq in E. subst k'. now constructor.
    + constructor; [|now apply IH]. rewrite setProp_keys.
      intros [H| ->]; [contradiction|]. now rewrite String.eqb_refl in E.
Qed.

Lemma setProp_values (key : string) (v : value) (o : obj) :
  well_formed v = true ->
  forallb (fun kv => well_formed (snd kv)) o = true ->
  forallb (fun kv => well_formed (snd kv)) (setProp key v o) = true.
Proof.
  intros Hv. induction o as [|[k' v'] r IH]; simpl; intros H.
  - now rewrite Hv.
  - apply andb_true_iff in H as [H1 H2].
    destruct (k' =? key)%string; simpl.
    + now rewrite Hv, H2.
    + now rewrite H1, IH.
Qed.

Lemma setProp_well_formed (key : string) (v : value) (o : obj) :
  well_formed v = true ->
  well_formed (VObj o) = true -> well_formed (VObj (setProp key v o)) = true.
Proof.
  cbn [well_formed]. intros Hv H. apply andb_true_iff in H as [H1 H2].
  apply andb_true_iff. split; [now apply setProp_distinct|now apply setProp_values].
Qed.

Lemma progressed_sound (change : Z) (iso : string) (task task' : obj) :
  progressed change iso task = Some task' ->
  sound_task task = true -> sound_task task' = true.
Proof.
  unfold progressed.
  destruct (getProp "current" task) as [[| |c| | |]|] eqn:Hc; try discriminate.
  destruct (getProp "target" task) as [[| |g| | |]|] eqn:Hg; try discriminate.
  intros [= <-] H. unfold sound_task in *.
  apply andb_true_iff in H as [Himp Hwf]. apply andb_true_iff. split.
  - unfold importable in *.
    rewrite (getProp_setProp_other _ "id"), (getProp_setProp_other _ "id") by discriminate.
    rewrite (getProp_setProp_other _ "name"), (getProp_setProp_other _ "name") by discriminate.
    rewrite (getProp_setProp_other _ "target"), (getProp_setProp_other _ "target") by discriminate.
    rewrite (getProp_setProp_other _ "current") by discriminate.
    rewrite getProp_setProp_same. rewrite Hc in Himp. simpl in *.
    now rewrite andb_true_r in *.
  - now repeat apply setProp_well_formed.
Qed.

Lemma edited_sound (newName : string) (c g : Z) (iso : string) (task : obj) :
  newName <> EmptyString ->
  sound_task task = true -> sound_task (edited newName c g iso task) = true.
Proof.
  intros Hn H. unfold sound_task in *.
  apply andb_true_iff in H as [Himp Hwf]. apply andb_true_iff. split.
  - destruct (edited_props newName c g iso task) as (P1 & P2 & P3 & _ & P5).
    unfold importable in *. rewrite P1, P2, P3.
    rewrite (P5 "id") by discriminate.
    apply andb_true_iff in Himp as [Himp _].
    apply andb_true_iff in Himp as [Himp _].
    apply andb_true_iff in Himp as [Hid _]. rewrite Hid. simpl.
    destruct newName; [congruence|reflexivity].
  - unfold edited. now repeat apply setProp_well_formed.
Qed.

Lemma new_task_sound (n tf : string) (now : Z) (c m : string) (t : obj) :
  now <> 0 -> new_task n tf now c m = Some t -> sound_task t = true.
Proof.
  intros Hnow H. pose proof H as H'. unfold new_task in H'.
  destruct (parseInt tf) as [g0|]; [|discriminate].
  destruct (trim n) as [|a r] eqn:En; [discriminate|].
  destruct (new_task_accepted _ _ _ _ _ _ H) as (g & _ & _ & ->).
  rewrite En. unfold sound_task, importable. simpl.
  apply Z.eqb_neq in Hnow. now rewrite Hnow.
Qed.

End SoundRecords.

(** ** What [JSON.parse] returns is well formed *)

Section ParserOutput.

Lemma parse_number_wf (s : string) (v : value) (r : string) :
  parse_number s = Some (v, r) -> well_formed v = true.
Proof.
  unfold parse_number.
  destruct (match s with
            | String c r0 => if (c =? "-")%char then (-1, r0) else (1, s)
            | EmptyString => (1, s)
            end) as [sign s1].
  destruct (starts_with_digit 10 s1); [|discriminate].
  destruct (match s1 with
            | String c r0 => if (c =? "0")%char then (0, r0) else read_digits 10 0 s1
            | EmptyString => (0, s1)
            end) as [n rest].
  destruct rest as [|c rest'].
  - now intros [= <- _].
  - destruct ((c =? ".")%char || (c =? "e")%char || (c =? "E")%char)%bool;
      [discriminate|]. now intros [= <- _].
Qed.

Variable pv : string -> option (value * string).
Hypothesis pv_wf : forall s v r, pv s = Some (v, r) -> well_formed v = true.

Lemma parse_elements_wf (fuel : nat) :
  forall s vs r, parse_elements pv fuel s = Some (vs, r) -> forallb well_formed vs = true.
Proof.
  induction fuel as [|f IH]; intros s vs r H; [discriminate|].
  rewrite parse_elements_eq in H.
  destruct (pv s) as [[v r0]|] eqn:Ev; [|discriminate].
  apply pv_wf in Ev.
  destruct (skip_ws r0) as [|c r1]; [discriminate|].
  destruct (c =? ",")%char.
  - destruct (parse_elements pv f r1) as [[vs' r2]|] eqn:E; [|discriminate].
    injection H as <- _. simpl. rewrite Ev. exact (IH _ _ _ E).
  - destruct (c =? "]")%char; [|discriminate].
    injection H as <- _. simpl. now rewrite Ev.
Qed.

Lemma parse_members_wf (fuel : nat) :
  forall s ms r,
    parse_members pv fuel s = Some (ms, r) ->
    forallb (fun kv => well_formed (snd kv)) ms = true.
Proof.
  induction fuel as [|f IH]; intros s ms r H; [discriminate|].
  rewrite parse_members_eq in H.
  destruct (skip_ws s) as [|q r0]; [discriminate|].
  destruct (q =? dquote)%char; [|discriminate].
  destruct (parse_chars r0) as [[key r1]|]; [|discriminate].
  destruct (skip_ws r1) as [|c r2]; [discriminate|].
  destruct (c =? ":")%char; [|discriminate].
  destruct (pv r2) as [[v r3]|] eqn:Ev; [|discriminate].
  apply pv_wf in Ev.
  destruct (skip_ws r3) as [|c' r4]; [discriminate|].
  destruct (c' =? ",")%char.
  - destruct (parse_members pv f r4) as [[ms' r5]|] eqn:E; [|discriminate].
    injection H as <- _. simpl. rewrite Ev. exact (IH _ _ _ E).
  - destruct (c' =? "}")%char; [|discriminate].
    injection H as <- _. simpl. now rewrite Ev.
Qed.

End ParserOutput.

Lemma build_object_wf (ms : list (string * value)) :
  forallb (fun kv => well_formed (snd kv)) ms = true ->
  well_formed (VObj (build_object ms)) = true.
Proof.
  unfold build_object.
  assert (H : forall acc : obj,
             well_formed (VObj acc) = true ->
             forallb (fun kv => well_formed (snd kv)) ms = true ->
             well_formed
               (VObj (fold_left (fun o kv => setProp (fst kv) (snd kv) o) ms acc)) = true).
  { induction ms as [|[key v] r IH]; intros acc Hacc Hms; [exact Hacc|].
    simpl in Hms. apply andb_true_iff in Hms as [Hv Hr]. simpl.
    apply IH; [|exact Hr]. now apply setProp_well_formed. }
  apply H. reflexivity.
Qed.

Lemma parse_value_wf (fuel : nat) :
  forall s v r, parse_value fuel s = Some (v, r) -> well_formed v = true.
Proof.
  induction fuel as [|f IH]; intros s v r H; [discriminate|].
  cbn [parse_value] in H.
  destruct (skip_ws s) as [|c r0]; [discriminate|].
  destruct (c =? "[")%char.
  { destruct (skip_ws r0) as [|c2 r2]; [discriminate|].
    destruct (c2 =? "]")%char; [now injection H as <- _|].
    destruct (parse_elements (parse_value f) f r0) as [[vs r']|] eqn:E; [|discriminate].
    injection H as <- _. exact (parse_elements_wf _ IH f _ _ _ E). }
  destruct (c =? "{")%char.
  { destruct (skip_ws r0) as [|c2 r2]; [discriminate|].
    destruct (c2 =? "}")%char; [now injection H as <- _|].
    destruct (parse_members (parse_value f) f r0) as [[ms r']|] eqn:E; [|discriminate].
    injection H as <- _. apply build_object_wf.
    exact (parse_members_wf _ IH f _ _ _ E). }
  destruct (c =? dquote)%char.
  { destruct (parse_chars r0) as [[str r']|]; [|discriminate]. now injection H as <- _. }
  destruct (c =? "n")%char.
  { destruct (strip_prefix "ull" r0); [|discriminate]. now injection H as <- _. }
  destruct (c =? "t")%char.
  { destruct (strip_prefix "rue" r0); [|discriminate]. now injection H as <- _. }
  destruct (c =? "f")%char.
  { destruct (strip_prefix "alse" r0); [|discriminate]. now injection H as <- _. }
  exact (parse_number_wf _ _ _ H).
Qed.

Lemma JSON_parse_wf (text : string) (v : value) :
  JSON_parse text = Some v -> well_formed v = true.
Proof.
  unfold JSON_parse.
  destruct (parse_value (S (String.length text)) text) as [[v' r]|] eqn:E; [|discriminate].
  destruct (is_empty (skip_ws r)); [|discriminate].
  intros [= <-]. exact (parse_value_wf _ _ _ _ E).
Qed.

(** ** The fuel of [JSON_parse] is enough

    Every call of the parser consumes a character before it calls itself, so
    its result is the same with any fuel above the length of the text. *)

Section ParserFuel.

Lemma skip_ws_length (s : string) :
  (String.length (skip_ws s) <= String.length s)%nat.
Proof.
  induction s as [|c r IH]; simpl; [lia|].
  destruct (is_json_ws c); simpl; lia.
Qed.

Lemma strip_prefix_length (p : string) :
  forall s r, strip_prefix p s = Some r -> (String.length r <= String.length s)%nat.
Proof.
  induction p as [|a p IH]; intros s r H; simpl in H.
  - injection H as <-. lia.
  - destruct s as [|b s]; [discriminate|].
    destruct (a =? b)%char; [|discriminate]. apply IH in H. simpl. lia.
Qed.

Lemma parse_chars_length (n : nat) :
  forall s str r,
    (String.length s <= n)%nat ->
    parse_chars s = Some (str, r) -> (String.length r < String.length s)%nat.
Proof.
  induction n as [|n IH]; intros s str r Hn H;
    (destruct s as [|c s1]; [discriminate|]); simpl in Hn; [lia|].
  simpl in H. destruct (c =? dquote)%char.
  { injection H as _ <-. simpl. lia. }
  destruct (c =? backslash)%char.
  { destruct s1 as [|e s2]; [discriminate|].
    destruct (e =? "u")%char.
    - destruct s2 as [|h1 [|h2 [|h3 [|h4 s3]]]]; try discriminate.
      destruct (unescape_hex h1 h2 h3 h4); [|discriminate].
      destruct (parse_chars s3) as [[str' r']|] eqn:E; [|discriminate].
      injection H as _ <-. apply IH in E; simpl in *; lia.
    - destruct (unescape e); [|discriminate].
      destruct (parse_chars s2) as [[str' r']|] eqn:E; [|discriminate].
      injection H as _ <-. apply IH in E; simpl in *; lia. }
  destruct (code c <? 32); [discriminate|].
  destruct (parse_chars s1) as [[str' r']|] eqn:E; [|discriminate].
  injection H as _ <-. apply IH in E; simpl in *; lia.
Qed.

Lemma read_digits_length (radix : Z) (s : string) :
  forall acc, (String.length (snd (read_digits radix acc s)) <= String.length s)%nat.
Proof.
  induction s as [|c r IH]; intros acc; simpl; [lia|].
  destruct (digit_val radix c); simpl; [|lia]. specialize (IH (acc * radix + z)). lia.
Qed.

Lemma parse_number_length (s : string) (v : value) (r : string) :
  parse_number s = Some (v, r) -> (String.length r < String.length s)%nat.
Proof.
  unfold parse_number.
  assert (Hrest : forall s1 n rest,
             starts_with_digit 10 s1 = true ->
             match s1 with
             | String c r0 => if (c =? "0")%char then (0, r0) else read_digits 10 0 s1
             | EmptyString => (0, s1)
             end = (n, rest) ->
             (String.length rest < String.length s1)%nat).
  { intros s1 n rest Hd E. destruct s1 as [|c r0]; [discriminate|].
    destruct (c =? "0")%char.
    - injection E as _ <-. simpl. lia.
    - simpl in Hd, E. destruct (digit_val 10 c) as [d|]; [|discriminate].
      pose proof (read_digits_length 10 r0 d) as L.
      rewrite E in L. simpl in *. lia. }
  assert (Hfin : forall n sign rest,
             match rest with
             | EmptyString => Some (VNum (sign * n), rest)
             | String c _ =>
                 if ((c =? ".")%char || (c =? "e")%char || (c =? "E")%char)%bool
                 then None else Some (VNum (sign * n), rest)
             end = Some (v, r) -> rest = r).
  { intros n sign rest E. destruct rest as [|c rest']; [now injection E|].
    destruct ((c =? ".")%char || (c =? "e")%char || (c =? "E")%char)%bool;
      [discriminate|now injection E]. }
  destruct s as [|c s0]; [discriminate|].
  destruct (c =? "-")%char.
  - destruct (starts_with_digit 10 s0) eqn:Hd; [|discriminate].
    destruct (match s0 with
              | String c0 r0 => if (c0 =? "0")%char then (0, r0) else read_digits 10 0 s0
              | EmptyString => (0, s0)
              end) as [n rest] eqn:E.
    intros H. apply Hfin in H. subst r.
    pose proof (Hrest s0 n rest Hd E). simpl. lia.
  - destruct (starts_with_digit 10 (String c s0)) eqn:Hd; [|discriminate].
    destruct (if (c =? "0")%char then (0, s0) else read_digits 10 0 (String c s0))
      as [n rest] eqn:E.
    intros H. apply Hfin in H. subst r.
    exact (Hrest (String c s0) n rest Hd E).
Qed.

Lemma parse_elements_length (pv : string -> option (value * string)) (fuel : nat) :
  consuming pv ->
  forall s vs r,
    parse_elements pv fuel s = Some (vs, r) -> (String.length r < String.length s)%nat.
Proof.
  intros Hpv. induction fuel as [|f IH]; intros s vs r H; [discriminate|].
  rewrite parse_elements_eq in H.
  destruct (pv s) as [[v r0]|] eqn:Ev; [|discriminate]. apply Hpv in Ev.
  pose proof (skip_ws_length r0) as Hw.
  destruct (skip_ws r0) as [|c r1]; [discriminate|]. simpl in Hw.
  destruct (c =? ",")%char.
  - destruct (parse_elements pv f r1) as [[vs' r2]|] eqn:E; [|discriminate].
    injection H as _ <-. apply IH in E. lia.
  - destruct (c =? "]")%char; [|discriminate]. injection H as _ <-. lia.
Qed.

Lemma parse_members_length (pv : string -> option (value * string)) (fuel : nat) :
  consuming pv ->
  forall s ms r,
    parse_members pv fuel s = Some (ms, r) -> (String.length r < String.length s)%nat.
Proof.
  intros Hpv. induction fuel as [|f IH]; intros s ms r H; [discriminate|].
  rewrite parse_members_eq in H.
  pose proof (skip_ws_length s) as Hw0.
  destruct (skip_ws s) as [|q r0]; [discriminate|]. simpl in Hw0.
  destruct (q =? dquote)%char; [|discriminate].
  destruct (parse_chars r0) as [[key r1]|] eqn:Ek; [|discriminate].
  apply (parse_chars_length _ _ _ _ (le_n _)) in Ek.
  pose proof (skip_ws_length r1) as Hw1.
  destruct (skip_ws r1) as [|c r2]; [discriminate|]. simpl in Hw1.
  destruct (c =? ":")%char; [|discriminate].
  destruct (pv r2) as [[v r3]|] eqn:Ev; [|discriminate]. apply Hpv in Ev.
  pose proof (skip_ws_length r3) as Hw3.
  destruct (skip_ws r3) as [|c' r4]; [discriminate|]. simpl in Hw3.
  destruct (c' =? ",")%char.
  - destruct (parse_members pv f r4) as [[ms' r5]|] eqn:E; [|discriminate].
    injection H as _ <-. apply IH in E. lia.
  - destruct (c' =? "}")%char; [|discriminate]. injection H as _ <-. lia.
Qed.

Lemma parse_value_length (fuel : nat) : consuming (parse_value fuel).
Proof.
  induction fuel as [|f IH]; intros s v r H; [discriminate|].
  cbn [parse_value] in H.
  pose proof (skip_ws_length s) as Hw.
  destruct (skip_ws s) as [|c r0]; [discriminate|]. simpl in Hw.
  destruct (c =? "[")%char.
  { pose proof (skip_ws_length r0) as Hw0.
    destruct (skip_ws r0) as [|c2 r2]; [discriminate|]. simpl in Hw0.
    destruct (c2 =? "]")%char; [injection H as _ <-; lia|].
    destruct (parse_elements (parse_value f) f r0) as [[vs r']|] eqn:E; [|discriminate].
    injection H as _ <-. apply (parse_elements_length _ _ IH) in E. lia. }
  destruct (c =? "{")%char.
  { pose proof (skip_ws_length r0) as Hw0.
    destruct (skip_ws r0) as [|c2 r2]; [discriminate|]. simpl in Hw0.
    destruct (c2 =? "}")%char; [injection H as _ <-; lia|].
    destruct (parse_members (parse_value f) f r0) as [[ms r']|] eqn:E; [|discriminate].
    injection H as _ <-. apply (parse_members_length _ _ IH) in E. lia. }
  destruct (c =? dquote)%char.
  { destruct (parse_chars r0) as [[str r']|] eqn:E; [|discriminate].
    injection H as _ <-. apply (parse_chars_length _ _ _ _ (le_n _)) in E. lia. }
  destruct (c =? "n")%char.
  { destruct (strip_prefix "ull" r0) eqn:E; [|discriminate].
    injection H as _ <-. apply strip_prefix_length in E. lia. }
  destruct (c =? "t")%char.
  { destruct (strip_prefix "rue" r0) eqn:E; [|discriminate].
    injection H as _ <-. apply strip_prefix_length in E. lia. }
  destruct (c =? "f")%char.
  { destruct (strip_prefix "alse" r0) eqn:E; [|discriminate].
    injection H as _ <-. apply strip_prefix_length in E. lia. }
  apply parse_number_length in H. simpl in H. lia.
Qed.

Lemma parse_elements_fuel (pv1 pv2 : string -> option (value * string)) (n : nat) :
  (forall x, (String.length x <= n)%nat -> pv1 x = pv2 x) ->
  consuming pv1 ->
  forall f1 f2 s,
    (String.length s <= n)%nat ->
    (String.length s < f1)%nat -> (String.length s < f2)%nat ->
    parse_elements pv1 f1 s = parse_elements pv2 f2 s.
Proof.
  intros Hpv Hc. induction f1 as [|f1 IH]; intros f2 s Hn H1 H2; [lia|].
  destruct f2 as [|f2]; [lia|].
  rewrite !parse_elements_eq, <- (Hpv s Hn).
  destruct (pv1 s) as [[v r]|] eqn:E; [|reflexivity]. apply Hc in E.
  pose proof (skip_ws_length r) as Hw.
  destruct (skip_ws r) as [|c r']; [reflexivity|]. simpl in Hw.
  destruct (c =? ",")%char; [|reflexivity].
  now rewrite (IH f2 r') by lia.
Qed.

Lemma parse_members_fuel (pv1 pv2 : string -> option (value * string)) (n : nat) :
  (forall x, (String.length x <= n)%nat -> pv1 x = pv2 x) ->
  consuming pv1 ->
  forall f1 f2 s,
    (String.length s <= n)%nat ->
    (String.length s < f1)%nat -> (String.length s < f2)%nat ->
    parse_members pv1 f1 s = parse_members pv2 f2 s.
Proof.
  intros Hpv Hc. induction f1 as [|f1 IH]; intros f2 s Hn H1 H2; [lia|].
  destruct f2 as [|f2]; [lia|].
  rewrite !parse_members_eq.
  pose proof (skip_ws_length s) as Hw0.
  destruct (skip_ws s) as [|q r0]; [reflexivity|]. simpl in Hw0.
  destruct (q =? dquote)%char; [|reflexivity].
  destruct (parse_chars r0) as [[key r1]|] eqn:Ek; [|reflexivity].
  apply (parse_chars_length _ _ _ _ (le_n _)) in Ek.
  pose proof (skip_ws_length r1) as Hw1.
  destruct (skip_ws r1) as [|c r2]; [reflexivity|]. simpl in Hw1.
  destruct (c =? ":")%char; [|reflexivity].
  rewrite <- (Hpv r2) by lia.
  destruct (pv1 r2) as [[v r3]|] eqn:E; [|reflexivity]. apply Hc in E.
  pose proof (skip_ws_length r3) as Hw3.
  destruct (skip_ws r3) as [|c' r4]; [reflexivity|]. simpl in Hw3.
  destruct (c' =? ",")%char; [|reflexivity].
  now rewrite (IH f2 r4) by lia.
Qed.

(** More fuel than the length of the text changes nothing. *)
Lemma parse_value_fuel (f1 : nat) :
  forall f2 s,
    (String.length s < f1)%nat -> (String.length s < f2)%nat ->
    parse_value f1 s = parse_value f2 s.
Proof.
  induction f1 as [|f1 IH]; intros f2 s H1 H2; [lia|].
  destruct f2 as [|f2]; [lia|].
  cbn [parse_value].
  pose proof (skip_ws_length s) as Hw.
  destruct (skip_ws s) as [|c r0]; [reflexivity|]. simpl in Hw.
  assert (Hsub : forall x, (String.length x <= String.length r0)%nat ->
                           parse_value f1 x = parse_value f2 x).
  { intros x Hx. apply IH; lia. }
  rewrite (parse_elements_fuel (parse_value f1) (parse_value f2) (String.length r0)
             Hsub (parse_value_length f1) f1 f2 r0) by lia.
  rewrite (parse_members_fuel (parse_value f1) (parse_value f2) (String.length r0)
             Hsub (parse_value_length f1) f1 f2 r0) by lia.
  reflexivity.
Qed.

Lemma JSON_parse_fuel (text : string) (fuel : nat) :
  (String.length text < fuel)%nat ->
  match parse_value fuel text with
  | Some (v, rest) => if is_empty (skip_ws rest) then Some v else None
  | None => None
  end = JSON_parse text.
Proof.
  intros H. unfold JSON_parse.
  now rewrite (parse_value_fuel fuel (S (String.length text)) text) by lia.
Qed.

End ParserFuel.

(** ** Every gesture keeps the records sound *)

Section SoundSessions.

Lemma find_task_sound (taskId : Z) (ts : list obj) (t : obj) :
  find_task taskId ts = Some t ->
  forallb sound_task ts = true -> sound_task t = true.
Proof.
  intros Hf Hall. apply find_some in Hf as [Hin _].
  rewrite forallb_forall in Hall. now apply Hall.
Qed.

Lemma assign_found_sound (taskId : Z) (t' : obj) (ts : list obj) :
  sound_task t' = true ->
  forallb sound_task ts = true ->
  forallb sound_task (assign_found taskId t' ts) = true.
Proof.
  intros Ht'. induction ts as [|t r IH]; simpl; [reflexivity|]. intros H.
  apply andb_true_iff in H as [H1 H2].
  destruct (has_id taskId t); simpl; [now rewrite Ht', H2|now rewrite H1, IH].
Qed.

Lemma splice_found_sound (taskId : Z) (ts : list obj) :
  forallb sound_task ts = true -> forallb sound_task (splice_found taskId ts) = true.
Proof.
  induction ts as [|t r IH]; simpl; [reflexivity|]. intros H.
  apply andb_true_iff in H as [H1 H2].
  destruct (has_id taskId t); simpl; [exact H2|now rewrite H1, IH].
Qed.

Lemma onEnd_sound (cardIds : list string) (st : state) :
  forallb sound_task (tasks st) = true ->
  forallb sound_task (tasks (onEnd cardIds st)) = true.
Proof.
  intros H. unfold onEnd. simpl. apply forallb_forall. intros t Hin.
  apply in_flat_map in Hin as (card & _ & Hin).
  destruct (card_task_id card) as [taskId|]; [|contradiction].
  destruct (find_task taskId (tasks st)) as [task|] eqn:Hf; [|contradiction].
  destruct Hin as [<-|[]]. exact (find_task_sound _ _ _ Hf H).
Qed.

Lemma import_sound (text : string) (confirmed : bool) (st : state) :
  forallb sound_task (tasks st) = true ->
  forallb sound_task (tasks (fst (handleFileImport text confirmed st))) = true.
Proof.
  intros H. unfold handleFileImport.
  destruct (JSON_parse text) as [v|] eqn:Ep; [|exact H].
  apply JSON_parse_wf in Ep.
  destruct v as [| | | |l|]; try exact H.
  destruct l as [|t r]; [exact H|].
  unfold import_parsed.
  destruct (every_task_check (t :: r)) as [[]|] eqn:E; try exact H.
  destruct confirmed; [|exact H]. cbn [fst tasks saveTasks set_tasks].
  apply every_task_check_true in E.
  cbn [well_formed] in Ep. rewrite forallb_forall in Ep.
  apply forallb_forall. intros o Ho. unfold objects_of in Ho.
  apply in_flat_map in Ho as (x & Hx & Ho).
  rewrite Forall_forall in E. destruct (E x Hx) as (o' & -> & Himp).
  destruct Ho as [<-|[]]. unfold sound_task. rewrite Himp. simpl.
  exact (Ep _ Hx).
Qed.

Lemma updateProgress_sound (taskId change : Z) (iso : string) (st st' : state) :
  forallb sound_task (tasks st) = true ->
  updateProgress taskId change iso st = Some st' ->
  forallb sound_task (tasks st') = true.
Proof.
  intros H Hup. destruct (find_task taskId (tasks st)) as [task|] eqn:Hf.
  - destruct (find_task_split taskId _ _ Hf) as (pre & post & Hts & Hpre & Ht).
    rewrite (updateProgress_found taskId change iso st pre post task Hts Hpre Ht) in Hup.
    destruct (progressed change iso task) as [task'|] eqn:Hp; [|discriminate].
    injection Hup as <-. cbn [tasks saveTasks set_tasks].
    rewrite Hts, forallb_app in H. simpl in H.
    apply andb_true_iff in H as [H1 H]. apply andb_true_iff in H as [H2 H3].
    rewrite forallb_app. simpl.
    now rewrite H1, H3, (progressed_sound change iso task task' Hp H2).
  - unfold updateProgress in Hup. rewrite Hf in Hup. now injection Hup as <-.
Qed.

Lemma updateTask_sound (n c t iso : string) (st : state) :
  forallb sound_task (tasks st) = true ->
  forallb sound_task (tasks (updateTask n c t iso st)) = true.
Proof.
  intros H. unfold updateTask.
  destruct (currentEditingTaskId st) as [editing|]; [|exact H].
  destruct (find_task editing (tasks st)) as [task|] eqn:Hf; [|exact H].
  destruct (parseInt c) as [newCurrent|]; [|exact H].
  destruct (parseInt t) as [newTarget|]; [|exact H].
  destruct (trim n) as [|a r] eqn:En; [exact H|]. cbn [is_empty orb].
  destruct ((newTarget <? 1) || (newCurrent <? 0) || (newCurrent >? newTarget))%bool;
    [exact H|].
  cbn [tasks saveTasks set_tasks]. apply assign_found_sound; [|exact H].
  apply (edited_sound (String a r) newCurrent newTarget iso task); [discriminate|].
  exact (find_task_sound _ _ _ Hf H).
Qed.

Lemma step_sound (g : gesture) (st st' : state) :
  clock_started g = true ->
  forallb sound_task (tasks st) = true ->
  step g st = Some st' ->
  forallb sound_task (tasks st') = true.
Proof.
  intros Hclock H Hstep. destruct g; simpl in Hstep.
  - injection Hstep as <-. unfold addTask.
    destruct (new_task nameField targetField now createdIso modifiedIso) as [t|] eqn:E;
      [|exact H].
    cbn [tasks saveTasks set_tasks]. rewrite forallb_app, H. simpl.
    rewrite andb_true_r. simpl in Hclock. apply negb_true_iff, Z.eqb_neq in Hclock.
    exact (new_task_sound _ _ _ _ _ _ Hclock E).
  - exact (updateProgress_sound _ _ _ _ _ H Hstep).
  - injection Hstep as <-. unfold openEditTaskModal.
    destruct (find_task taskId (tasks st)); exact H.
  - injection Hstep as <-. now apply updateTask_sound.
  - injection Hstep as <-. unfold deleteTask. destruct confirmed; [|exact H].
    destruct (find_task taskId (tasks st)); [|exact H].
    cbn [tasks saveTasks set_tasks]. now apply splice_found_sound.
  - injection Hstep as <-. now apply onEnd_sound.
  - injection Hstep as <-. now apply import_sound.
  - injection Hstep as <-. unfold clearAllData.
    destruct confirmed1, confirmed2; try exact H. reflexivity.
Qed.

(** Whatever the session, the records of a state reached from sound records
    are sound. *)
Lemma run_sound (gs : list gesture) :
  forall st st' : state,
    forallb clock_started gs = true ->
    forallb sound_task (tasks st) = true ->
    run gs st = Some st' ->
    forallb sound_task (tasks st') = true.
Proof.
  induction gs as [|g r IH]; intros st st' Hclock H Hrun; simpl in *.
  - now injection Hrun as <-.
  - apply andb_true_iff in Hclock as [Hg Hr].
    destruct (step g st) as [st1|] eqn:E; [|discriminate].
    exact (IH st1 st' Hr (step_sound g st st1 Hg H E) Hrun).
Qed.

End SoundSessions.

(** ** Export, then import *)

Section ExportImport.

Lemma sound_tasks_well_formed (ts : list obj) :
  forallb sound_task ts = true -> well_formed (VArr (map VObj ts)) = true.
Proof.
  cbn [well_formed]. induction ts as [|t r IH]; simpl; [reflexivity|]. intros H.
  apply andb_true_iff in H as [Ht Hr]. unfold sound_task in Ht.
  apply andb_true_iff in Ht as [_ Hwf]. cbn [well_formed] in Hwf.
  now rewrite Hwf, IH.
Qed.

Lemma sound_tasks_acceptable (ts : list obj) :
  ts <> [] -> forallb sound_task ts = true -> acceptable (VArr (map VObj ts)).
Proof.
  intros Hne H. exists (map VObj ts). split; [reflexivity|]. split.
  - destruct ts; [congruence|discriminate].
  - apply Forall_forall. intros x Hx. apply in_map_iff in Hx as (o & <- & Ho).
    exists o. split; [reflexivity|]. rewrite forallb_forall in H.
    specialize (H o Ho). unfold sound_task in H.
    now apply andb_true_iff in H as [H _].
Qed.

Lemma import_of_export (st st0 : state) :
  tasks st <> [] ->
  forallb sound_task (tasks st) = true ->
  handleFileImport (exportData st) true st0
  = (saveTasks (set_tasks (tasks st) st0), Imported (List.length (tasks st))).
Proof.
  intros Hne H. unfold handleFileImport, exportData.
  rewrite (JSON_parse_stringify 2 _ (sound_tasks_well_formed _ H)).
  rewrite (import_parsed_acceptable _ true st0 (sound_tasks_acceptable _ Hne H)).
  now rewrite objects_of_map, length_map.
Qed.

Lemma import_of_empty_export (st st0 : state) (confirmed : bool) :
  tasks st = [] ->
  handleFileImport (exportData st) confirmed st0 = (st0, NoTasksFound).
Proof. intros H. unfold handleFileImport, exportData. rewrite H. reflexivity. Qed.

End ExportImport.

(** C5, as stated, fails on the empty sequence: its export is the text of an
    empty array, which does not pass the validation of the import ("No valid
    tasks found"), so a session that holds one record still holds it after
    importing the export of the empty sequence. *)
Lemma export_of_empty_sequence_is_refused :
  exportData empty_state = String "[" (String "]" EmptyString)
  /\ handleFileImport (exportData empty_state) true empty_state
     = (empty_state, NoTasksFound)
  /\ handleFileImport (exportData empty_state) true one_task_state
     = (one_task_state, NoTasksFound)
  /\ tasks (fst (handleFileImport (exportData empty_state) true one_task_state))
     <> tasks empty_state.
Proof.
  split; [reflexivity|]. split; [reflexivity|]. split; [reflexivity|].
  discriminate.
Qed.

Lemma exact_value_well_formed (v : value) :
  exact_value v = true -> well_formed v = true.
Proof.
  induction v as [| | | |items IH|props IH] using value_nested_ind;
    cbn [exact_value well_formed]; auto.
  - intros H. rewrite forallb_forall in H. apply forallb_forall. intros x Hx.
    rewrite Forall_forall in IH. exact (IH x Hx (H x Hx)).
  - intros H. apply andb_true_iff in H as [Hd H]. rewrite Hd. simpl.
    rewrite forallb_forall in H. apply forallb_forall. intros kv Hkv.
    rewrite Forall_forall in IH. apply (IH kv Hkv).
    specialize (H kv Hkv). now apply andb_true_iff in H as [_ H].
Qed.

Lemma exact_tasks_sound (ts : list obj) :
  forallb importable ts = true -> forallb exact_task ts = true ->
  forallb sound_task ts = true.
Proof.
  intros Hi He. rewrite forallb_forall in Hi, He. apply forallb_forall.
  intros t Ht. unfold sound_task. rewrite (Hi t Ht). simpl.
  exact (exact_value_well_formed (VObj t) (He t Ht)).
Qed.

(** C5, amended: exporting a non-empty sequence whose records the import
    accepts and whose numbers are safe integers, and importing the text with
    the confirmation given, in whatever state, makes the sequence that of the
    exporting state, timestamps included: the text parses to the sequence, the
    parsed array passes the validation, and the sequence after the import is
    the exported one.  The export of an empty sequence is refused and changes
    nothing.  (A number that is no safe integer is outside the statement: a
    target that [parseInt] read as [Infinity] passes the validation and is
    exported as [null].) *)
Theorem export_then_import_restores_sequence :
  forall st st0 : state,
    (tasks st <> [] ->
     forallb importable (tasks st) = true ->
     forallb exact_task (tasks st) = true ->
     JSON_parse (exportData st) = Some (VArr (map VObj (tasks st)))
     /\ acceptable (VArr (map VObj (tasks st)))
     /\ tasks (fst (handleFileImport (exportData st) true st0)) = tasks st
     /\ snd (handleFileImport (exportData st) true st0)
        = Imported (List.length (tasks st))
     /\ handleFileImport (exportData st) false st0 = (st0, Declined))
    /\ (tasks st = [] ->
        forall confirmed,
          handleFileImport (exportData st) confirmed st0 = (st0, NoTasksFound)).
Proof.
  intros st st0. split.
  - intros Hne Hi He. pose proof (exact_tasks_sound _ Hi He) as H.
    rewrite (import_of_export st st0 Hne H).
    split; [exact (JSON_parse_stringify 2 _ (sound_tasks_well_formed _ H))|].
    split; [exact (sound_tasks_acceptable _ Hne H)|].
    repeat split. unfold handleFileImport, exportData.
    rewrite (JSON_parse_stringify 2 _ (sound_tasks_well_formed _ H)).
    now rewrite (import_parsed_acceptable _ false st0 (sound_tasks_acceptable _ Hne H)).
  - intros H confirmed. now apply import_of_empty_export.
Qed.
(** ** The scenarios of the specification *)

Example scenario_three_increments :
  option_map (fun st => map (getProp "current") (tasks st))
    (updateProgress_all
       [(1730512345678, 1, "t1"); (1730512345678, 1, "t2"); (1730512345678, 1, "t3")]
       (addTask "Read books" "10" 1730512345678 "t0" "t0" empty_state))
  = Some [Some (VNum 3)].
Proof. reflexivity. Qed.

Example scenario_create_without_name :
  addTask EmptyString "5" 1730512399999 "t" "t" one_task_state = one_task_state.
Proof. reflexivity. Qed.

Example scenario_edit_above_target :
  updateTask "X" "8" "5" "t" editing_state = editing_state.
Proof. reflexivity. Qed.

Example scenario_import_one_record :
  let record := [("id", VNum 1); ("name", VStr "A"); ("target", VNum 5);
                 ("current", VNum 2)] in
  let text := JSON_stringify 0 (VArr [VObj record]) in
  handleFileImport text true two_task_state
  = ({| tasks := [record]; currentEditingTaskId := None; storage := Some text |},
     Imported 1).
Proof. reflexivity. Qed.

Example scenario_clear_all :
  clearAllData true true two_task_state
  = {| tasks := []; currentEditingTaskId := None;
       storage := Some (String "[" (String "]" EmptyString)) |}.
Proof. reflexivity. Qed.

(** * The statements at concrete inputs *)


Lemma updateProgress_changes_one_record_witness :
  forallb numeric (Shared.records two_task_store) = true
  /\ (exists s',
        Shared.updateProgress 1730512399999 (-1) "t" two_task_store = Some s'
        /\ map (getProp "current") (Shared.records s') = [Some (VNum 3); Some (VNum 4)]
        /\ map (getProp "lastModified") (Shared.records s')
           = [Some (VStr "2024-11-02T01:52:25.678Z"); Some (VStr "t")]
        /\ Shared.tasks s' = Shared.tasks two_task_store
        /\ Shared.currentEditingTaskId s' = Shared.currentEditingTaskId two_task_store
        /\ (((forall b, In b (Shared.tasks two_task_store) ->
                id_of (Shared.deref (Shared.heap two_task_store) b)
                <> Some 1730512399999)
             /\ s' = two_task_store)
            \/ exists pre a post,
                Shared.tasks two_task_store = pre ++ a :: post
                /\ (forall b, In b pre ->
                      id_of (Shared.deref (Shared.heap two_task_store) b)
                      <> Some 1730512399999)
                /\ id_of (Shared.deref (Shared.heap two_task_store) a)
                   = Some 1730512399999
                /\ (forall b, b <> a ->
                      Shared.deref (Shared.heap s') b
                      = Shared.deref (Shared.heap two_task_store) b)
                /\ (forall k, k <> "current" -> k <> "lastModified" ->
                      getProp k (Shared.deref (Shared.heap s') a)
                      = getProp k (Shared.deref (Shared.heap two_task_store) a))
                /\ (~ In a post ->
                      Shared.records s'
                      = map (Shared.deref (Shared.heap two_task_store)) pre
                        ++ Shared.deref (Shared.heap s') a
                        :: map (Shared.deref (Shared.heap two_task_store)) post)))
  /\ Shared.run twin_session Shared.empty = Some twice_listed_store
  /\ (exists s',
        Shared.updateProgress 1 1 "t" twice_listed_store = Some s'
        /\ Shared.tasks s' = [0; 0]%nat
        /\ map (getProp "current") (Shared.records s') = [Some (VNum 3); Some (VNum 3)]
        /\ Shared.deref (Shared.heap s') 1 = twin_b).
Proof.
  split; [reflexivity|]. split.
  - eexists. split; [vm_compute; reflexivity|].
    split; [reflexivity|]. split; [reflexivity|].
    exact (proj2 (updateProgress_changes_one_record 1730512399999 (-1) "t"
                    two_task_store) _ eq_refl).
  - split; [reflexivity|].
    eexists. split; [vm_compute; reflexivity|].
    split.
    + exact (proj1 (proj2 (updateProgress_changes_one_record 1 1 "t"
                             twice_listed_store) _ eq_refl)).
    + split; reflexivity.
Defined.
Lemma absent_id_is_noop_witness :
  (forall t, In t (tasks one_task_state) -> has_id 5 t = false)
  /\ updateProgress 5 1 "t" one_task_state = Some one_task_state
  /\ deleteTask 5 true one_task_state = one_task_state.
Proof.
  assert (H : forall t, In t (tasks one_task_state) -> has_id 5 t = false).
  { intros t [<-|[]]. reflexivity. }
  split; [exact H|]. exact (absent_id_is_noop 5 1 "t" true one_task_state H).
Defined.

Lemma updateTask_validates_what_parseInt_reads_witness :
  Shared.updateTask "   " "4" "5" "t" editing_store = editing_store
  /\ Shared.updateTask "Run" "abc" "5" "t" editing_store = editing_store
  /\ Shared.updateTask "Run" "4" EmptyString "t" editing_store = editing_store
  /\ Shared.updateTask "Run" "0" "0" "t" editing_store = editing_store
  /\ Shared.updateTask "Run" "-1" "5" "t" editing_store = editing_store
  /\ Shared.updateTask "Run" "8" "5" "t" editing_store = editing_store
  /\ Shared.records (Shared.updateTask " Run far " "4 km" "12" "t" editing_store)
     = [sample_task;
        [("id", VNum 1730512399999); ("name", VStr "Run far"); ("target", VNum 12);
         ("current", VNum 4); ("createdAt", VStr "2024-11-02T01:53:19.999Z");
         ("lastModified", VStr "t")]]
  /\ (exists c g s',
        parseInt "4 km" = Some c /\ parseInt "12" = Some g
        /\ 1 <= g /\ 0 <= c <= g
        /\ Shared.updateTask " Run far " "4 km" "12" "t" editing_store = s'
        /\ Shared.tasks s' = Shared.tasks editing_store
        /\ Shared.currentEditingTaskId s' = Some 1730512399999
        /\ (forall b, b <> 1%nat ->
              Shared.deref (Shared.heap s') b
              = Shared.deref (Shared.heap editing_store) b)
        /\ getProp "name" (Shared.deref (Shared.heap s') 1) = Some (VStr (trim " Run far "))
        /\ getProp "current" (Shared.deref (Shared.heap s') 1) = Some (VNum c)
        /\ getProp "target" (Shared.deref (Shared.heap s') 1) = Some (VNum g)
        /\ getProp "lastModified" (Shared.deref (Shared.heap s') 1) = Some (VStr "t")
        /\ (forall k, k <> "name" -> k <> "current" -> k <> "target" ->
                      k <> "lastModified" ->
                      getProp k (Shared.deref (Shared.heap s') 1)
                      = getProp k (Shared.deref (Shared.heap editing_store) 1)))
  /\ parseInt "-12" = Some (integer_value "-12")
  /\ (spec_edit_fails "Run" "8" "5" <-> edit_rejected "Run" "8" "5").
Proof.
  assert (Hok : ~ edit_rejected " Run far " "4 km" "12").
  { intros [H|[H|[H|[(g & H & L)|[(c & H & L)|(c & g & H1 & H2 & L)]]]]];
      try discriminate H.
    - injection H as <-. lia.
    - injection H as <-. lia.
    - injection H1 as <-. injection H2 as <-. lia. }
  split.
  { apply (proj1 (updateTask_validates_what_parseInt_reads "   " "4" "5" "t"
                    editing_store eq_refl eq_refl)).
    left. reflexivity. }
  split.
  { apply (proj1 (updateTask_validates_what_parseInt_reads "Run" "abc" "5" "t"
                    editing_store eq_refl eq_refl)).
    right; left. reflexivity. }
  split.
  { apply (proj1 (updateTask_validates_what_parseInt_reads "Run" "4" EmptyString "t"
                    editing_store eq_refl eq_refl)).
    right; right; left. reflexivity. }
  split.
  { apply (proj1 (updateTask_validates_what_parseInt_reads "Run" "0" "0" "t"
                    editing_store eq_refl eq_refl)).
    right; right; right; left. exists 0. split; [reflexivity|lia]. }
  split.
  { apply (proj1 (updateTask_validates_what_parseInt_reads "Run" "-1" "5" "t"
                    editing_store eq_refl eq_refl)).
    right; right; right; right; left. exists (-1). split; [reflexivity|lia]. }
  split.
  { apply (proj1 (updateTask_validates_what_parseInt_reads "Run" "8" "5" "t"
                    editing_store eq_refl eq_refl)).
    do 5 right. exists 8, 5. repeat split. }
  split; [reflexivity|]. split.
  { refine (proj1 (proj2 (updateTask_validates_what_parseInt_reads " Run far " "4 km" "12"
                            "t" editing_store eq_refl eq_refl))
              1730512399999 [0%nat] [] 1%nat Hok eq_refl eq_refl _ eq_refl).
    intros b [<-|[]]. discriminate. }
  pose proof (proj2 (proj2 (updateTask_validates_what_parseInt_reads "Run" "-12" "5" "t"
                              editing_store eq_refl eq_refl)) eq_refl eq_refl)
    as (H1 & _ & _).
  split; [exact H1|].
  exact (proj2 (proj2 (proj2 (proj2 (updateTask_validates_what_parseInt_reads "Run" "8" "5"
                                       "t" editing_store eq_refl eq_refl))
                               eq_refl eq_refl))).
Defined.

Lemma import_is_all_or_nothing_witness :
  acceptable (VArr [VObj over_target_task])
  /\ (exists n, snd (import_parsed (VArr [VObj over_target_task]) true one_task_state)
                = Imported n)
  /\ map VObj (tasks (fst (import_parsed (VArr [VObj over_target_task]) true
                             one_task_state)))
     = [VObj over_target_task]
  /\ ~ acceptable (VArr [VObj over_target_task; VObj [("id", VNum 2)]])
  /\ fst (import_parsed (VArr [VObj over_target_task; VObj [("id", VNum 2)]]) true
            one_task_state) = one_task_state
  /\ handleFileImport "{" true one_task_state = (one_task_state, ReadError).
Proof.
  pose proof (import_is_all_or_nothing (VArr [VObj over_target_task]) true one_task_state)
    as (Hiff & _ & Hverb & _ & _ & Hacc & _).
  pose proof (import_is_all_or_nothing
                (VArr [VObj over_target_task; VObj [("id", VNum 2)]]) true one_task_state)
    as (Hiff' & Hrej & _ & Hparse & _).
  assert (Hno : ~ acceptable (VArr [VObj over_target_task; VObj [("id", VNum 2)]])).
  { intros H. apply Hiff' in H as (n & H). discriminate H. }
  split; [exact Hacc|]. split; [exact (proj1 Hiff Hacc)|].
  split; [exact (proj1 (Hverb _ eq_refl Hacc))|].
  split; [exact Hno|]. split; [exact (proj1 (Hrej Hno))|].
  exact (Hparse "{" eq_refl).
Defined.

Lemma export_then_import_restores_sequence_witness :
  tasks two_task_state <> []
  /\ forallb importable (tasks two_task_state) = true
  /\ forallb exact_task (tasks two_task_state) = true
  /\ JSON_parse (exportData two_task_state)
     = Some (VArr (map VObj (tasks two_task_state)))
  /\ acceptable (VArr (map VObj (tasks two_task_state)))
  /\ tasks (fst (handleFileImport (exportData two_task_state) true one_task_state))
     = tasks two_task_state
  /\ snd (handleFileImport (exportData two_task_state) true one_task_state)
     = Imported 2
  /\ handleFileImport (exportData two_task_state) false one_task_state
     = (one_task_state, Declined)
  /\ handleFileImport (exportData empty_state) true one_task_state
     = (one_task_state, NoTasksFound).
Proof.
  assert (Hne : tasks two_task_state <> []) by discriminate.
  split; [exact Hne|]. split; [reflexivity|]. split; [reflexivity|].
  pose proof (proj1 (export_then_import_restores_sequence two_task_state one_task_state)
                Hne eq_refl eq_refl) as (H1 & H2 & H3 & H4 & H5).
  split; [exact H1|]. split; [exact H2|]. split; [exact H3|].
  split; [exact H4|]. split; [exact H5|].
  exact (proj2 (export_then_import_restores_sequence empty_state one_task_state)
           eq_refl true).
Defined.
Lemma reorder_keeps_listed_records_witness :
  Forall (fun i => safe_integer i = true) [1730512399999; 7; 1730512345678]
  /\ NoDup (numeric_ids (tasks two_task_state))
  /\ map id_of (tasks (reorder [1730512399999; 7; 1730512345678] two_task_state))
     = [Some 1730512399999; Some 1730512345678]
  /\ map (getProp "name")
       (tasks (reorder [1730512399999; 7; 1730512345678] two_task_state))
     = [Some (VStr "Run"); Some (VStr "Read books")]
  /\ (forall t,
        In t (tasks (reorder [1730512399999; 7; 1730512345678] two_task_state)) <->
        In t (tasks two_task_state)
        /\ exists i, In i [1730512399999; 7; 1730512345678] /\ id_of t = Some i)
  /\ map id_of (tasks (reorder [1730512399999; 7] two_task_state))
     = [Some 1730512399999]
  /\ tasks (reorder ([1730512399999] ++ 7 :: [1730512345678]) two_task_state)
     = tasks (reorder ([1730512399999] ++ [1730512345678]) two_task_state).
Proof.
  assert (Hsafe : Forall (fun i => safe_integer i = true)
                    [1730512399999; 7; 1730512345678]).
  { repeat constructor. }
  assert (Hnd : NoDup (numeric_ids (tasks two_task_state))).
  { repeat constructor; simpl; intuition discriminate. }
  assert (Habs : ~ In 7 (numeric_ids (tasks two_task_state))).
  { simpl. intuition discriminate. }
  pose proof (reorder_keeps_listed_records [1730512399999; 7; 1730512345678]
                two_task_state Hsafe) as (Hids & _ & Huniq & Hdrop).
  split; [exact Hsafe|]. split; [exact Hnd|]. split; [exact Hids|].
  split; [reflexivity|]. split; [exact (Huniq Hnd)|]. split.
  - refine (proj1 (reorder_keeps_listed_records [1730512399999; 7] two_task_state _)).
    repeat constructor.
  - exact (Hdrop [1730512399999] [1730512345678] 7 eq_refl Habs).
Defined.
Lemma issued_ids_are_the_clock_readings_witness :
  StronglySorted Z.lt (creation_clock sample_session)
  /\ issued_ids sample_session = [1730512345678; 1730512399999]
  /\ creation_clock sample_session = [1730512345678; 1730512399999]
  /\ issued_ids sample_session = creation_clock sample_session
  /\ StronglySorted Z.lt (issued_ids sample_session)
  /\ (forall t, created (nth 2 sample_session (GClear false false)) = Some t ->
                has_id 1730512345678 t = false)
  /\ issued_ids reuse_session = creation_clock reuse_session.
Proof.
  assert (Hclock : StronglySorted Z.lt (creation_clock sample_session)).
  { repeat constructor. }
  pose proof (issued_ids_are_the_clock_readings sample_session)
    as (Heq & _ & Hiff & Hinc).
  split; [exact Hclock|]. split; [reflexivity|]. split; [reflexivity|].
  split; [exact Heq|]. split; [exact (proj2 Hiff Hclock)|]. split.
  - intros t Ht.
    apply (proj2 (Hinc Hclock)
             [GAdd "Read books" "10" 1730512345678 "2024-11-02T01:52:25.678Z"
                "2024-11-02T01:52:25.678Z"]
             1730512345678 true
             (GAdd "Run" "5" 1730512399999 "2024-11-02T01:53:19.999Z"
                "2024-11-02T01:53:19.999Z") [] t eq_refl Ht).
    left. reflexivity.
  - exact (proj1 (issued_ids_are_the_clock_readings reuse_session)).
Defined.
(** * Further properties

    ** deleteTask *)

Section Deleting.

Lemma splice_found_at (taskId : Z) (pre post : list obj) (task : obj) :
  (forall t, In t pre -> has_id taskId t = false) ->
  has_id taskId task = true ->
  splice_found taskId (pre ++ task :: post) = pre ++ post.
Proof.
  intros Hpre Ht. induction pre as [|t r IH]; simpl.
  - now rewrite Ht.
  - rewrite (Hpre t (or_introl eq_refl)). f_equal. apply IH.
    intros; apply Hpre; now right.
Qed.

Lemma numeric_ids_app (l1 l2 : list obj) :
  numeric_ids (l1 ++ l2) = numeric_ids l1 ++ numeric_ids l2.
Proof. unfold numeric_ids. apply flat_map_app. Qed.

Lemma numeric_ids_cons (t : obj) (l : list obj) :
  numeric_ids (t :: l) = option_list (id_of t) ++ numeric_ids l.
Proof. reflexivity. Qed.

Lemma deleteTask_found (taskId : Z) (st : state) (pre post : list obj) (task : obj) :
  tasks st = pre ++ task :: post ->
  (forall t, In t pre -> has_id taskId t = false) ->
  has_id taskId task = true ->
  deleteTask taskId true st = saveTasks (set_tasks (pre ++ post) st).
Proof.
  intros Hts Hpre Ht. unfold deleteTask.
  rewrite Hts, (find_task_at taskId pre post task Hpre Ht).
  now rewrite (splice_found_at taskId pre post task Hpre Ht).
Qed.

End Deleting.



(** X2: on a sequence without duplicate ids, a confirmed [deleteTask] leaves
    no record with the id and no duplicate, so deleting the same id again, or
    updating its progress, changes nothing more. *)
Theorem deleteTask_leaves_no_record_with_the_id :
  forall (taskId : Z) (st : state),
    NoDup (numeric_ids (tasks st)) ->
    (forall t, In t (tasks (deleteTask taskId true st)) -> has_id taskId t = false)
    /\ NoDup (numeric_ids (tasks (deleteTask taskId true st)))
    /\ (forall confirmed,
        deleteTask taskId confirmed (deleteTask taskId true st)
        = deleteTask taskId true st)
    /\ (forall change iso,
        updateProgress taskId change iso (deleteTask taskId true st)
        = Some (deleteTask taskId true st)).
Proof.
  intros taskId st Hnd.
  assert (Habs : forall t, In t (tasks (deleteTask taskId true st)) ->
                           has_id taskId t = false).
  { destruct (find_task taskId (tasks st)) as [task|] eqn:Hf.
    - destruct (find_task_split taskId _ _ Hf) as (pre & post & Hts & Hpre & Ht).
      rewrite (deleteTask_found taskId st pre post task Hts Hpre Ht).
      cbn [tasks saveTasks set_tasks]. intros t Hin.
      destruct (has_id taskId t) eqn:E; [|reflexivity]. exfalso.
      rewrite Hts, numeric_ids_app, numeric_ids_cons in Hnd.
      apply has_id_id_of in Ht. rewrite Ht in Hnd. simpl in Hnd.
      apply NoDup_remove_2 in Hnd. apply Hnd. rewrite <- numeric_ids_app.
      exact (has_id_in_numeric_ids taskId t _ Hin E).
    - unfold deleteTask. rewrite Hf. now apply find_task_none. }
  split; [exact Habs|]. split.
  - destruct (find_task taskId (tasks st)) as [task|] eqn:Hf.
    + destruct (find_task_split taskId _ _ Hf) as (pre & post & Hts & Hpre & Ht).
      rewrite (deleteTask_found taskId st pre post task Hts Hpre Ht).
      cbn [tasks saveTasks set_tasks].
      rewrite Hts, numeric_ids_app, numeric_ids_cons in Hnd.
      apply has_id_id_of in Ht. rewrite Ht in Hnd. simpl in Hnd.
      apply NoDup_remove_1 in Hnd. now rewrite numeric_ids_app.
    + unfold deleteTask. now rewrite Hf.
  - apply find_task_none in Habs. split.
    + intros confirmed. unfold deleteTask at 1. rewrite Habs. now destruct confirmed.
    + intros change iso. unfold updateProgress. now rewrite Habs.
Qed.

Lemma deleteTask_leaves_no_record_with_the_id_witness :
  NoDup (numeric_ids (tasks two_task_state))
  /\ (forall t, In t (tasks (deleteTask 1730512345678 true two_task_state)) ->
                has_id 1730512345678 t = false)
  /\ NoDup (numeric_ids (tasks (deleteTask 1730512345678 true two_task_state)))
  /\ (forall confirmed,
      deleteTask 1730512345678 confirmed (deleteTask 1730512345678 true two_task_state)
      = deleteTask 1730512345678 true two_task_state)
  /\ (forall change iso,
      updateProgress 1730512345678 change iso
        (deleteTask 1730512345678 true two_task_state)
      = Some (deleteTask 1730512345678 true two_task_state)).
Proof.
  assert (Hnd : NoDup (numeric_ids (tasks two_task_state))).
  { repeat constructor; simpl; intuition discriminate. }
  split; [exact Hnd|].
  exact (deleteTask_leaves_no_record_with_the_id 1730512345678 two_task_state Hnd).
Defined.

(** ** Ids and creation dates *)

Section Immutable.

Lemma assign_found_keeps_prop (k : string) (taskId : Z) (task task' : obj)
    (ts : list obj) :
  find_task taskId ts = Some task ->
  getProp k task' = getProp k task ->
  map (getProp k) (assign_found taskId task' ts) = map (getProp k) ts.
Proof.
  intros Hf Hk.
  destruct (find_task_split taskId _ _ Hf) as (pre & post & -> & Hpre & Ht).
  rewrite (assign_found_at taskId pre post task task' Hpre Ht).
  rewrite !map_app. simpl. now rewrite Hk.
Qed.

Lemma updateTask_keeps_prop (k : string) (n c t iso : string) (st : state) :
  k <> "name" -> k <> "current" -> k <> "target" -> k <> "lastModified" ->
  map (getProp k) (tasks (updateTask n c t iso st)) = map (getProp k) (tasks st).
Proof.
  intros H1 H2 H3 H4. unfold updateTask.
  destruct (currentEditingTaskId st) as [editing|]; [|reflexivity].
  destruct (find_task editing (tasks st)) as [task|] eqn:Hf; [|reflexivity].
  destruct (parseInt c) as [newCurrent|]; [|reflexivity].
  destruct (parseInt t) as [newTarget|]; [|reflexivity].
  destruct (is_empty (trim n) || (newTarget <? 1) || (newCurrent <? 0)
            || (newCurrent >? newTarget))%bool; [reflexivity|].
  cbn [tasks saveTasks set_tasks].
  apply (assign_found_keeps_prop k editing task _ _ Hf).
  rewrite !getProp_setProp_other; auto.
Qed.

Lemma updateProgress_keeps_prop (k : string) (taskId change : Z) (iso : string)
    (st st' : state) :
  k <> "current" -> k <> "lastModified" ->
  updateProgress taskId change iso st = Some st' ->
  map (getProp k) (tasks st') = map (getProp k) (tasks st).
Proof.
  intros H1 H2 Hup. unfold updateProgress in Hup.
  destruct (find_task taskId (tasks st)) as [task|] eqn:Hf;
    [|now injection Hup as <-].
  destruct (getProp "current" task) as [[| |cur| | |]|]; try discriminate.
  destruct (getProp "target" task) as [[| |tg| | |]|]; try discriminate.
  injection Hup as <-. cbn [tasks saveTasks set_tasks].
  apply (assign_found_keeps_prop k taskId task _ _ Hf).
  rewrite !getProp_setProp_other; auto.
Qed.

End Immutable.

(** X3: neither an edit nor a progress update touches the [id] or the
    [createdAt] of any record: position by position, both are what they
    were. *)
Theorem id_and_createdAt_are_never_rewritten :
  forall (k : string) (st : state),
    k = "id" \/ k = "createdAt" ->
    (forall n c t iso,
        map (getProp k) (tasks (updateTask n c t iso st)) = map (getProp k) (tasks st))
    /\ (forall taskId change iso st',
        updateProgress taskId change iso st = Some st' ->
        map (getProp k) (tasks st') = map (getProp k) (tasks st)).
Proof.
  intros k st Hk. split.
  - intros n c t iso.
    destruct Hk as [-> | ->]; apply updateTask_keeps_prop; discriminate.
  - intros taskId change iso st' Hup.
    destruct Hk as [-> | ->];
      apply (updateProgress_keeps_prop _ taskId change iso st st');
      try discriminate; exact Hup.
Qed.

Lemma id_and_createdAt_are_never_rewritten_witness :
  ("id" = "id" \/ "id" = "createdAt")
  /\ map (getProp "id") (tasks (updateTask "Walk" "2" "4" "t" editing_state))
     = map (getProp "id") (tasks editing_state)
  /\ (forall st',
      updateProgress 1730512345678 4 "t" editing_state = Some st' ->
      map (getProp "id") (tasks st') = map (getProp "id") (tasks editing_state)).
Proof.
  split; [left; reflexivity|].
  pose proof (id_and_createdAt_are_never_rewritten "id" editing_state
                (or_introl eq_refl)) as [H1 H2].
  split; [exact (H1 "Walk" "2" "4" "t")|].
  exact (H2 1730512345678 4 "t").
Defined.

(** X4: a successful [addTask] keeps the ids of the sequence distinct exactly
    when the reading of [Date.now()] is not yet the id of a record: nothing in
    [addTask] looks at the ids already in use. *)
Theorem addTask_ids_stay_distinct_iff_clock_is_fresh :
  forall (n tf : string) (now : Z) (c m : string) (st : state),
    ~ create_rejected n tf ->
    (NoDup (numeric_ids (tasks (addTask n tf now c m st)))
     <-> NoDup (numeric_ids (tasks st)) /\ ~ In now (numeric_ids (tasks st))).
Proof.
  intros n tf now c m st Hok.
  destruct (new_task n tf now c m) as [t|] eqn:E.
  - rewrite (addTask_created n tf now c m t st E), numeric_ids_app.
    destruct (new_task_accepted _ _ _ _ _ _ E) as (g & _ & _ & ->).
    change (numeric_ids [[("id", VNum now); ("name", VStr (trim n));
                          ("target", VNum g); ("current", VNum 0);
                          ("createdAt", VStr c); ("lastModified", VStr m)]])
      with [now].
    split.
    + intros H. split.
      * rewrite <- (app_nil_r (numeric_ids (tasks st))).
        exact (NoDup_remove_1 _ _ _ H).
      * rewrite <- (app_nil_r (numeric_ids (tasks st))).
        exact (NoDup_remove_2 _ _ _ H).
    + intros [H1 H2].
      apply (Permutation_NoDup (Permutation_cons_append _ _)).
      now constructor.
  - exfalso. apply Hok. now apply (new_task_rejected n tf now c m).
Qed.

Lemma addTask_ids_stay_distinct_iff_clock_is_fresh_witness :
  ~ create_rejected "Run" "5"
  /\ (NoDup (numeric_ids
               (tasks (addTask "Run" "5" 1730512345678 "t" "t" one_task_state)))
      <-> NoDup (numeric_ids (tasks one_task_state))
          /\ ~ In 1730512345678 (numeric_ids (tasks one_task_state)))
  /\ ~ NoDup (numeric_ids
                (tasks (addTask "Run" "5" 1730512345678 "t" "t" one_task_state))).
Proof.
  assert (Hok : ~ create_rejected "Run" "5").
  { intros [H|[H|(g & H & L)]]; try discriminate H. injection H as <-. lia. }
  pose proof (addTask_ids_stay_distinct_iff_clock_is_fresh
                "Run" "5" 1730512345678 "t" "t" one_task_state Hok) as Hiff.
  split; [exact Hok|]. split; [exact Hiff|].
  intros H. apply Hiff in H as [_ H]. apply H. left. reflexivity.
Defined.

(** ** The stored snapshot *)

Section Persistence.

Lemma autoSave_synced (st : state) : synced st -> autoSave st = st.
Proof.
  destruct st as [ts editing stored]. unfold synced, autoSave, saveTasks.
  simpl. intros ->. now destruct ts.
Qed.


Lemma JSON_parse_empty : JSON_parse EmptyString = None.
Proof. reflexivity. Qed.

Lemma script_start_stored (text : string) :
  script_start (Some text) = JSON_parse text.
Proof.
  unfold script_start, initial_tasks, loadTasks.
  destruct (JSON_parse text) as [v|] eqn:E; [|reflexivity].
  destruct text as [|c r]; [discriminate E|]. reflexivity.
Qed.

End Persistence.

(** X6: a stored snapshot that is the text of the sequence gives the sequence
    back when the page is opened again: the script started on it ends with
    [tasks] holding the same records in the same order; and the timed save
    leaves such a state as it is.  (The numbers of the records are safe
    integers.) *)
Theorem a_saved_sequence_is_restored_on_reopening :
  forall st : state,
    synced st ->
    forallb exact_task (tasks st) = true ->
    script_start (storage st) = Some (VArr (map VObj (tasks st)))
    /\ autoSave st = st.
Proof.
  intros st Hsync Hexact. split; [|now apply autoSave_synced].
  rewrite Hsync, script_start_stored.
  apply JSON_parse_stringify. cbn [well_formed].
  rewrite forallb_forall in Hexact. apply forallb_forall. intros v Hv.
  apply in_map_iff in Hv as (t & <- & Ht).
  exact (exact_value_well_formed (VObj t) (Hexact t Ht)).
Qed.

Lemma a_saved_sequence_is_restored_on_reopening_witness :
  synced (saveTasks two_task_state)
  /\ forallb exact_task (tasks (saveTasks two_task_state)) = true
  /\ script_start (storage (saveTasks two_task_state))
     = Some (VArr (map VObj (tasks two_task_state)))
  /\ autoSave (saveTasks two_task_state) = saveTasks two_task_state.
Proof.
  split; [reflexivity|]. split; [reflexivity|].
  exact (a_saved_sequence_is_restored_on_reopening (saveTasks two_task_state)
           eq_refl eq_refl).
Defined.

(** X7: the script does not look at what the stored text parses to: started
    on a stored text, it ends with [tasks] holding whatever value the text
    parses to, an array or not ([null], a number, a string), and it is aborted
    exactly when the text does not parse. *)
Theorem script_start_takes_any_stored_value :
  forall text : string,
    script_start (Some text) = JSON_parse text
    /\ (script_start (Some text) = None <-> initial_tasks (Some text) = None).
Proof.
  intros text. split; [apply script_start_stored|].
  rewrite script_start_stored. unfold initial_tasks.
  destruct (JSON_parse text); split; intros H; congruence.
Qed.

(** ** The drop handler *)

Section Dropping.

Lemma onEnd_records (cardIds : list string) (st : state) (t : obj) :
  In t (tasks (onEnd cardIds st)) ->
  In t (tasks st) /\ exists i, id_of t = Some i.
Proof.
  unfold onEnd. cbn [tasks saveTasks set_tasks]. intros Hin.
  apply in_flat_map in Hin as (card & _ & Hin).
  destruct (card_task_id card) as [taskId|]; [|contradiction].
  destruct (find_task taskId (tasks st)) as [task|] eqn:Hf; [|contradiction].
  destruct Hin as [<-|[]]. apply find_some in Hf as [Hin Hid].
  split; [exact Hin|]. exists taskId. now apply has_id_id_of.
Qed.

(** With distinct ids, [find] returns the record one started from. *)
Lemma find_task_unique (i : Z) (ts : list obj) (t : obj) :
  NoDup (numeric_ids ts) -> In t ts -> id_of t = Some i ->
  find_task i ts = Some t.
Proof.
  intros Hnd Hin Hid.
  assert (Hf : In t (filter (has_id i) ts)).
  { apply filter_In. split; [exact Hin|]. now apply has_id_id_of. }
  rewrite (filter_has_id_unique i ts Hnd) in Hf.
  destruct (find_task i ts) as [t'|]; [|contradiction].
  destruct Hf as [->|[]]. reflexivity.
Qed.

Lemma numeric_ids_reorder (ids : list Z) (st : state) :
  (forall i, In i ids -> In i (numeric_ids (tasks st))) ->
  numeric_ids (tasks (reorder ids st)) = ids.
Proof.
  intros Hin. rewrite reorder_tasks.
  induction ids as [|i r IH]; [reflexivity|]. simpl.
  rewrite numeric_ids_app, IH by (intros; apply Hin; now right). clear IH.
  destruct (numeric_ids_in i _ (Hin i (or_introl eq_refl))) as (t & Ht & Hid).
  destruct (find_task i (tasks st)) as [t'|] eqn:Hf.
  - apply find_some in Hf as [_ Hf]. apply has_id_id_of in Hf.
    unfold numeric_ids. simpl. now rewrite Hf.
  - exfalso. apply find_task_none with (t := t) in Hf; [|exact Ht].
    apply has_id_id_of in Hid. congruence.
Qed.

Lemma numeric_ids_NoDup (ts : list obj) :
  (forall t, In t ts -> exists i, id_of t = Some i) ->
  NoDup (numeric_ids ts) -> NoDup ts.
Proof.
  induction ts as [|t r IH]; intros Hnum Hnd; [constructor|].
  destruct (Hnum t (or_introl eq_refl)) as (i & Hi).
  rewrite numeric_ids_cons, Hi in Hnd. simpl in Hnd.
  inversion Hnd as [|? ? Hnotin Hr]; subst. constructor.
  - intros Hin. apply Hnotin. unfold numeric_ids. apply in_flat_map.
    exists t. split; [exact Hin|]. rewrite Hi. now left.
  - apply IH; [|exact Hr]. intros; apply Hnum; now right.
Qed.

End Dropping.

(** X8: when every record has a safe integer as id and no id occurs twice, a
    drop that leaves the cards in any order (the ids of the cards are a
    permutation of the ids of the sequence) loses and duplicates nothing: the
    new sequence is a permutation of the old one, and its ids are in the order
    of the cards. *)
Theorem reorder_by_a_permutation_loses_nothing :
  forall (ids : list Z) (st : state),
    Forall (fun i => safe_integer i = true) ids ->
    NoDup (numeric_ids (tasks st)) ->
    (forall t, In t (tasks st) -> exists i, id_of t = Some i) ->
    Permutation ids (numeric_ids (tasks st)) ->
    numeric_ids (tasks (reorder ids st)) = ids
    /\ Permutation (tasks (reorder ids st)) (tasks st).
Proof.
  intros ids st _ Hnd Hnum Hperm.
  assert (Hids : numeric_ids (tasks (reorder ids st)) = ids).
  { apply numeric_ids_reorder. intros i Hi.
    exact (Permutation_in i Hperm Hi). }
  split; [exact Hids|].
  assert (Hrec : forall t, In t (tasks (reorder ids st)) ->
                           In t (tasks st) /\ exists i, id_of t = Some i).
  { intros t. unfold reorder. apply onEnd_records. }
  apply NoDup_Permutation.
  - apply numeric_ids_NoDup; [intros t Ht; exact (proj2 (Hrec t Ht))|].
    rewrite Hids. exact (Permutation_NoDup (Permutation_sym Hperm) Hnd).
  - now apply numeric_ids_NoDup.
  - intros t. split; [intros Ht; exact (proj1 (Hrec t Ht))|]. intros Ht.
    destruct (Hnum t Ht) as (i & Hi).
    rewrite reorder_tasks. apply in_flat_map. exists i. split.
    + apply (Permutation_in i (Permutation_sym Hperm)).
      unfold numeric_ids. apply in_flat_map. exists t.
      split; [exact Ht|]. rewrite Hi. now left.
    + rewrite (find_task_unique i (tasks st) t Hnd Ht Hi). now left.
Qed.

Lemma reorder_by_a_permutation_loses_nothing_witness :
  Forall (fun i => safe_integer i = true) [1730512399999; 1730512345678]
  /\ NoDup (numeric_ids (tasks two_task_state))
  /\ (forall t, In t (tasks two_task_state) -> exists i, id_of t = Some i)
  /\ Permutation [1730512399999; 1730512345678] (numeric_ids (tasks two_task_state))
  /\ numeric_ids (tasks (reorder [1730512399999; 1730512345678] two_task_state))
     = [1730512399999; 1730512345678]
  /\ Permutation (tasks (reorder [1730512399999; 1730512345678] two_task_state))
       (tasks two_task_state).
Proof.
  assert (Hnd : NoDup (numeric_ids (tasks two_task_state))).
  { repeat constructor; simpl; intuition discriminate. }
  assert (Hnum : forall t, In t (tasks two_task_state) -> exists i, id_of t = Some i).
  { intros t [<-|[<-|[]]]; eexists; reflexivity. }
  assert (Hperm : Permutation [1730512399999; 1730512345678]
                    (numeric_ids (tasks two_task_state))).
  { apply perm_swap. }
  assert (Hsafe : Forall (fun i => safe_integer i = true)
                    [1730512399999; 1730512345678]).
  { repeat constructor. }
  split; [exact Hsafe|].
  split; [exact Hnd|]. split; [exact Hnum|]. split; [exact Hperm|].
  exact (reorder_by_a_permutation_loses_nothing _ two_task_state Hsafe Hnd Hnum Hperm).
Defined.

(** X9: whatever cards a drop comes with, every record of the new sequence is
    a record of the old one and has a number as id.  So a record whose id is
    not a number (the import accepts any truthy id) is lost at the first
    drop. *)
Theorem a_drop_keeps_only_records_with_a_number_as_id :
  forall (cardIds : list string) (st : state),
    (forall t, In t (tasks (onEnd cardIds st)) ->
               In t (tasks st) /\ exists i, id_of t = Some i)
    /\ (forall t, In t (tasks st) -> id_of t = None ->
                  ~ In t (tasks (onEnd cardIds st))).
Proof.
  intros cardIds st. split; [intros t; apply onEnd_records|].
  intros t _ Hnone Hin.
  destruct (onEnd_records cardIds st t Hin) as (_ & i & Hi). congruence.
Qed.

Lemma a_drop_keeps_only_records_with_a_number_as_id_witness :
  let st := {| tasks := [sample_task; [("id", VStr "a1"); ("name", VStr "A");
                                       ("target", VNum 5); ("current", VNum 2)]];
               currentEditingTaskId := None; storage := None |} in
  importable (nth 1 (tasks st) []) = true
  /\ In (nth 1 (tasks st) []) (tasks st)
  /\ id_of (nth 1 (tasks st) []) = None
  /\ ~ In (nth 1 (tasks st) [])
         (tasks (onEnd [card_id 1730512345678; "task-a1"] st))
  /\ tasks (onEnd [card_id 1730512345678; "task-a1"] st) = [sample_task].
Proof.
  intros st. split; [reflexivity|].
  assert (Hin : In (nth 1 (tasks st) []) (tasks st)) by (right; left; reflexivity).
  split; [exact Hin|]. split; [reflexivity|]. split; [|reflexivity].
  exact (proj2 (a_drop_keeps_only_records_with_a_number_as_id
                  [card_id 1730512345678; "task-a1"] st)
           _ Hin eq_refl).
Defined.

(** ** The range of [current] over a session *)

Section RangeInvariant.

Lemma assign_found_forallb (p : obj -> bool) (taskId : Z) (t' : obj) (ts : list obj) :
  p t' = true -> forallb p ts = true ->
  forallb p (assign_found taskId t' ts) = true.
Proof.
  intros Ht'. induction ts as [|t r IH]; simpl; [reflexivity|]. intros H.
  apply andb_true_iff in H as [H1 H2].
  destruct (has_id taskId t); simpl; [now rewrite Ht', H2|now rewrite H1, IH].
Qed.

Lemma splice_found_forallb (p : obj -> bool) (taskId : Z) (ts : list obj) :
  forallb p ts = true -> forallb p (splice_found taskId ts) = true.
Proof.
  induction ts as [|t r IH]; simpl; [reflexivity|]. intros H.
  apply andb_true_iff in H as [H1 H2].
  destruct (has_id taskId t); simpl; [exact H2|now rewrite H1, IH].
Qed.

Lemma edited_in_range (newName : string) (c g : Z) (iso : string) (task : obj) :
  0 <= c <= g -> in_range (edited newName c g iso task) = true.
Proof.
  intros H. destruct (edited_props newName c g iso task) as (_ & P2 & P3 & _).
  unfold in_range. rewrite P2, P3. apply andb_true_iff. split; apply Z.leb_le; lia.
Qed.

Lemma updateTask_in_range (n c t iso : string) (st : state) :
  forallb in_range (tasks st) = true ->
  forallb in_range (tasks (updateTask n c t iso st)) = true.
Proof.
  intros H. unfold updateTask.
  destruct (currentEditingTaskId st) as [editing|]; [|exact H].
  destruct (find_task editing (tasks st)) as [task|]; [|exact H].
  destruct (parseInt c) as [newCurrent|]; [|exact H].
  destruct (parseInt t) as [newTarget|]; [|exact H].
  destruct (is_empty (trim n)); [exact H|]. cbn [orb].
  destruct (newTarget <? 1) eqn:E1; [exact H|].
  destruct (newCurrent <? 0) eqn:E2; [exact H|].
  destruct (newCurrent >? newTarget) eqn:E3; [exact H|].
  cbn [orb tasks saveTasks set_tasks]. apply assign_found_forallb; [|exact H].
  apply (edited_in_range (trim n) newCurrent newTarget iso task).
  apply Z.ltb_ge in E2. rewrite Z.gtb_ltb in E3. apply Z.ltb_ge in E3. lia.
Qed.

Lemma step_in_range (g : gesture) (st : state) :
  no_import g = true ->
  forallb in_range (tasks st) = true ->
  exists st', step g st = Some st' /\ forallb in_range (tasks st') = true.
Proof.
  intros Hg H. destruct g; simpl; try discriminate Hg.
  - eexists. split; [reflexivity|]. unfold addTask.
    destruct (new_task nameField targetField now createdIso modifiedIso) as [t|] eqn:E;
      [|exact H].
    cbn [tasks saveTasks set_tasks]. rewrite forallb_app, H. simpl.
    destruct (new_task_accepted _ _ _ _ _ _ E) as (tg & _ & Hg1 & ->).
    unfold in_range. simpl. rewrite andb_true_r. apply Z.leb_le. lia.
  - exact (updateProgress_in_range taskId change iso st H).
  - eexists. split; [reflexivity|]. unfold openEditTaskModal.
    destruct (find_task taskId (tasks st)); exact H.
  - eexists. split; [reflexivity|]. now apply updateTask_in_range.
  - eexists. split; [reflexivity|]. unfold deleteTask.
    destruct confirmed; [|exact H].
    destruct (find_task taskId (tasks st)); [|exact H].
    cbn [tasks saveTasks set_tasks]. now apply splice_found_forallb.
  - eexists. split; [reflexivity|]. unfold onEnd.
    cbn [tasks saveTasks set_tasks]. apply forallb_forall. intros t Hin.
    apply in_flat_map in Hin as (card & _ & Hin).
    destruct (card_task_id card) as [taskId|]; [|contradiction].
    destruct (find_task taskId (tasks st)) as [task|] eqn:Hf; [|contradiction].
    destruct Hin as [<-|[]]. apply find_some in Hf as [Hin _].
    rewrite forallb_forall in H. now apply H.
  - eexists. split; [reflexivity|]. unfold clearAllData.
    destruct confirmed1, confirmed2; try exact H. reflexivity.
Qed.

End RangeInvariant.

(** X10: a session without import, started where every record satisfies
    [0 <= current <= target] (the empty sequence, for one), never leaves the
    runs the model covers and ends where every record satisfies it: creating,
    editing, updating, deleting, reordering and clearing all keep the range.
    Only the import can bring a record outside it. *)
Theorem sessions_without_import_keep_the_range :
  forall (gs : list gesture) (st : state),
    forallb no_import gs = true ->
    forallb in_range (tasks st) = true ->
    exists st', run gs st = Some st' /\ forallb in_range (tasks st') = true.
Proof.
  induction gs as [|g r IH]; intros st Hgs H; simpl.
  - exists st. auto.
  - simpl in Hgs. apply andb_true_iff in Hgs as [Hg Hr].
    destruct (step_in_range g st Hg H) as (st1 & -> & H1).
    exact (IH st1 Hr H1).
Qed.

Lemma sessions_without_import_keep_the_range_witness :
  forallb no_import longer_session = true
  /\ forallb in_range (tasks empty_state) = true
  /\ exists st',
      run longer_session empty_state = Some st'
      /\ forallb in_range (tasks st') = true.
Proof.
  split; [reflexivity|]. split; [reflexivity|].
  exact (sessions_without_import_keep_the_range longer_session empty_state
           eq_refl eq_refl).
Defined.

(** ** Repeated progress updates *)

Section Repeated.

Lemma updateProgress_step (taskId change : Z) (iso : string) (st : state)
    (task : obj) (c g : Z) :
  find_task taskId (tasks st) = Some task ->
  getProp "current" task = Some (VNum c) ->
  getProp "target" task = Some (VNum g) ->
  exists st' task',
    updateProgress taskId change iso st = Some st'
    /\ find_task taskId (tasks st') = Some task'
    /\ getProp "current" task' = Some (VNum (Z.max 0 (Z.min (c + change) g)))
    /\ getProp "target" task' = Some (VNum g).
Proof.
  intros Hf Hc Hg.
  destruct (find_task_split taskId _ _ Hf) as (pre & post & Hts & Hpre & Ht).
  destruct (progressed_current change iso task c g Hc Hg) as (task' & Hp & Hc' & Hg').
  rewrite (updateProgress_found taskId change iso st pre post task Hts Hpre Ht), Hp.
  eexists; exists task'. split; [reflexivity|]. cbn [tasks saveTasks set_tasks].
  split; [|auto]. apply find_task_at; auto.
  now rewrite (progressed_has_id change iso task task' taskId Hp).
Qed.

End Repeated.

(** X11: progress updates of one sign add up.  On a record within range whose
    target is a safe integer, calls of [updateProgress] whose deltas are safe
    integers, all non-negative or all non-positive, leave [current] where a
    single call with the sum of the deltas would: at
    [max 0 (min (current + sum) target)].  So [n] clicks on plus give
    [min (current + n) target].  (With a target of at most 2^53 - 1 every sum
    [current + delta] is either exact or beyond the target or below 0, where
    the call writes the target or 0.) *)
Theorem updates_of_one_sign_add_up (taskId : Z) (iso : string) (deltas : list Z) :
  forall (st : state) (task : obj) (c g : Z),
    find_task taskId (tasks st) = Some task ->
    getProp "current" task = Some (VNum c) ->
    getProp "target" task = Some (VNum g) ->
    0 <= c <= g ->
    safe_integer g = true ->
    Forall (fun d => safe_integer d = true) deltas ->
    Forall (fun d => 0 <= d) deltas \/ Forall (fun d => d <= 0) deltas ->
    exists st' task',
      updateProgress_all (same_id_calls taskId deltas iso) st = Some st'
      /\ find_task taskId (tasks st') = Some task'
      /\ getProp "current" task'
         = Some (VNum (Z.max 0 (Z.min (c + fold_right Z.add 0 deltas) g)))
      /\ getProp "target" task' = Some (VNum g).
Proof.
  induction deltas as [|d r IH]; intros st task c g Hf Hc Hg Hcg Hsafe Hds Hsign.
  - exists st, task. simpl. repeat split; auto. rewrite Hc. do 2 f_equal. lia.
  - destruct (updateProgress_step taskId d iso st task c g Hf Hc Hg)
      as (st1 & task1 & Hup & Hf1 & Hc1 & Hg1).
    assert (Hsign' : Forall (fun d => 0 <= d) r \/ Forall (fun d => d <= 0) r).
    { destruct Hsign as [H|H]; inversion H; subst; auto. }
    assert (Hds' : Forall (fun d => safe_integer d = true) r)
      by now inversion Hds.
    destruct (IH st1 task1 _ g Hf1 Hc1 Hg1 ltac:(lia) Hsafe Hds' Hsign')
      as (st' & task' & Hall & Hf' & Hc' & Hg').
    exists st', task'. simpl. rewrite Hup. split; [exact Hall|].
    split; [exact Hf'|]. split; [|exact Hg']. rewrite Hc'. do 2 f_equal.
    assert (Hsum : (0 <= d /\ 0 <= fold_right Z.add 0 r)
                   \/ (d <= 0 /\ fold_right Z.add 0 r <= 0)).
    { destruct Hsign as [H|H]; inversion H as [|? ? Hd Hr]; subst; [left|right];
        (split; [exact Hd|]); clear -Hr; induction Hr; simpl; lia. }
    simpl. lia.
Qed.

Lemma updates_of_one_sign_add_up_witness :
  find_task 1730512345678 (tasks one_task_state) = Some sample_task
  /\ 0 <= 3 <= 10
  /\ safe_integer 10 = true
  /\ Forall (fun d => safe_integer d = true) [1; 1; 4; 1; 1; 1]
  /\ Forall (fun d => 0 <= d) [1; 1; 4; 1; 1; 1]
  /\ map (fun st => map (getProp "current") (tasks st))
       (option_list (updateProgress_all
                       (same_id_calls 1730512345678 [1; 1; 4; 1; 1; 1] "t")
                       one_task_state))
     = [[Some (VNum 10)]]
  /\ exists st' task',
      updateProgress_all (same_id_calls 1730512345678 [1; 1; 4; 1; 1; 1] "t")
        one_task_state = Some st'
      /\ find_task 1730512345678 (tasks st') = Some task'
      /\ getProp "current" task'
         = Some (VNum (Z.max 0 (Z.min (3 + fold_right Z.add 0 [1; 1; 4; 1; 1; 1]) 10)))
      /\ getProp "target" task' = Some (VNum 10).
Proof.
  assert (Hpos : Forall (fun d => 0 <= d) [1; 1; 4; 1; 1; 1]).
  { repeat constructor; lia. }
  assert (Hsafe : Forall (fun d => safe_integer d = true) [1; 1; 4; 1; 1; 1]).
  { repeat constructor. }
  split; [reflexivity|]. split; [lia|]. split; [reflexivity|].
  split; [exact Hsafe|]. split; [exact Hpos|]. split; [reflexivity|].
  apply (updates_of_one_sign_add_up 1730512345678 "t" [1; 1; 4; 1; 1; 1]
           one_task_state sample_task 3 10);
    try reflexivity; [lia|exact Hsafe|left; exact Hpos].
Defined.

(** ** Importing twice, and importing the stored snapshot *)

(** X12: importing the same file a second time, with the confirmation given
    both times, changes nothing more: the state after the second import is
    the state after the first, and the notice is the same.  The id being
    edited is not reset by an import. *)
Theorem importing_twice_is_importing_once :
  forall (text : string) (st : state),
    handleFileImport text true (fst (handleFileImport text true st))
    = handleFileImport text true st
    /\ currentEditingTaskId (fst (handleFileImport text true st))
       = currentEditingTaskId st.
Proof.
  intros text st. unfold handleFileImport.
  destruct (JSON_parse text) as [v|]; [|split; reflexivity].
  destruct v as [| | | |l|]; try (split; reflexivity).
  destruct l as [|t r]; [split; reflexivity|].
  unfold import_parsed.
  destruct (every_task_check (t :: r)) as [[]|]; split; reflexivity.
Qed.

(** X13: the text that [saveTasks] hands to [setItem] is as good a backup as
    the exported file.  For records whose numbers are safe integers both
    texts, the compact one and the indented one, parse to the sequence, so
    importing the one does what importing the other does, in whatever state
    and with whatever answer to the confirmation. *)
Theorem stored_snapshot_imports_like_the_export :
  forall (st st0 : state) (confirmed : bool),
    forallb exact_task (tasks st) = true ->
    JSON_parse (exportData st) = Some (VArr (map VObj (tasks st)))
    /\ JSON_parse (JSON_stringify 0 (VArr (map VObj (tasks st))))
       = Some (VArr (map VObj (tasks st)))
    /\ handleFileImport (JSON_stringify 0 (VArr (map VObj (tasks st)))) confirmed st0
       = handleFileImport (exportData st) confirmed st0.
Proof.
  intros st st0 confirmed H.
  assert (Hwf : well_formed (VArr (map VObj (tasks st))) = true).
  { cbn [well_formed]. rewrite forallb_forall in H. apply forallb_forall.
    intros v Hv. apply in_map_iff in Hv as (t & <- & Ht).
    exact (exact_value_well_formed (VObj t) (H t Ht)). }
  assert (E2 : JSON_parse (exportData st) = Some (VArr (map VObj (tasks st)))).
  { unfold exportData. now apply JSON_parse_stringify. }
  assert (E0 : JSON_parse (JSON_stringify 0 (VArr (map VObj (tasks st))))
               = Some (VArr (map VObj (tasks st)))).
  { now apply JSON_parse_stringify. }
  split; [exact E2|]. split; [exact E0|].
  unfold handleFileImport. now rewrite E0, E2.
Qed.

Lemma stored_snapshot_imports_like_the_export_witness :
  forallb exact_task (tasks two_task_state) = true
  /\ JSON_parse (exportData two_task_state)
     = Some (VArr (map VObj (tasks two_task_state)))
  /\ JSON_parse (JSON_stringify 0 (VArr (map VObj (tasks two_task_state))))
     = Some (VArr (map VObj (tasks two_task_state)))
  /\ handleFileImport (JSON_stringify 0 (VArr (map VObj (tasks two_task_state))))
       true empty_state
     = handleFileImport (exportData two_task_state) true empty_state.
Proof.
  split; [reflexivity|].
  exact (stored_snapshot_imports_like_the_export two_task_state empty_state true
           eq_refl).
Defined.

(** ** escapeHtml *)

Section Escaping.

Lemma contains_append (c : ascii) (a b : string) :
  contains c (a ++ b)%string = (contains c a || contains c b)%bool.
Proof.
  induction a as [|x r IH]; [reflexivity|]. simpl. rewrite IH.
  now rewrite orb_assoc.
Qed.

Lemma escape_html_char_no_markup (c : ascii) :
  contains "<" (escape_html_char c) = false
  /\ contains ">" (escape_html_char c) = false
  /\ contains "160" (escape_html_char c) = false.
Proof.
  destruct c as [b0 b1 b2 b3 b4 b5 b6 b7].
  destruct b0, b1, b2, b3, b4, b5, b6, b7; repeat split; reflexivity.
Qed.

Lemma unescapeHtml_escape_html_char (c : ascii) (rest : string) :
  unescapeHtml (escape_html_char c ++ rest) = String c (unescapeHtml rest).
Proof.
  destruct c as [b0 b1 b2 b3 b4 b5 b6 b7].
  destruct b0, b1, b2, b3, b4, b5, b6, b7; reflexivity.
Qed.

Lemma unescapeHtml_escapeHtml (text : string) : unescapeHtml (escapeHtml text) = text.
Proof.
  induction text as [|c r IH]; [reflexivity|]. simpl escapeHtml.
  now rewrite unescapeHtml_escape_html_char, IH.
Qed.

End Escaping.

(** X14: what [escapeHtml] returns contains no [<], no [>] and no NBSP, so
    that a task name put into the markup cannot open or close a tag; and
    nothing is lost: two different texts are escaped to two different
    texts. *)
Theorem escapeHtml_leaves_no_markup :
  forall text : string,
    contains "<" (escapeHtml text) = false
    /\ contains ">" (escapeHtml text) = false
    /\ contains "160" (escapeHtml text) = false
    /\ (forall text', escapeHtml text = escapeHtml text' -> text = text').
Proof.
  intros text.
  assert (H : contains "<" (escapeHtml text) = false
              /\ contains ">" (escapeHtml text) = false
              /\ contains "160" (escapeHtml text) = false).
  { induction text as [|c r (I1 & I2 & I3)]; [repeat split|].
    simpl escapeHtml. rewrite !contains_append, I1, I2, I3.
    destruct (escape_html_char_no_markup c) as (H1 & H2 & H3).
    now rewrite H1, H2, H3. }
  destruct H as (H1 & H2 & H3). repeat split; auto.
  intros text' E. apply (f_equal unescapeHtml) in E.
  now rewrite !unescapeHtml_escapeHtml in E.
Qed.

Lemma escapeHtml_leaves_no_markup_witness :
  escapeHtml "<b>R&D</b>" = "&lt;b&gt;R&amp;D&lt;/b&gt;"
  /\ contains "<" (escapeHtml "<b>R&D</b>") = false
  /\ (forall text', escapeHtml "<b>R&D</b>" = escapeHtml text' -> "<b>R&D</b>" = text').
Proof.
  split; [reflexivity|].
  destruct (escapeHtml_leaves_no_markup "<b>R&D</b>") as (H1 & _ & _ & H4).
  split; [exact H1|exact H4].
Defined.

(** ** The name and the numeric fields as they are read *)

Section Fields.

Lemma trimStart_starts_clean (s : string) : starts_clean (trimStart s) = true.
Proof.
  induction s as [|c r IH]; [reflexivity|]. simpl.
  destruct (is_space c) eqn:E; [exact IH|]. simpl. now rewrite E.
Qed.

Lemma trimEnd_ends_clean (s : string) : ends_clean (trimEnd s) = true.
Proof.
  induction s as [|c r IH]; [reflexivity|]. simpl.
  destruct (trimEnd r) as [|c' r'] eqn:E.
  - destruct (is_space c) eqn:Ec; [reflexivity|]. simpl. now rewrite Ec.
  - exact IH.
Qed.

Lemma trimEnd_starts_clean (s : string) :
  starts_clean s = true -> starts_clean (trimEnd s) = true.
Proof.
  destruct s as [|c r]; [reflexivity|]. simpl. intros H.
  destruct (trimEnd r); [|exact H]. now rewrite (proj1 (negb_true_iff _) H).
Qed.

Lemma trimStart_clean (s : string) : starts_clean s = true -> trimStart s = s.
Proof.
  destruct s as [|c r]; [reflexivity|]. simpl. intros H.
  now rewrite (proj1 (negb_true_iff _) H).
Qed.

Lemma trimEnd_clean (s : string) : ends_clean s = true -> trimEnd s = s.
Proof.
  induction s as [|c r IH]; [reflexivity|]. intros H.
  destruct r as [|c' r'].
  - simpl in *. now rewrite (proj1 (negb_true_iff _) H).
  - change (ends_clean (String c (String c' r'))) with (ends_clean (String c' r')) in H.
    specialize (IH H). change (trimEnd (String c (String c' r')))
      with (match trimEnd (String c' r') with
            | EmptyString => if is_space c then EmptyString else String c EmptyString
            | r0 => String c r0
            end).
    now rewrite IH.
Qed.

Lemma trim_clean (s : string) :
  starts_clean (trim s) = true /\ ends_clean (trim s) = true /\ trim (trim s) = trim s.
Proof.
  assert (H1 : starts_clean (trim s) = true).
  { unfold trim. apply trimEnd_starts_clean, trimStart_starts_clean. }
  assert (H2 : ends_clean (trim s) = true) by apply trimEnd_ends_clean.
  repeat split; auto. unfold trim at 1.
  now rewrite (trimStart_clean _ H1), (trimEnd_clean _ H2).
Qed.

(** [parseInt] reads the integer a text starts with and ignores the rest. *)
Lemma parseInt_prefix (z : Z) (junk : string) :
  z <> 0 -> starts_with_digit 10 junk = false ->
  parseInt (string_of_Z z ++ junk) = Some z.
Proof.
  intros Hz Hjunk. destruct z as [|p|p]; [congruence| |]; unfold string_of_Z.
  - destruct (positive_text p junk) as (d & r & Hd & -> & Hr).
    now rewrite (parseInt_unsigned d r Hd), Hr, (read_digits_stop 10 _ junk Hjunk).
  - change (String "-" (digits_acc (Pos.size_nat p) (Z.pos p) EmptyString) ++ junk)%string
      with (String "-" (digits_acc (Pos.size_nat p) (Z.pos p) EmptyString ++ junk)%string).
    destruct (positive_text p junk) as (d & r & Hd & -> & Hr).
    now rewrite (parseInt_negative d r Hd), Hr, (read_digits_stop 10 _ junk Hjunk).
Qed.

End Fields.

(** X15: the name that [addTask] and [updateTask] store is the field text
    without the white space around it: it is not empty, neither starts nor
    ends with white space, and trimming it again changes nothing. *)
Theorem stored_names_are_trimmed :
  (forall n tf now c m t,
      new_task n tf now c m = Some t ->
      exists name,
        getProp "name" t = Some (VStr name)
        /\ name <> EmptyString
        /\ starts_clean name = true /\ ends_clean name = true /\ trim name = name)
  /\ (forall n c t iso st editing task,
      ~ edit_rejected n c t ->
      currentEditingTaskId st = Some editing ->
      find_task editing (tasks st) = Some task ->
      exists task' name,
        find_task editing (tasks (updateTask n c t iso st)) = Some task'
        /\ getProp "name" task' = Some (VStr name)
        /\ name <> EmptyString
        /\ starts_clean name = true /\ ends_clean name = true /\ trim name = name).
Proof.
  split.
  - intros n tf now c m t H.
    assert (Hne : trim n <> EmptyString).
    { unfold new_task in H. destruct (parseInt tf); [|discriminate].
      destruct (trim n); [discriminate|discriminate]. }
    destruct (new_task_accepted _ _ _ _ _ _ H) as (g & _ & _ & ->).
    exists (trim n). destruct (trim_clean n) as (H1 & H2 & H3).
    repeat split; auto.
  - intros n c t iso st editing task Hok He Hf.
    destruct (edit_accepted_fields _ _ _ Hok) as (cv & g & Hc & Hg & Hn & Hg1 & Hcg).
    destruct (find_task_split editing _ _ Hf) as (pre & post & Hts & Hpre & Ht).
    rewrite (updateTask_accepted n c t iso st editing cv g pre post task
               He Hts Hpre Ht Hn Hc Hg Hg1 Hcg).
    cbn [tasks saveTasks set_tasks].
    exists (edited (trim n) cv g iso task), (trim n).
    destruct (edited_props (trim n) cv g iso task) as (P1 & _ & _ & _ & P5).
    destruct (trim_clean n) as (H1 & H2 & H3).
    repeat split; auto.
    apply find_task_at; [exact Hpre|]. unfold has_id.
    rewrite (P5 "id") by discriminate. exact Ht.
Qed.

Lemma stored_names_are_trimmed_witness :
  (exists t, new_task "  Read books " "10" 1730512345678 "t" "t" = Some t
             /\ exists name,
                 getProp "name" t = Some (VStr name)
                 /\ name <> EmptyString
                 /\ starts_clean name = true /\ ends_clean name = true
                 /\ trim name = name)
  /\ ~ edit_rejected " Read more " "4" "12"
  /\ exists task' name,
      find_task 1730512345678
        (tasks (updateTask " Read more " "4" "12" "t" editing_state)) = Some task'
      /\ getProp "name" task' = Some (VStr name)
      /\ name <> EmptyString
      /\ starts_clean name = true /\ ends_clean name = true /\ trim name = name.
Proof.
  assert (Hok : ~ edit_rejected " Read more " "4" "12").
  { intros [H|[H|[H|[(g & H & L)|[(c & H & L)|(c & g & H1 & H2 & L)]]]]];
      try discriminate H.
    - injection H as <-. lia.
    - injection H as <-. lia.
    - injection H1 as <-. injection H2 as <-. lia. }
  split.
  - eexists. split; [reflexivity|].
    exact (proj1 stored_names_are_trimmed "  Read books " "10" 1730512345678 "t" "t"
             _ eq_refl).
  - split; [exact Hok|].
    exact (proj2 stored_names_are_trimmed " Read more " "4" "12" "t" editing_state
             1730512345678 sample_task Hok eq_refl eq_refl).
Defined.

(** X16: the numeric fields are read by [parseInt], which stops at the first
    character that is not a digit: a target field that holds a positive
    integer followed by any text that does not start with a digit ([5 pages],
    [5.9]) is taken as that integer, by [addTask] and by [updateTask]
    alike. *)
Theorem text_after_the_integer_is_ignored :
  forall (g : Z) (junk : string),
    1 <= g -> starts_with_digit 10 junk = false ->
    (forall n now c m,
        new_task n (string_of_Z g ++ junk) now c m = new_task n (string_of_Z g) now c m)
    /\ (forall n cf iso st,
        updateTask n cf (string_of_Z g ++ junk) iso st
        = updateTask n cf (string_of_Z g) iso st)
    /\ (forall n cur iso st,
        0 <= cur ->
        updateTask n (string_of_Z (cur + 1) ++ junk) (string_of_Z g) iso st
        = updateTask n (string_of_Z (cur + 1)) (string_of_Z g) iso st).
Proof.
  intros g junk Hg Hjunk.
  assert (E : parseInt (string_of_Z g ++ junk) = parseInt (string_of_Z g)).
  { rewrite parseInt_string_of_Z. apply parseInt_prefix; [lia|exact Hjunk]. }
  split; [|split].
  - intros n now c m. unfold new_task. now rewrite E.
  - intros n cf iso st. unfold updateTask. now rewrite E.
  - intros n cur iso st Hcur. unfold updateTask.
    now rewrite (parseInt_prefix (cur + 1) junk ltac:(lia) Hjunk),
      (parseInt_string_of_Z (cur + 1)).
Qed.

Lemma text_after_the_integer_is_ignored_witness :
  1 <= 5 /\ starts_with_digit 10 ".9 pages" = false
  /\ new_task "Run" "5.9 pages" 1730512399999 "t" "t"
     = new_task "Run" "5" 1730512399999 "t" "t"
  /\ updateTask "Run" "2" "5.9 pages" "t" editing_state
     = updateTask "Run" "2" "5" "t" editing_state.
Proof.
  split; [lia|]. split; [reflexivity|].
  destruct (text_after_the_integer_is_ignored 5 ".9 pages" ltac:(lia) eq_refl)
    as (H1 & H2 & _).
  split; [exact (H1 "Run" 1730512399999 "t" "t")|].
  exact (H2 "Run" "2" "t" editing_state).
Defined.

(** ** Editing what is no longer there *)

(** X17: [currentEditingTaskId] is not reset when the record it names is
    deleted or when all records are cleared, but [updateTask] looks the record
    up again: on a sequence without duplicate ids, submitting the edit form
    after the record was deleted, or after everything was cleared, changes
    nothing, whatever the fields hold. *)
Theorem editing_a_deleted_record_does_nothing :
  forall (editing : Z) (n c t iso : string) (st : state),
    currentEditingTaskId st = Some editing ->
    NoDup (numeric_ids (tasks st)) ->
    currentEditingTaskId (deleteTask editing true st) = Some editing
    /\ updateTask n c t iso (deleteTask editing true st) = deleteTask editing true st
    /\ currentEditingTaskId (clearAllData true true st) = Some editing
    /\ updateTask n c t iso (clearAllData true true st) = clearAllData true true st.
Proof.
  intros editing n c t iso st He Hnd.
  assert (Hkeep : currentEditingTaskId (deleteTask editing true st) = Some editing).
  { unfold deleteTask. destruct (find_task editing (tasks st)); exact He. }
  assert (Habs : find_task editing (tasks (deleteTask editing true st)) = None).
  { apply find_task_none.
    destruct (find_task editing (tasks st)) as [task|] eqn:Hf.
    - destruct (find_task_split editing _ _ Hf) as (pre & post & Hts & Hpre & Ht).
      rewrite (deleteTask_found editing st pre post task Hts Hpre Ht).
      cbn [tasks saveTasks set_tasks]. intros x Hin.
      destruct (has_id editing x) eqn:E; [|reflexivity]. exfalso.
      rewrite Hts, numeric_ids_app, numeric_ids_cons in Hnd.
      apply has_id_id_of in Ht. rewrite Ht in Hnd. simpl in Hnd.
      apply NoDup_remove_2 in Hnd. apply Hnd. rewrite <- numeric_ids_app.
      exact (has_id_in_numeric_ids editing x _ Hin E).
    - unfold deleteTask. rewrite Hf. now apply find_task_none. }
  split; [exact Hkeep|]. split.
  - unfold updateTask. now rewrite Hkeep, Habs.
  - split; [exact He|]. unfold updateTask. cbn [clearAllData
      currentEditingTaskId tasks saveTasks set_tasks]. now rewrite He.
Qed.

Lemma editing_a_deleted_record_does_nothing_witness :
  currentEditingTaskId editing_state = Some 1730512345678
  /\ NoDup (numeric_ids (tasks editing_state))
  /\ currentEditingTaskId (deleteTask 1730512345678 true editing_state)
     = Some 1730512345678
  /\ updateTask "Walk" "1" "2" "t" (deleteTask 1730512345678 true editing_state)
     = deleteTask 1730512345678 true editing_state.
Proof.
  assert (Hnd : NoDup (numeric_ids (tasks editing_state))).
  { repeat constructor; simpl; intuition. }
  split; [reflexivity|]. split; [exact Hnd|].
  destruct (editing_a_deleted_record_does_nothing 1730512345678 "Walk" "1" "2" "t"
              editing_state eq_refl Hnd) as (H1 & H2 & _).
  split; [exact H1|exact H2].
Defined.

(** ** Sessions stay within what the model covers *)

Section Coverage.

Lemma sound_task_numeric (t : obj) : sound_task t = true -> numeric t = true.
Proof.
  unfold sound_task, importable, numeric. intros H.
  apply andb_true_iff in H as [H _].
  apply andb_true_iff in H as [H Hc]. apply andb_true_iff in H as [_ Ht].
  now rewrite Hc, Ht.
Qed.

Lemma sound_tasks_numeric (ts : list obj) :
  forallb sound_task ts = true -> forallb numeric ts = true.
Proof.
  rewrite !forallb_forall. intros H t Ht. apply sound_task_numeric, H, Ht.
Qed.

Lemma step_defined (g : gesture) (st : state) :
  forallb sound_task (tasks st) = true -> exists st', step g st = Some st'.
Proof.
  intros H. destruct g; simpl; eauto.
  destruct (find_task taskId (tasks st)) as [task|] eqn:Hf.
  - destruct (find_task_split taskId _ _ Hf) as (pre & post & Hts & Hpre & Ht).
    rewrite (updateProgress_found taskId change iso st pre post task Hts Hpre Ht).
    pose proof (sound_task_numeric task (find_task_sound _ _ _ Hf H)) as Hnum.
    destruct (progressed_numeric change iso task Hnum) as (task' & ->). eauto.
  - exists st. unfold updateProgress. now rewrite Hf.
Qed.

End Coverage.

(** X18: in a session that starts with an empty sequence, imports included,
    [updateProgress] never meets a record whose [current] or [target] is not
    a number: creation and edit write numbers, and the import checks
    [typeof] of both.  So every such session runs to its end in the model,
    and ends with numbers in both properties of every record.  (The clock
    does not read 0.) *)
Theorem sessions_never_meet_a_non_number :
  forall gs : list gesture,
    forallb clock_started gs = true ->
    exists st,
      run gs empty_state = Some st
      /\ forallb numeric (tasks st) = true.
Proof.
  assert (H : forall gs st0,
             forallb clock_started gs = true ->
             forallb sound_task (tasks st0) = true ->
             exists st, run gs st0 = Some st /\ forallb sound_task (tasks st) = true).
  { induction gs as [|g r IH]; intros st0 Hclock H0; simpl.
    - exists st0. auto.
    - simpl in Hclock. apply andb_true_iff in Hclock as [Hg Hr].
      destruct (step_defined g st0 H0) as (st1 & E). rewrite E.
      exact (IH st1 Hr (step_sound g st0 st1 Hg H0 E)). }
  intros gs Hclock. destruct (H gs empty_state Hclock eq_refl) as (st & Hrun & Hs).
  exists st. split; [exact Hrun|]. now apply sound_tasks_numeric.
Qed.

Lemma sessions_never_meet_a_non_number_witness :
  forallb clock_started
    (GImport (JSON_stringify 2 (VArr [VObj over_target_task])) true
       :: GProgress 1 (-1) "t" :: longer_session) = true
  /\ exists st,
      run (GImport (JSON_stringify 2 (VArr [VObj over_target_task])) true
             :: GProgress 1 (-1) "t" :: longer_session) empty_state = Some st
      /\ forallb numeric (tasks st) = true.
Proof.
  split; [reflexivity|].
  exact (sessions_never_meet_a_non_number
           (GImport (JSON_stringify 2 (VArr [VObj over_target_task])) true
              :: GProgress 1 (-1) "t" :: longer_session) eq_refl).
Defined.

(** ** The array by value and the array of references *)

Section Simulation.

Lemma find_task_view (taskId : Z) (s : Shared.store) :
  option_map (Shared.deref (Shared.heap s)) (Shared.find_task taskId s)
  = find_task taskId (Shared.records s).
Proof.
  unfold Shared.find_task, find_task, Shared.records.
  induction (Shared.tasks s) as [|a r IH]; [reflexivity|]. simpl.
  destruct (has_id taskId (Shared.deref (Shared.heap s) a)); [reflexivity|exact IH].
Qed.

Lemma records_write_unshared (taskId : Z) (o : obj) (s : Shared.store) (a : nat) :
  Shared.unshared s ->
  Shared.find_task taskId s = Some a ->
  Shared.records (Shared.saveTasks (Shared.set_heap (Shared.write a o (Shared.heap s)) s))
  = assign_found taskId o (Shared.records s).
Proof.
  intros Hnd Hf.
  destruct (find_address_split taskId s a Hf)
    as (pre & post & Hts & Hpre & Ha & Hnpre & Halloc).
  assert (Hnpost : ~ In a post).
  { unfold Shared.unshared in Hnd. rewrite Hts in Hnd.
    apply NoDup_remove_2 in Hnd. intros Hin. apply Hnd.
    apply in_or_app. now right. }
  rewrite (records_write a o s Halloc). unfold Shared.records.
  rewrite Hts, !map_app. simpl. rewrite Nat.eqb_refl.
  rewrite (map_eqb_absent a o _ pre Hnpre), (map_eqb_absent a o _ post Hnpost).
  symmetry. apply assign_found_at; [|exact Ha].
  intros t Ht. apply in_map_iff in Ht as (b & <- & Hb). now apply Hpre.
Qed.

Lemma splice_found_view (taskId : Z) (h : list obj) (l : list nat) :
  map (Shared.deref h) (Shared.splice_found taskId h l)
  = splice_found taskId (map (Shared.deref h) l).
Proof.
  induction l as [|a r IH]; [reflexivity|]. simpl.
  destruct (has_id taskId (Shared.deref h a)); [reflexivity|].
  simpl. now rewrite IH.
Qed.

Lemma deref_app (h more : list obj) (a : nat) :
  (a < List.length h)%nat -> Shared.deref (h ++ more) a = Shared.deref h a.
Proof. intros H. unfold Shared.deref. now apply app_nth1. Qed.

Lemma records_app (more : list obj) (h : list obj) (l : list nat) :
  Forall (fun a => (a < List.length h)%nat) l ->
  map (Shared.deref (h ++ more)) l = map (Shared.deref h) l.
Proof.
  intros H. apply map_ext_in. intros a Ha. apply deref_app.
  rewrite Forall_forall in H. now apply H.
Qed.

Lemma records_seq (h objs : list obj) :
  map (Shared.deref (h ++ objs)) (seq (List.length h) (List.length objs)) = objs.
Proof.
  revert h. induction objs as [|o r IH]; intros h; [reflexivity|]. simpl.
  f_equal.
  - unfold Shared.deref. rewrite app_nth2 by lia. now rewrite Nat.sub_diag.
  - specialize (IH (h ++ [o])). rewrite <- app_assoc, length_app in IH.
    simpl in IH. now rewrite Nat.add_1_r in IH.
Qed.

Lemma allocated_found (taskId : Z) (s : Shared.store) (a : nat) :
  Shared.find_task taskId s = Some a -> In a (Shared.tasks s).
Proof.
  intros Hf. destruct (find_address_split taskId s a Hf) as (pre & post & -> & _).
  apply in_or_app. right. now left.
Qed.

(** Two ids do not find one object. *)
Lemma find_task_injective (i j : Z) (s : Shared.store) (a : nat) :
  Shared.find_task i s = Some a -> Shared.find_task j s = Some a -> i = j.
Proof.
  intros Hi Hj.
  destruct (find_address_split i s a Hi) as (_ & _ & _ & _ & Hai & _).
  destruct (find_address_split j s a Hj) as (_ & _ & _ & _ & Haj & _).
  apply has_id_id_of in Hai, Haj. congruence.
Qed.

Lemma onEnd_addresses (cardIds : list string) (s : Shared.store) :
  Shared.tasks (Shared.onEnd cardIds s)
  = flat_map (fun i => option_list (Shared.find_task i s)) (card_ids cardIds).
Proof.
  unfold Shared.onEnd, card_ids. simpl.
  induction cardIds as [|card r IH]; [reflexivity|]. simpl.
  rewrite flat_map_app, IH. f_equal.
  destruct (card_task_id card); simpl; [now rewrite app_nil_r|reflexivity].
Qed.

Lemma found_unshared (ids : list Z) (s : Shared.store) :
  NoDup ids ->
  NoDup (flat_map (fun i => option_list (Shared.find_task i s)) ids).
Proof.
  induction 1 as [|i r Hi Hr IH]; [constructor|]. simpl.
  destruct (Shared.find_task i s) as [a|] eqn:Hf; [|exact IH]. simpl.
  constructor; [|exact IH]. intros Hin.
  apply in_flat_map in Hin as (j & Hj & Ha).
  destruct (Shared.find_task j s) as [b|] eqn:Hfj; [|contradiction].
  destruct Ha as [->|[]].
  rewrite (find_task_injective i j s a Hf Hfj) in Hi. contradiction.
Qed.

Lemma onEnd_view (cardIds : list string) (s : Shared.store) :
  Shared.view (Shared.onEnd cardIds s) = onEnd cardIds (Shared.view s).
Proof.
  unfold Shared.onEnd, onEnd, Shared.view, Shared.records, Shared.saveTasks,
    Shared.set_tasks, saveTasks, set_tasks, Shared.records.
  cbn [Shared.heap Shared.tasks Shared.currentEditingTaskId Shared.storage
       tasks currentEditingTaskId storage].
  assert (E : map (Shared.deref (Shared.heap s))
                (flat_map (fun cardId =>
                             match card_task_id cardId with
                             | Some taskId => option_list (Shared.find_task taskId s)
                             | None => []
                             end) cardIds)
              = flat_map (fun cardId =>
                            match card_task_id cardId with
                            | Some taskId =>
                                match find_task taskId
                                        (map (Shared.deref (Shared.heap s)) (Shared.tasks s)) with
                                | Some task => [task]
                                | None => []
                                end
                            | None => []
                            end) cardIds).
  { induction cardIds as [|card r IH]; [reflexivity|]. simpl.
    rewrite map_app, IH. f_equal.
    destruct (card_task_id card) as [i|]; [|reflexivity].
    pose proof (find_task_view i s) as Hv. unfold Shared.records in Hv.
    rewrite <- Hv. now destruct (Shared.find_task i s). }
  now rewrite E.
Qed.

(** One gesture: on a store where no object sits at two positions, the
    records after it are those that the by-value functions give. *)
Lemma view_changed (s1 s : Shared.store) (ts : list obj) :
  Shared.records s1 = ts ->
  Shared.currentEditingTaskId s1 = Shared.currentEditingTaskId s ->
  Shared.storage s1 = Shared.storage s ->
  Shared.view (Shared.saveTasks s1) = saveTasks (set_tasks ts (Shared.view s)).
Proof.
  intros <- He Hs. unfold Shared.view, saveTasks, set_tasks, Shared.saveTasks.
  cbn [tasks currentEditingTaskId storage Shared.currentEditingTaskId Shared.storage].
  rewrite He. reflexivity.
Qed.

Lemma records_pushed (t : obj) (s : Shared.store) :
  Shared.allocated s ->
  map (Shared.deref (Shared.heap s ++ [t]))
    (Shared.tasks s ++ [List.length (Shared.heap s)])
  = Shared.records s ++ [t].
Proof.
  intros Halloc. rewrite map_app, (records_app [t] _ _ Halloc). simpl.
  unfold Shared.records. f_equal. f_equal.
  unfold Shared.deref. rewrite app_nth2 by lia. now rewrite Nat.sub_diag.
Qed.

Lemma step_view (g : gesture) (s : Shared.store) :
  Shared.allocated s -> Shared.unshared s ->
  option_map Shared.view (Shared.step g s) = step g (Shared.view s).
Proof.
  intros Halloc Hnd. destruct g; simpl.
  - unfold Shared.addTask, addTask.
    destruct (new_task nameField targetField now createdIso modifiedIso) as [t|];
      [|reflexivity].
    f_equal. apply view_changed; [|reflexivity|reflexivity].
    exact (records_pushed t s Halloc).
  - unfold Shared.updateProgress, updateProgress. cbn [tasks Shared.view].
    rewrite <- find_task_view.
    destruct (Shared.find_task taskId s) as [a|] eqn:Hf; [|reflexivity].
    cbn [option_map].
    destruct (getProp "current" (Shared.deref (Shared.heap s) a)) as [[| |c| | |]|];
      try reflexivity.
    destruct (getProp "target" (Shared.deref (Shared.heap s) a)) as [[| |t| | |]|];
      try reflexivity.
    cbn [option_map]. f_equal.
    pose proof (records_write_unshared taskId
                  (setProp "lastModified" (VStr iso)
                     (setProp "current" (VNum (Z.max 0 (Z.min (c + change) t)))
                        (Shared.deref (Shared.heap s) a))) s a Hnd Hf) as Hr.
    apply view_changed; [exact Hr|reflexivity|reflexivity].
  - unfold Shared.openEditTaskModal, openEditTaskModal. cbn [tasks Shared.view].
    rewrite <- find_task_view.
    now destruct (Shared.find_task taskId s).
  - unfold Shared.updateTask, updateTask.
    cbn [tasks currentEditingTaskId Shared.view].
    destruct (Shared.currentEditingTaskId s) as [editing|]; [|reflexivity].
    rewrite <- find_task_view.
    destruct (Shared.find_task editing s) as [a|] eqn:Hf; [|reflexivity].
    cbn [option_map].
    destruct (parseInt currentField) as [c|]; [|reflexivity].
    destruct (parseInt targetField) as [t|]; [|reflexivity].
    destruct (is_empty (trim nameField) || (t <? 1) || (c <? 0) || (c >? t))%bool;
      [reflexivity|].
    f_equal.
    pose proof (records_write_unshared editing
                  (setProp "lastModified" (VStr iso)
                     (setProp "target" (VNum t)
                        (setProp "current" (VNum c)
                           (setProp "name" (VStr (trim nameField))
                              (Shared.deref (Shared.heap s) a))))) s a Hnd Hf) as Hr.
    apply view_changed; [exact Hr|reflexivity|reflexivity].
  - unfold Shared.deleteTask, deleteTask. destruct confirmed; [|reflexivity].
    cbn [tasks Shared.view]. rewrite <- find_task_view.
    destruct (Shared.find_task taskId s) as [a|]; [|reflexivity].
    cbn [option_map]. f_equal. apply view_changed; [|reflexivity|reflexivity].
    apply splice_found_view.
  - f_equal. apply onEnd_view.
  - f_equal. unfold Shared.handleFileImport, handleFileImport.
    destruct (JSON_parse text) as [v|]; [|reflexivity].
    destruct v as [| | | |l|]; try reflexivity.
    destruct l as [|t r]; [reflexivity|].
    unfold Shared.import_parsed, import_parsed.
    destruct (every_task_check (t :: r)) as [[]|]; try reflexivity.
    destruct confirmed; [|reflexivity].
    cbn [fst]. apply view_changed; [|reflexivity|reflexivity].
    apply records_seq.
  - unfold Shared.clearAllData, clearAllData.
    destruct confirmed1, confirmed2; reflexivity.
Qed.

(** One gesture keeps every address that of an object, and puts no object at
    two positions unless it is a drop over cards that repeat an id. *)
Lemma step_unshared (g : gesture) (s s' : Shared.store) :
  Shared.allocated s -> Shared.unshared s -> distinct_cards g ->
  Shared.step g s = Some s' ->
  Shared.allocated s' /\ Shared.unshared s'.
Proof.
  unfold Shared.allocated, Shared.unshared.
  intros Halloc Hnd Hcards Hstep. destruct g; simpl in Hstep.
  - injection Hstep as <-. unfold Shared.addTask.
    destruct (new_task nameField targetField now createdIso modifiedIso) as [t|];
      [|auto].
    simpl. rewrite length_app. simpl. split.
    + apply Forall_app. split.
      * eapply Forall_impl; [|exact Halloc]. simpl. intros; lia.
      * constructor; [lia|constructor].
    + apply NoDup_app_remove_l with (l := []). simpl.
      apply Permutation_NoDup with (l := List.length (Shared.heap s) :: Shared.tasks s).
      * apply Permutation_cons_append.
      * constructor; [|exact Hnd]. intros Hin.
        rewrite Forall_forall in Halloc. specialize (Halloc _ Hin). lia.
  - unfold Shared.updateProgress in Hstep.
    destruct (Shared.find_task taskId s) as [a|]; [|injection Hstep as <-; auto].
    destruct (getProp "current" (Shared.deref (Shared.heap s) a)) as [[| |c| | |]|];
      try discriminate.
    destruct (getProp "target" (Shared.deref (Shared.heap s) a)) as [[| |t| | |]|];
      try discriminate.
    injection Hstep as <-. simpl. now rewrite length_write.
  - injection Hstep as <-. unfold Shared.openEditTaskModal.
    destruct (Shared.find_task taskId s); auto.
  - injection Hstep as <-. unfold Shared.updateTask.
    destruct (Shared.currentEditingTaskId s) as [editing|]; [|auto].
    destruct (Shared.find_task editing s) as [a|]; [|auto].
    destruct (parseInt currentField) as [c|]; [|auto].
    destruct (parseInt targetField) as [t|]; [|auto].
    destruct (is_empty (trim nameField) || (t <? 1) || (c <? 0) || (c >? t))%bool;
      [auto|].
    simpl. now rewrite length_write.
  - injection Hstep as <-. unfold Shared.deleteTask. destruct confirmed; [|auto].
    destruct (Shared.find_task taskId s) as [a|]; [|auto]. simpl.
    clear -Halloc Hnd. induction (Shared.tasks s) as [|b r IH]; [auto|].
    simpl. inversion Halloc; inversion Hnd; subst.
    destruct (has_id taskId (Shared.deref (Shared.heap s) b)); [auto|].
    destruct (IH ltac:(assumption) ltac:(assumption)) as [IH1 IH2].
    split; [now constructor|]. constructor; [|exact IH2].
    intros Hin. match goal with H : ~ In b r |- _ => apply H end.
    clear -Hin. induction r as [|c r IH]; [contradiction|]. simpl in Hin.
    destruct (has_id taskId (Shared.deref (Shared.heap s) c)); [now right|].
    destruct Hin as [->|Hin]; [now left|right; now apply IH].
  - injection Hstep as <-. simpl in Hcards. split.
    + rewrite onEnd_addresses. apply Forall_forall. intros a Ha.
      apply in_flat_map in Ha as (i & _ & Ha).
      destruct (Shared.find_task i s) as [b|] eqn:Hf; [|contradiction].
      destruct Ha as [->|[]]. simpl.
      now destruct (find_address_split i s a Hf) as (_ & _ & _ & _ & _ & _ & H).
    + rewrite onEnd_addresses. now apply found_unshared.
  - injection Hstep as <-. unfold Shared.handleFileImport.
    destruct (JSON_parse text) as [v|]; [|auto].
    destruct v as [| | | |l|]; auto.
    destruct l as [|t r]; [auto|]. unfold Shared.import_parsed.
    destruct (every_task_check (t :: r)) as [[]|]; auto.
    destruct confirmed; [|auto]. cbn [fst]. simpl Shared.heap. simpl Shared.tasks.
    cbn [Shared.saveTasks Shared.heap Shared.tasks].
    split; [|apply seq_NoDup].
    apply Forall_forall. intros a Ha. apply in_seq in Ha.
    rewrite length_app. lia.
  - injection Hstep as <-. unfold Shared.clearAllData.
    destruct confirmed1, confirmed2; auto. simpl. split; constructor.
Qed.

End Simulation.

(** X19: the array by value is the array of references read by value, as
    long as no object sits at two positions of it.  In a session whose drops
    come with cards that repeat no id, started from a store where it is so
    (the store of a page that starts with nothing stored, for one), it stays
    so, and the functions on the array by value give, gesture after gesture,
    what the functions on the store give, read by value. *)
Theorem the_array_by_value_is_the_array_read_by_value :
  forall (gs : list gesture) (s : Shared.store),
    Shared.allocated s ->
    Shared.unshared s ->
    Forall distinct_cards gs ->
    option_map Shared.view (Shared.run gs s) = run gs (Shared.view s)
    /\ forall s', Shared.run gs s = Some s' ->
                  Shared.allocated s' /\ Shared.unshared s'.
Proof.
  induction gs as [|g r IH]; intros s Halloc Hnd Hcards.
  - split; [reflexivity|]. intros s' [= <-]. auto.
  - inversion Hcards as [|? ? Hg Hr]; subst. simpl.
    pose proof (step_view g s Halloc Hnd) as Hv.
    destruct (Shared.step g s) as [s1|] eqn:Hstep.
    + simpl in Hv. rewrite <- Hv.
      destruct (step_unshared g s s1 Halloc Hnd Hg Hstep) as [Halloc1 Hnd1].
      exact (IH s1 Halloc1 Hnd1 Hr).
    + simpl in Hv. rewrite <- Hv. split; [reflexivity|]. discriminate.
Qed.

Lemma the_array_by_value_is_the_array_read_by_value_witness :
  Shared.allocated Shared.empty
  /\ Shared.unshared Shared.empty
  /\ Forall distinct_cards longer_session
  /\ option_map Shared.view (Shared.run longer_session Shared.empty)
     = run longer_session empty_state
  /\ (forall s', Shared.run longer_session Shared.empty = Some s' ->
                 Shared.allocated s' /\ Shared.unshared s')
  /\ ~ Forall distinct_cards twin_session
  /\ option_map Shared.view (Shared.run twin_session Shared.empty)
     = run twin_session empty_state
  /\ option_map (fun s => map (getProp "current") (Shared.records s))
       (Shared.run (twin_session ++ [GProgress 1 1 "t"]) Shared.empty)
     = Some [Some (VNum 3); Some (VNum 3)]
  /\ option_map (fun st => map (getProp "current") (tasks st))
       (run (twin_session ++ [GProgress 1 1 "t"]) empty_state)
     = Some [Some (VNum 3); Some (VNum 2)].
Proof.
  assert (Ha : Shared.allocated Shared.empty) by constructor.
  assert (Hu : Shared.unshared Shared.empty) by constructor.
  assert (Hc : Forall distinct_cards longer_session).
  { repeat constructor. simpl. intros []. }
  split; [exact Ha|]. split; [exact Hu|]. split; [exact Hc|].
  split; [exact (proj1 (the_array_by_value_is_the_array_read_by_value
                          longer_session Shared.empty Ha Hu Hc))|].
  split; [exact (proj2 (the_array_by_value_is_the_array_read_by_value
                          longer_session Shared.empty Ha Hu Hc))|].
  split.
  - intros H. inversion H as [|? ? _ H1]; subst.
    inversion H1 as [|? ? H2 _]; subst. simpl in H2.
    inversion H2 as [|? ? H3 _]; subst. apply H3. now left.
  - repeat split.
Defined.
